(** * youtube-app: the video store, the URL form and the playback page

    A shallow embedding of the TypeScript sources

    - [src/store/videoStore.ts]      ([getYouTubeIdFromUrl], [saveVideoData],
                                      [getVideoData], [clearVideoData]),
    - [src/components/YouTubeForm.tsx] ([YOUTUBE_URL_REGEX], [handleSubmit]),
    - [src/app/page.tsx]             (the effect that fills the form in,
                                      [handleSaveUrl]),
    - [src/app/video/page.tsx]       (the mount effect, [handleBeforeUnload],
                                      [handleTimeUpdate],
                                      [handlePlayerStateChange],
                                      [refinedHandleEdit]),
    - [src/app/gif/page.tsx]         ([handleBackToVideo]),

    and the properties of the specification that are about them.

    Conventions of the model.

    - A JavaScript string is a [string]: one [ascii] per UTF-16 code unit, so
      the model covers the strings whose code units are below 256. Where the
      platform would go on with another string ([JSON.parse] of an escape
      such as [\u0416], [decodeURIComponent] of such a code point), the model
      stops with [OutsideModel], and the properties are stated of the other
      cases.
    - A number that a JSON text or a player report carries is the exact
      decimal [number] it is written as; the arithmetic of the pages is done
      on the [double] nearest to it, with the rounding, the infinities and
      the [NaN] of IEEE 754.
    - An operation that may throw returns a [completion]; [try]/[catch] is a
      match on it.
    - [Date.now()] is a parameter of every function that reads the clock. *)

From Stdlib Require Import ZArith NArith QArith Qminmax Lqa String Ascii List Bool Lia.
From Stdlib Require Import SpecFloat.
From stdpp Require Import gmap strings.

Import ListNotations.
Local Open Scope string_scope.

#[local] Arguments String.append !s1 s2 : simpl nomatch.

(** ** Completions: normal return or a thrown exception *)

Inductive JSError : Type :=
| TypeError
| SyntaxError
| SecurityError
| QuotaExceededError
| URIError
| OutsideModel.
    (* not an exception of the program: the platform goes on, with a string
       that the model does not hold or follow *)

Inductive completion (A : Type) : Type :=
| Normal (a : A)
| Throw (e : JSError).

Arguments Normal {A} a.
Arguments Throw {A} e.

Definition throws {A : Type} (c : completion A) : bool :=
  match c with
  | Normal _ => false
  | Throw _ => true
  end.

(** ** Strings *)

(** [strip l s]: what follows the literal [l] at the head of [s]. *)
Fixpoint strip (l : string) (s : string) : option string :=
  match l with
  | EmptyString => Some s
  | String x l' =>
      match s with
      | String a s' => if Ascii.eqb x a then strip l' s' else None
      | EmptyString => None
      end
  end.

(** ** Regular expressions, as far as the two regex literals of the sources
       use them *)

Module Regex.

(** Character classes. A character is compared by its code. *)
Inductive cclass : Type :=
| CDot                               (* .      *)
| CIn (ranges : list (ascii * ascii))     (* [a-z_] and single characters *)
| CNotIn (ranges : list (ascii * ascii)). (* [^#&?] *)

Definition code (a : ascii) : N := N_of_ascii a.

Definition in_range (a : ascii) (r : ascii * ascii) : bool :=
  ((code (fst r) <=? code a) && (code a <=? code (snd r)))%N.

(** The line terminators of ECMAScript that have a code below 256. *)
Definition line_terminator (a : ascii) : bool :=
  ((code a =? 10) || (code a =? 13))%N.

Definition cmatch (c : cclass) (a : ascii) : bool :=
  match c with
  | CDot => negb (line_terminator a)
  | CIn rs => existsb (in_range a) rs
  | CNotIn rs => negb (existsb (in_range a) rs)
  end.

Inductive regex : Type :=
| RBol                         (* ^  (no multiline flag) *)
| REol                         (* $  (no multiline flag) *)
| RLit (l : string)            (* a run of literal characters *)
| RChr (c : cclass)            (* one character of a class *)
| RSeq (r1 r2 : regex)
| RAlt (r1 r2 : regex)         (* r1|r2 *)
| ROpt (r : regex)             (* r?  greedy *)
| RStar (c : cclass)           (* c*  greedy *)
| RRep (n : nat) (c : cclass)  (* c{n} *)
| RGrp (i : nat) (r : regex).  (* the i-th capturing group *)

(** Captures, most recent first. *)
Definition caps : Type := list (nat * string).

Fixpoint group (i : nat) (cs : caps) : option string :=
  match cs with
  | [] => None
  | (j, s) :: cs' => if Nat.eqb i j then Some s else group i cs'
  end.

(** A continuation receives the position reached, the rest of the input and
    the captures made so far. *)
Definition cont : Type := nat -> string -> caps -> option caps.

Fixpoint lit (l : string) (pos : nat) (s : string) (cs : caps) (k : cont)
  : option caps :=
  match l with
  | EmptyString => k pos s cs
  | String x l' =>
      match s with
      | String a s' =>
          if Ascii.eqb x a then lit l' (S pos) s' cs k else None
      | EmptyString => None
      end
  end.

(** Greedy: the longest run first, then shorter ones on backtracking. *)
Fixpoint star (c : cclass) (pos : nat) (s : string) (cs : caps) (k : cont)
  : option caps :=
  match s with
  | String a s' =>
      if cmatch c a then
        match star c (S pos) s' cs k with
        | Some r => Some r
        | None => k pos s cs
        end
      else k pos s cs
  | EmptyString => k pos s cs
  end.

Fixpoint rep (n : nat) (c : cclass) (pos : nat) (s : string) (cs : caps)
  (k : cont) : option caps :=
  match n with
  | O => k pos s cs
  | S n' =>
      match s with
      | String a s' => if cmatch c a then rep n' c (S pos) s' cs k else None
      | EmptyString => None
      end
  end.

(** The backtracking matcher: alternatives are tried left to right and the
    first success wins. *)
Fixpoint m (r : regex) (pos : nat) (s : string) (cs : caps) (k : cont)
  : option caps :=
  match r with
  | RBol => if Nat.eqb pos 0 then k pos s cs else None
  | REol => match s with EmptyString => k pos s cs | String _ _ => None end
  | RLit l => lit l pos s cs k
  | RChr c =>
      match s with
      | String a s' => if cmatch c a then k (S pos) s' cs else None
      | EmptyString => None
      end
  | RSeq r1 r2 => m r1 pos s cs (fun pos' s' cs' => m r2 pos' s' cs' k)
  | RAlt r1 r2 =>
      match m r1 pos s cs k with
      | Some r => Some r
      | None => m r2 pos s cs k
      end
  | ROpt r1 =>
      match m r1 pos s cs k with
      | Some r => Some r
      | None => k pos s cs
      end
  | RStar c => star c pos s cs k
  | RRep n c => rep n c pos s cs k
  | RGrp i r1 =>
      m r1 pos s cs
        (fun pos' s' cs' => k pos' s' ((i, substring 0 (pos' - pos) s) :: cs'))
  end.

Definition accept : cont := fun _ _ cs => Some cs.

(** A match is tried at every start index, from the left. *)
Fixpoint search (r : regex) (pos : nat) (s : string) : option caps :=
  match m r pos s [] accept with
  | Some cs => Some cs
  | None =>
      match s with
      | String _ s' => search r (S pos) s'
      | EmptyString => None
      end
  end.

(** [RegExp.prototype.exec] of a regex without flags: group 0 is the whole
    match. *)
Definition exec (r : regex) (s : string) : option caps :=
  search (RGrp 0 r) 0 s.

(** [RegExp.prototype.test]. *)
Definition test (r : regex) (s : string) : bool :=
  match exec r s with
  | Some _ => true
  | None => false
  end.

Definition chr (a : ascii) : cclass := CIn [(a, a)].

(** [\w] *)
Definition word : cclass :=
  CIn [("a", "z"); ("A", "Z"); ("0", "9"); ("_", "_")]%char.

End Regex.

Import Regex.

(** ** [src/store/videoStore.ts]: the identifier extractor *)

(** [[^#&?]]: the characters of a token. *)
Definition token_class : cclass :=
  CNotIn [("#", "#"); ("&", "&"); ("?", "?")]%char.

(** The regex literal of the source, piece by piece:
    [^]  [.*]  [(youtu\.be\/|v\/|u\/\w\/|embed\/|watch\?v=|&v=)]
    [( [^#&?]* )]  [.*]
    with no flag and no [$] at the end. *)
Definition regExp : regex :=
  RSeq RBol
    (RSeq (RStar CDot)
       (RSeq
          (RGrp 1
             (RAlt (RLit "youtu.be/")
                (RAlt (RLit "v/")
                   (RAlt (RSeq (RLit "u/") (RSeq (RChr word) (RLit "/")))
                      (RAlt (RLit "embed/")
                         (RAlt (RLit "watch?v=") (RLit "&v=")))))))
          (RSeq (RGrp 2 (RStar token_class)) (RStar CDot)))).

(** [match[2].length]: reading [length] of [undefined] throws. *)
Definition getYouTubeIdFromUrl_c (url : string) : completion string :=
  match exec regExp url with
  | Some cs =>
      match group 2 cs with
      | Some g2 => Normal (if Nat.eqb (String.length g2) 11 then g2 else "")
      | None => Throw TypeError
      end
  | None => Normal ""
  end.

Definition getYouTubeIdFromUrl (url : string) : string :=
  match getYouTubeIdFromUrl_c url with
  | Normal v => v
  | Throw _ => ""
  end.

(** ** [src/components/YouTubeForm.tsx]: validation of the form *)

(** [[a-zA-Z0-9_-]] *)
Definition id_class : cclass :=
  CIn [("a", "z"); ("A", "Z"); ("0", "9"); ("_", "_"); ("-", "-")]%char.

(** The regex literal of the source, piece by piece:
    [^]  [(https?:\/\/)?]  [(www\.)?]
    [(youtube\.com\/watch\?v=|youtu\.be\/)]  [([a-zA-Z0-9_-]{11})]  [.*]  [$]
    with no flag. *)
Definition YOUTUBE_URL_REGEX : regex :=
  RSeq RBol
    (RSeq (ROpt (RGrp 1 (RSeq (RLit "http") (RSeq (ROpt (RChr (chr "s"))) (RLit "://")))))
       (RSeq (ROpt (RGrp 2 (RLit "www.")))
          (RSeq (RGrp 3 (RAlt (RLit "youtube.com/watch?v=") (RLit "youtu.be/")))
             (RSeq (RGrp 4 (RRep 11 id_class))
                (RSeq (RStar CDot) REol))))).

(** [handleSubmit]: [String.prototype.trim] removes white space at both ends;
    only whether the trimmed string is empty matters here. *)
Definition white_space (a : ascii) : bool :=
  (((9 <=? code a) && (code a <=? 13)) || (code a =? 32) || (code a =? 160))%N.

Fixpoint blank (s : string) : bool :=
  match s with
  | EmptyString => true
  | String a s' => white_space a && blank s'
  end.

Inductive SubmitOutcome : Type :=
| ErrorEmpty        (* setError("Please enter a YouTube video URL.") *)
| ErrorInvalid      (* setError("Please enter a valid YouTube video URL.") *)
| OnSave (url : string).

Definition handleSubmit (videoUrl : string) : SubmitOutcome :=
  if blank videoUrl then ErrorEmpty
  else if negb (test YOUTUBE_URL_REGEX videoUrl) then ErrorInvalid
  else OnSave videoUrl.

(** ** Numbers *)

(** [Num m k] is the decimal [m / 10^k]. *)
Record number : Type := Num { mant : Z; scale : nat }.

Definition pow10 (k : nat) : Z := 10 ^ Z.of_nat k.

Definition num_Q (x : number) : Q := Qmake (mant x) (Z.to_pos (pow10 (scale x))).

Definition num_of_Z (z : Z) : number := Num z 0.

Definition num_add (x y : number) : number :=
  let k := Nat.max (scale x) (scale y) in
  Num (mant x * pow10 (k - scale x) + mant y * pow10 (k - scale y)) k.

Definition num_sub (x y : number) : number :=
  let k := Nat.max (scale x) (scale y) in
  Num (mant x * pow10 (k - scale x) - mant y * pow10 (k - scale y)) k.

(** [x / 1000]: three more decimal places. *)
Definition num_div1000 (x : number) : number := Num (mant x) (scale x + 3).

Definition num_ltb (x y : number) : bool :=
  (mant x * pow10 (scale y) <? mant y * pow10 (scale x))%Z.

Definition num_zero : number := Num 0 0.

(** A number has one canonical writing: no trailing zero after the point. *)
Fixpoint normalize (m : Z) (k : nat) : number :=
  match k with
  | O => Num m 0
  | S k' => if (m mod 10 =? 0)%Z then normalize (m / 10) k' else Num m k
  end.

Definition canonical (x : number) : Prop := normalize (mant x) (scale x) = x.

(** ** Double-precision numbers *)

(** JavaScript computes on the binary64 values of IEEE 754, with rounding to
    the nearest value, ties to even. *)
Definition prec : Z := 53.
Definition emax : Z := 1024.

Definition double : Type := spec_float.

Definition NaN : double := S754_nan.
Definition Infinity : double := S754_infinity false.

(** The double a decimal stands for in a program or in a JSON text: the
    nearest one. *)
Definition to_double (x : number) : double :=
  let d := S754_finite false (Z.to_pos (pow10 (scale x))) 0 in
  match mant x with
  | Z0 => S754_zero false
  | Zpos m => SFdiv prec emax (S754_finite false m 0) d
  | Zneg m => SFdiv prec emax (S754_finite true m 0) d
  end.

Coercion to_double : number >-> double.

Definition double_of_Z (z : Z) : double := to_double (num_of_Z z).

Definition js_add (x y : double) : double := SFadd prec emax x y.
Definition js_sub (x y : double) : double := SFsub prec emax x y.
Definition js_div (x y : double) : double := SFdiv prec emax x y.
Definition js_lt (x y : double) : bool := SFltb x y.
Definition js_neg (x : double) : double := SFopp x.

(** The value of a finite double, which is a decimal. *)
Definition double_number (x : double) : option number :=
  match x with
  | S754_zero _ => Some num_zero
  | S754_finite s m e =>
      let z := if s then Zneg m else Zpos m in
      Some (if (0 <=? e)%Z then Num (z * 2 ^ e) 0
            else Num (z * 5 ^ (- e)) (Z.to_nat (- e)))
  | _ => None
  end.

(** The greatest integer that is not above [x]; [x] when it is not finite. *)
Definition floor (x : double) : double :=
  match x with
  | S754_finite s m e =>
      if (0 <=? e)%Z then x
      else
        let q := ((if s then Zneg m else Zpos m) / 2 ^ (- e))%Z in
        if (q =? 0)%Z then S754_zero s else double_of_Z q
  | _ => x
  end.

(** ** JavaScript values that JSON can carry *)

#[local] Set Warnings "-register-all".

Inductive JSValue : Type :=
| JNull
| JBool (b : bool)
| JNum (n : number)
| JStr (s : string)
| JArr (elems : list JSValue)
| JObj (props : list (string * JSValue)).

(** [ToBoolean]. *)
Definition truthy (v : JSValue) : bool :=
  match v with
  | JNull => false
  | JBool b => b
  | JNum n =>
      match to_double n with
      | S754_zero _ | S754_nan => false
      | _ => true
      end
  | JStr s => negb (String.eqb s "")
  | JArr _ => true
  | JObj _ => true
  end.

(** Property lookup in an object; [None] is [undefined]. *)
Fixpoint lookup_prop (k : string) (props : list (string * JSValue))
  : option JSValue :=
  match props with
  | [] => None
  | (k', v) :: props' => if String.eqb k k' then Some v else lookup_prop k props'
  end.

(** [v?.k] for the values of the model: only objects carry the properties
    the sources read. *)
Definition get_prop (v : JSValue) (k : string) : option JSValue :=
  match v with
  | JObj props => lookup_prop k props
  | _ => None
  end.

(** Assignment of a property: an existing key keeps its place, a new key goes
    to the end. *)
Fixpoint set_prop (k : string) (v : JSValue) (props : list (string * JSValue))
  : list (string * JSValue) :=
  match props with
  | [] => [(k, v)]
  | (k', v') :: props' =>
      if String.eqb k k' then (k, v) :: props' else (k', v') :: set_prop k v props'
  end.

Definition set_props (news : list (string * JSValue))
  (props : list (string * JSValue)) : list (string * JSValue) :=
  fold_left (fun acc kv => set_prop (fst kv) (snd kv) acc) news props.

(** ** The platform's [JSON.stringify] and [JSON.parse] on these values *)

Module JSON.

Definition dquote : ascii := "034"%char.
Definition backslash : ascii := "092"%char.

Definition is_digit (a : ascii) : bool :=
  ((48 <=? code a) && (code a <=? 57))%N.

Definition digit_val (a : ascii) : N := (code a - 48)%N.

Definition digit_char (d : N) : ascii := ascii_of_N (48 + d).

(** *** Numbers *)

(** The digits of [n], most significant first, in front of [tail]. *)
Fixpoint int_digits (fuel : nat) (n : N) (tail : string) : string :=
  match fuel with
  | O => tail
  | S f =>
      let tail' := String (digit_char (n mod 10)) tail in
      if (n / 10 =? 0)%N then tail' else int_digits f (n / 10) tail'
  end.

Definition N_to_string (n : N) : string :=
  int_digits (S (N.to_nat (N.log2 n))) n "".

(** Exactly [k] digits of [f], most significant first, in front of [tail]. *)
Fixpoint frac_digits (k : nat) (f : N) (tail : string) : string :=
  match k with
  | O => tail
  | S k' => frac_digits k' (f / 10) (String (digit_char (f mod 10)) tail)
  end.

(** [Number::toString] in positional notation (the exponent notation that
    JavaScript uses from 1e21 on and below 1e-6 is not modelled). *)
Definition num_to_string (x : number) : string :=
  let x' := normalize (mant x) (scale x) in
  let a := Z.abs_N (mant x') in
  let p := (10 ^ N.of_nat (scale x'))%N in
  String.append (if (mant x' <? 0)%Z then "-" else "")
    (String.append (N_to_string (a / p))
       (match scale x' with
        | O => ""
        | S _ => String "." (frac_digits (scale x') (a mod p) "")
        end)).

(** A maximal run of digits: its value on top of [acc], and its length on
    top of [cnt]. *)
Fixpoint read_digits (s : string) (acc : N) (cnt : nat) : N * nat * string :=
  match s with
  | String a s' =>
      if is_digit a then read_digits s' (acc * 10 + digit_val a)%N (S cnt)
      else (acc, cnt, s)
  | EmptyString => (acc, cnt, s)
  end.

(** [int]: a single 0, or a digit 1 to 9 followed by digits. *)
Definition parse_int_part (s : string) : option (N * string) :=
  match s with
  | String a s' =>
      if (code a =? 48)%N then Some (0%N, s')
      else if is_digit a then
        let '(v, _, r) := read_digits s 0 0 in Some (v, r)
      else None
  | EmptyString => None
  end.

(** [frac]: nothing, or a point followed by at least one digit. *)
Definition parse_frac_part (s : string) : option (N * nat * string) :=
  match s with
  | String a s' =>
      if (code a =? 46)%N then
        let '(v, k, r) := read_digits s' 0 0 in
        match k with
        | O => None
        | S _ => Some (v, k, r)
        end
      else Some (0%N, O, s)
  | EmptyString => Some (0%N, O, s)
  end.

(** [exp]: nothing, or e or E, an optional sign and at least one digit. *)
Definition parse_exp_part (s : string) : option (Z * string) :=
  match s with
  | String a s' =>
      if ((code a =? 101) || (code a =? 69))%N then
        let '(neg, s'') :=
          match s' with
          | String b t =>
              if (code b =? 45)%N then (true, t)
              else if (code b =? 43)%N then (false, t)
              else (false, s')
          | EmptyString => (false, s')
          end in
        let '(v, k, r) := read_digits s'' 0 0 in
        match k with
        | O => None
        | S _ => Some (if neg then (- Z.of_N v)%Z else Z.of_N v, r)
        end
      else Some (0%Z, s)
  | EmptyString => Some (0%Z, s)
  end.

Definition parse_number (s : string) : option (number * string) :=
  let '(neg, s1) :=
    match s with
    | String a t => if (code a =? 45)%N then (true, t) else (false, s)
    | EmptyString => (false, s)
    end in
  match parse_int_part s1 with
  | None => None
  | Some (ip, s2) =>
      match parse_frac_part s2 with
      | None => None
      | Some (fp, k, s3) =>
          match parse_exp_part s3 with
          | None => None
          | Some (e, s4) =>
              let a := (Z.of_N ip * pow10 k + Z.of_N fp)%Z in
              let m := if neg then (- a)%Z else a in
              let x :=
                if (Z.of_nat k <=? e)%Z
                then Num (m * 10 ^ (e - Z.of_nat k)) 0
                else normalize m (Z.to_nat (Z.of_nat k - e)) in
              Some (x, s4)
          end
      end
  end.

(** *** Strings *)

Definition hex_char (d : N) : ascii :=
  if (d <? 10)%N then ascii_of_N (48 + d) else ascii_of_N (87 + d).

Definition hex_val (a : ascii) : option N :=
  let c := code a in
  if ((48 <=? c) && (c <=? 57))%N then Some (c - 48)%N
  else if ((97 <=? c) && (c <=? 102))%N then Some (c - 87)%N
  else if ((65 <=? c) && (c <=? 70))%N then Some (c - 55)%N
  else None.

(** [QuoteJSONString], one code unit at a time. *)
Definition escape_char (a : ascii) : string :=
  let c := code a in
  if (c =? 34)%N then String backslash (String dquote "")
  else if (c =? 92)%N then String backslash (String backslash "")
  else if (c =? 8)%N then String backslash "b"
  else if (c =? 12)%N then String backslash "f"
  else if (c =? 10)%N then String backslash "n"
  else if (c =? 13)%N then String backslash "r"
  else if (c =? 9)%N then String backslash "t"
  else if (c <? 32)%N then
    String backslash
      (String "u" (String "0" (String "0"
         (String (hex_char (c / 16)) (String (hex_char (c mod 16)) "")))))
  else String a "".

Fixpoint quote_body (s : string) : string :=
  match s with
  | EmptyString => ""
  | String a s' => String.append (escape_char a) (quote_body s')
  end.

Definition quote (s : string) : string :=
  String dquote (String.append (quote_body s) (String dquote "")).

Definition unescape (e : ascii) : option ascii :=
  let c := code e in
  if (c =? 34)%N then Some dquote
  else if (c =? 92)%N then Some backslash
  else if (c =? 47)%N then Some "/"%char
  else if (c =? 98)%N then Some (ascii_of_N 8)
  else if (c =? 102)%N then Some (ascii_of_N 12)
  else if (c =? 110)%N then Some (ascii_of_N 10)
  else if (c =? 114)%N then Some (ascii_of_N 13)
  else if (c =? 116)%N then Some (ascii_of_N 9)
  else None.

Definition hex4 (h1 h2 h3 h4 : ascii) : option N :=
  match hex_val h1, hex_val h2, hex_val h3, hex_val h4 with
  | Some a, Some b, Some c, Some d => Some (((a * 16 + b) * 16 + c) * 16 + d)%N
  | _, _, _, _ => None
  end.

(** What reading a part of a text gives: a value and the rest of the text;
    a syntax error; or an escape of a code unit from 256 on, with which the
    value is outside the model, whatever follows. *)
Inductive parsed (A : Type) : Type :=
| Ok (a : A)
| Bad
| Wide.

Arguments Ok {A} a.
Arguments Bad {A}.
Arguments Wide {A}.

Definition push (a : ascii) (r : parsed (string * string))
  : parsed (string * string) :=
  match r with
  | Ok (v, rest) => Ok (String a v, rest)
  | Bad => Bad
  | Wide => Wide
  end.

(** The characters of a string literal after its opening quote, up to and
    with the closing quote. *)
Fixpoint parse_string_body (s : string) : parsed (string * string) :=
  match s with
  | EmptyString => Bad
  | String a r =>
      if (code a =? 34)%N then Ok ("", r)
      else if (code a =? 92)%N then
        match r with
        | String e r1 =>
            if (code e =? 117)%N then
              match r1 with
              | String h1 (String h2 (String h3 (String h4 r2))) =>
                  match hex4 h1 h2 h3 h4 with
                  | Some c =>
                      if (c <? 256)%N
                      then push (ascii_of_N c) (parse_string_body r2)
                      else Wide
                  | None => Bad
                  end
              | _ => Bad
              end
            else
              match unescape e with
              | Some c => push c (parse_string_body r1)
              | None => Bad
              end
        | EmptyString => Bad
        end
      else if (code a <? 32)%N then Bad
      else push a (parse_string_body r)
  end.

(** *** Values *)

Fixpoint stringify (v : JSValue) : string :=
  match v with
  | JNull => "null"
  | JBool true => "true"
  | JBool false => "false"
  | JNum n => num_to_string n
  | JStr s => quote s
  | JArr l =>
      String "["
        (String.append
           ((fix elems (l : list JSValue) : string :=
               match l with
               | [] => ""
               | x :: l' =>
                   match l' with
                   | [] => stringify x
                   | _ :: _ =>
                       String.append (stringify x) (String "," (elems l'))
                   end
               end) l) "]")
  | JObj ps =>
      String "{"
        (String.append
           ((fix members (ps : list (string * JSValue)) : string :=
               match ps with
               | [] => ""
               | (k, x) :: ps' =>
                   match ps' with
                   | [] =>
                       String.append (quote k) (String ":" (stringify x))
                   | _ :: _ =>
                       String.append (quote k)
                         (String ":"
                            (String.append (stringify x)
                               (String "," (members ps'))))
                   end
               end) ps) "}")
  end.

Definition json_ws (a : ascii) : bool :=
  ((code a =? 32) || (code a =? 9) || (code a =? 10) || (code a =? 13))%N.

Fixpoint skip_ws (s : string) : string :=
  match s with
  | String a s' => if json_ws a then skip_ws s' else s
  | EmptyString => s
  end.

Definition keyword (l : string) (v : JSValue) (s : string)
  : parsed (JSValue * string) :=
  match strip l s with
  | Some r => Ok (v, r)
  | None => Bad
  end.

(** Recursive descent. Every call spends one unit of [fuel]; of two calls in
    a row, one has read a character, so that [parse] below gives fuel for
    twice the length of the text. *)
Fixpoint parse_value (fuel : nat) (s : string) : parsed (JSValue * string) :=
  match fuel with
  | O => Bad
  | S f =>
      match skip_ws s with
      | EmptyString => Bad
      | String a r =>
          if (code a =? 123)%N then
            match skip_ws r with
            | String b r' =>
                if (code b =? 125)%N then Ok (JObj [], r')
                else parse_members f r []
            | EmptyString => Bad
            end
          else if (code a =? 91)%N then
            match skip_ws r with
            | String b r' =>
                if (code b =? 93)%N then Ok (JArr [], r')
                else parse_elements f r []
            | EmptyString => Bad
            end
          else if (code a =? 34)%N then
            match parse_string_body r with
            | Ok (v, r') => Ok (JStr v, r')
            | Bad => Bad
            | Wide => Wide
            end
          else if (code a =? 110)%N then keyword "ull" JNull r
          else if (code a =? 116)%N then keyword "rue" (JBool true) r
          else if (code a =? 102)%N then keyword "alse" (JBool false) r
          else
            match parse_number (String a r) with
            | Some (n, r') => Ok (JNum n, r')
            | None => Bad
            end
      end
  end
with parse_members (fuel : nat) (s : string) (acc : list (string * JSValue))
  : parsed (JSValue * string) :=
  match fuel with
  | O => Bad
  | S f =>
      match skip_ws s with
      | EmptyString => Bad
      | String q r =>
          if (code q =? 34)%N then
            match parse_string_body r with
            | Bad => Bad
            | Wide => Wide
            | Ok (k, r1) =>
                match skip_ws r1 with
                | EmptyString => Bad
                | String c r2 =>
                    if (code c =? 58)%N then
                      match parse_value f r2 with
                      | Bad => Bad
                      | Wide => Wide
                      | Ok (v, r3) =>
                          match skip_ws r3 with
                          | EmptyString => Bad
                          | String d r4 =>
                              if (code d =? 44)%N
                              then parse_members f r4 (set_prop k v acc)
                              else if (code d =? 125)%N
                              then Ok (JObj (set_prop k v acc), r4)
                              else Bad
                          end
                      end
                    else Bad
                end
            end
          else Bad
      end
  end
with parse_elements (fuel : nat) (s : string) (acc : list JSValue)
  : parsed (JSValue * string) :=
  match fuel with
  | O => Bad
  | S f =>
      match parse_value f s with
      | Bad => Bad
      | Wide => Wide
      | Ok (v, r) =>
          match skip_ws r with
          | EmptyString => Bad
          | String d r' =>
              if (code d =? 44)%N then parse_elements f r' (acc ++ [v])
              else if (code d =? 93)%N then Ok (JArr (acc ++ [v]), r')
              else Bad
          end
      end
  end.

(** [JSON.parse]: one value, white space around it, nothing else. The
    platform throws a [SyntaxError] on any other text. *)
Definition parse (text : string) : completion JSValue :=
  match parse_value (2 * String.length text + 2) text with
  | Ok (v, r) =>
      match skip_ws r with
      | EmptyString => Normal v
      | String _ _ => Throw SyntaxError
      end
  | Bad => Throw SyntaxError
  | Wide => Throw OutsideModel
  end.

End JSON.

(** ** The conversions of JavaScript *)

(** The primitive values an operator works on. *)
Inductive JSPrimitive : Type :=
| PUndefined
| PNull
| PBool (b : bool)
| PNumber (x : double)
| PString (s : string).

Coercion PNumber : double >-> JSPrimitive.

Fixpoint zeros (k : nat) : string :=
  match k with
  | O => ""
  | S k' => String "0" (zeros k')
  end.

(** [10 ^ p <= M / D], for positive [M] and [D]. *)
Definition le_pow10 (p M D : Z) : bool :=
  if (0 <=? p)%Z then (10 ^ p * D <=? M)%Z else (D <=? M * 10 ^ (- p))%Z.

(** The [n] with [10 ^ (n - 1) <= M / D < 10 ^ n]: looked for downwards,
    from a bound that the lengths in bits of [M] and [D] give. *)
Fixpoint point_from (fuel : nat) (n M D : Z) : Z :=
  match fuel with
  | O => n
  | S f => if le_pow10 (n - 1) M D then n else point_from f (n - 1) M D
  end.

Definition decimal_point (M D : Z) : Z :=
  point_from 8 ((Z.log2 M - Z.log2 D + 1) * 30103 / 100000 + 2) M D.

(** The decimal [s * 10 ^ p]. *)
Definition decimal (s p : Z) : number :=
  if (0 <=? p)%Z then Num (s * 10 ^ p) 0 else Num s (Z.to_nat (- p)).

(** The digits [s] and the position [n] of the point that [Number::toString]
    writes for [x = M / D]: the fewest digits that read back as [x] and, of
    these, the nearest to [x]. [k] is the number of digits tried. *)
Fixpoint shortest (fuel : nat) (k n M D : Z) (x : double) : Z * Z :=
  let p := (n - k)%Z in
  let lo := if (0 <=? p)%Z then (M / (D * 10 ^ p))%Z
            else (M * 10 ^ (- p) / D)%Z in
  let hi := (lo + 1)%Z in
  match fuel with
  | O => (lo, n)
  | S f =>
      let ok_lo := SFeqb (to_double (decimal lo p)) x in
      let ok_hi := SFeqb (to_double (decimal hi p)) x in
      let up := if (hi =? 10 ^ k)%Z then (1, n + 1)%Z else (hi, n) in
      if ok_lo && ok_hi then
        let a := if (0 <=? p)%Z then (M - lo * 10 ^ p * D)%Z
                 else (M * 10 ^ (- p) - lo * D)%Z in
        let b := if (0 <=? p)%Z then (hi * 10 ^ p * D - M)%Z
                 else (hi * D - M * 10 ^ (- p))%Z in
        if (a <? b)%Z then (lo, n)
        else if (b <? a)%Z then up
        else if Z.even lo then (lo, n) else up
      else if ok_lo then (lo, n)
      else if ok_hi then up
      else shortest f (k + 1) n M D x
  end.

Definition substring_from (n : nat) (s : string) : string :=
  String.substring n (String.length s - n) s.

(** [Number::toString] in radix 10. *)
Definition NumberToString (x : double) : string :=
  match x with
  | S754_nan => "NaN"
  | S754_zero _ => "0"
  | S754_infinity s => if s then "-Infinity" else "Infinity"
  | S754_finite sg m e =>
      let M := if (0 <=? e)%Z then (Zpos m * 2 ^ e)%Z else Zpos m in
      let D := if (0 <=? e)%Z then 1%Z else (2 ^ (- e))%Z in
      let n0 := decimal_point M D in
      let '(s, n) := shortest 17 1 n0 M D (S754_finite false m e) in
      let ds := JSON.N_to_string (Z.to_N s) in
      let k := Z.of_nat (String.length ds) in
      let exponent (e : Z) :=
        String.append (if (e <? 0)%Z then "e-" else "e+")
          (JSON.N_to_string (Z.abs_N e)) in
      String.append (if sg then "-" else "")
        (if ((k <=? n) && (n <=? 21))%Z then
           String.append ds (zeros (Z.to_nat (n - k)))
         else if ((0 <? n) && (n <=? 21))%Z then
           String.append (String.substring 0 (Z.to_nat n) ds)
             (String "." (substring_from (Z.to_nat n) ds))
         else if ((-6 <? n) && (n <=? 0))%Z then
           String.append "0." (String.append (zeros (Z.to_nat (- n))) ds)
         else if (k =? 1)%Z then String.append ds (exponent (n - 1)%Z)
         else
           String.append (String.substring 0 1 ds)
             (String "." (String.append (substring_from 1 ds)
                            (exponent (n - 1)%Z))))
  end.

(** [StrWhiteSpaceChar], among the code units below 256. *)
Definition str_white_space (a : ascii) : bool :=
  let c := code a in
  (((9 <=? c) && (c <=? 13)) || (c =? 32) || (c =? 160))%N.

Fixpoint trim_start (s : string) : string :=
  match s with
  | String a s' => if str_white_space a then trim_start s' else s
  | EmptyString => s
  end.

(** [true] when only white space is left. *)
Definition at_end (s : string) : bool :=
  match trim_start s with
  | EmptyString => true
  | String _ _ => false
  end.

(** A run of digits of the radix [2 ^ bits], to the end of the text. *)
Fixpoint radix_digits (bits : N) (s : string) (acc : N) (cnt : nat)
  : N * nat * string :=
  match s with
  | String a s' =>
      match JSON.hex_val a with
      | Some d =>
          if (d <? 2 ^ bits)%N
          then radix_digits bits s' (acc * 2 ^ bits + d)%N (S cnt)
          else (acc, cnt, s)
      | None => (acc, cnt, s)
      end
  | EmptyString => (acc, cnt, s)
  end.

(** [NonDecimalIntegerLiteral]: what follows [0x], [0o] or [0b]. *)
Definition non_decimal (bits : N) (s : string) : double :=
  match radix_digits bits s 0 0 with
  | (v, S _, r) => if at_end r then double_of_Z (Z.of_N v) else NaN
  | (_, O, _) => NaN
  end.

(** [ExponentPart], if there is one. *)
Definition str_exponent (s : string) : option (Z * string) :=
  match s with
  | String a s' =>
      if ((code a =? 101) || (code a =? 69))%N then
        let '(neg, s'') :=
          match s' with
          | String b t =>
              if (code b =? 45)%N then (true, t)
              else if (code b =? 43)%N then (false, t)
              else (false, s')
          | EmptyString => (false, s')
          end in
        let '(v, k, r) := JSON.read_digits s'' 0 0 in
        match k with
        | O => None
        | S _ => Some (if neg then (- Z.of_N v)%Z else Z.of_N v, r)
        end
      else Some (0%Z, s)
  | EmptyString => Some (0%Z, s)
  end.

(** [StrUnsignedDecimalLiteral], to the end of the text. *)
Definition unsigned_decimal (s : string) : double :=
  match strip "Infinity" s with
  | Some r => if at_end r then Infinity else NaN
  | None =>
      let '(ip, ki, s1) := JSON.read_digits s 0 0 in
      let '(fp, kf, s2) :=
        match s1 with
        | String a t =>
            if (code a =? 46)%N then JSON.read_digits t 0 0 else (0%N, O, s1)
        | EmptyString => (0%N, O, s1)
        end in
      match (ki + kf)%nat with
      | O => NaN
      | S _ =>
          match str_exponent s2 with
          | Some (ex, r) =>
              if at_end r then
                to_double
                  (decimal (Z.of_N ip * pow10 kf + Z.of_N fp)
                     (ex - Z.of_nat kf))
              else NaN
          | None => NaN
          end
      end
  end.

(** [StringToNumber] *)
Definition StringToNumber (str : string) : double :=
  match trim_start str with
  | EmptyString => S754_zero false
  | String a r =>
      let c := code a in
      if (c =? 45)%N then js_neg (unsigned_decimal r)
      else if (c =? 43)%N then unsigned_decimal r
      else
        match r with
        | String b t =>
            if (c =? 48)%N && ((code b =? 120) || (code b =? 88))%N
            then non_decimal 4 t
            else if (c =? 48)%N && ((code b =? 111) || (code b =? 79))%N
            then non_decimal 3 t
            else if (c =? 48)%N && ((code b =? 98) || (code b =? 66))%N
            then non_decimal 1 t
            else unsigned_decimal (String a r)
        | EmptyString => unsigned_decimal (String a r)
        end
  end.

(** [ToNumber] and [ToString] on primitive values. *)
Definition ToNumber (v : JSPrimitive) : double :=
  match v with
  | PUndefined => NaN
  | PNull => S754_zero false
  | PBool b => if b then double_of_Z 1 else S754_zero false
  | PNumber x => x
  | PString s => StringToNumber s
  end.

Definition ToString (v : JSPrimitive) : string :=
  match v with
  | PUndefined => "undefined"
  | PNull => "null"
  | PBool b => if b then "true" else "false"
  | PNumber x => NumberToString x
  | PString s => s
  end.

(** [ToString] of a value that JSON carries, as the methods [toString] of
    [Object.prototype] and [Array.prototype] give it. An object with a
    property [toString] of its own has no method to call: none of the values
    of JSON is a function. *)
Fixpoint to_string (v : JSValue) : completion string :=
  match v with
  | JNull => Normal "null"
  | JBool b => Normal (if b then "true" else "false")
  | JNum n => Normal (NumberToString (to_double n))
  | JStr s => Normal s
  | JArr l =>
      (fix join (l : list JSValue) : completion string :=
         match l with
         | [] => Normal ""
         | x :: l' =>
             let first :=
               match x with
               | JNull => Normal ""
               | _ => to_string x
               end in
             match first with
             | Throw e => Throw e
             | Normal sx =>
                 match l' with
                 | [] => Normal sx
                 | _ :: _ =>
                     match join l' with
                     | Throw e => Throw e
                     | Normal sl => Normal (String.append sx (String "," sl))
                     end
                 end
             end
         end) l
  | JObj ps =>
      match lookup_prop "toString" ps with
      | Some _ => Throw TypeError
      | None => Normal "[object Object]"
      end
  end.

(** [ToPrimitive] of what reading a property gives; [None] is [undefined]. *)
Definition ToPrimitive (v : option JSValue) : completion JSPrimitive :=
  match v with
  | None => Normal PUndefined
  | Some JNull => Normal PNull
  | Some (JBool b) => Normal (PBool b)
  | Some (JNum n) => Normal (PNumber (to_double n))
  | Some (JStr s) => Normal (PString s)
  | Some v =>
      match to_string v with
      | Normal s => Normal (PString s)
      | Throw e => Throw e
      end
  end.

(** [Math.floor] converts its argument to a number. *)
Definition Math_floor (v : JSPrimitive) : double := floor (ToNumber v).

(** The operators [-], [/], [+] and [<] on primitive values. *)
Definition js_minus (a b : JSPrimitive) : JSPrimitive :=
  PNumber (js_sub (ToNumber a) (ToNumber b)).

Definition js_divide (a b : JSPrimitive) : JSPrimitive :=
  PNumber (js_div (ToNumber a) (ToNumber b)).

Definition js_plus (a b : JSPrimitive) : JSPrimitive :=
  match a, b with
  | PString _, _ | _, PString _ => PString (String.append (ToString a) (ToString b))
  | _, _ => PNumber (js_add (ToNumber a) (ToNumber b))
  end.

Definition js_less (a b : JSPrimitive) : bool :=
  match a, b with
  | PString s, PString t => String.ltb s t
  | _, _ => js_lt (ToNumber a) (ToNumber b)
  end.

(** ** The platform's [localStorage] *)

(** The entries, whether the page may use the storage at all, and the room
    there is, counted in code units of keys and values. *)
Record Storage : Type := {
  items : gmap string string;
  enabled : bool;
  quota : nat
}.

Definition used (m : gmap string string) : nat :=
  map_fold (fun k v acc => String.length k + String.length v + acc) 0 m.

Definition getItem (k : string) (ls : Storage) : completion (option string) :=
  if enabled ls then Normal (items ls !! k) else Throw SecurityError.

Definition setItem (k v : string) (ls : Storage) : completion Storage :=
  if negb (enabled ls) then Throw SecurityError
  else if Nat.ltb (quota ls) (used (<[k := v]> (items ls))) then Throw QuotaExceededError
  else Normal {| items := <[k := v]> (items ls);
                 enabled := enabled ls;
                 quota := quota ls |}.

Definition removeItem (k : string) (ls : Storage) : completion Storage :=
  if negb (enabled ls) then Throw SecurityError
  else Normal {| items := delete k (items ls);
                 enabled := enabled ls;
                 quota := quota ls |}.

(** ** [src/store/videoStore.ts]: the playback record store *)

(** [interface VideoData] *)
Record VideoData : Type := {
  originalUrl : string;
  lastKnownVideoTime : number;
  lastKnownSystemTime : number
}.

(** The object a [VideoData] literal builds, its properties in the order of
    the literals of the sources. *)
Definition VideoData_obj (d : VideoData) : JSValue :=
  JObj [("originalUrl", JStr (originalUrl d));
        ("lastKnownVideoTime", JNum (lastKnownVideoTime d));
        ("lastKnownSystemTime", JNum (lastKnownSystemTime d))].

(** [!videoId] *)
Definition falsy_string (s : string) : bool := String.eqb s "".

(** [saveVideoData]: the [try] block, then the [catch] that logs and goes on.
    [JSON.stringify] does not throw on the values of the model. *)
Definition saveVideoData_try (videoId : string) (data : JSValue) (ls : Storage)
  : completion Storage :=
  let jsonData := JSON.stringify data in
  setItem videoId jsonData ls.

Definition saveVideoData_c (videoId : string) (data : JSValue) (ls : Storage)
  : completion Storage :=
  if falsy_string videoId then Normal ls
  else
    match saveVideoData_try videoId data ls with
    | Normal ls' => Normal ls'
    | Throw _ => Normal ls            (* console.error *)
    end.

Definition saveVideoData (videoId : string) (data : JSValue) (ls : Storage)
  : Storage :=
  match saveVideoData_c videoId data ls with
  | Normal ls' => ls'
  | Throw _ => ls
  end.

(** [getVideoData]: [JSON.parse(jsonData) as VideoData] is a cast, the value
    parsed is returned as it is. [JNull] is [null]. The [catch] takes what the
    platform throws; [OutsideModel] is not thrown by the platform, and goes
    through. *)
Definition getVideoData_try (videoId : string) (ls : Storage)
  : completion JSValue :=
  match getItem videoId ls with
  | Throw e => Throw e
  | Normal None => Normal JNull
  | Normal (Some jsonData) => JSON.parse jsonData
  end.

Definition getVideoData_c (videoId : string) (ls : Storage)
  : completion JSValue :=
  if falsy_string videoId then Normal JNull
  else
    match getVideoData_try videoId ls with
    | Normal v => Normal v
    | Throw OutsideModel => Throw OutsideModel
    | Throw _ => Normal JNull        (* console.error *)
    end.

(** The value that the caller goes on with. Where the model stops, the
    value is not known: the properties that read a stored value are stated
    of the texts that the model reads. *)
Definition getVideoData (videoId : string) (ls : Storage) : JSValue :=
  match getVideoData_c videoId ls with
  | Normal v => v
  | Throw _ => JNull
  end.

Definition clearVideoData_c (videoId : string) (ls : Storage)
  : completion Storage :=
  if falsy_string videoId then Normal ls
  else
    match removeItem videoId ls with
    | Normal ls' => Normal ls'
    | Throw _ => Normal ls            (* console.error *)
    end.

Definition clearVideoData (videoId : string) (ls : Storage) : Storage :=
  match clearVideoData_c videoId ls with
  | Normal ls' => ls'
  | Throw _ => ls
  end.

(** ** Object literals with a spread *)

(** The own enumerable properties [{...v}] copies: those of an object, the
    indexed elements of an array or of a string, none of the other values. *)
Fixpoint indexed {A : Type} (f : A -> JSValue) (i : nat) (l : list A)
  : list (string * JSValue) :=
  match l with
  | [] => []
  | x :: l' => (JSON.N_to_string (N.of_nat i), f x) :: indexed f (S i) l'
  end.

Definition own_props (v : JSValue) : list (string * JSValue) :=
  match v with
  | JObj ps => ps
  | JArr l => indexed (fun x => x) 0 l
  | JStr s => indexed (fun a => JStr (String a "")) 0 (list_ascii_of_string s)
  | _ => []
  end.

(** [{...v, k1: x1, ..., kn: xn}]: the properties are defined one after the
    other on a new object. *)
Definition spread (v : JSValue) (news : list (string * JSValue)) : JSValue :=
  JObj (set_props (own_props v ++ news) []).

(** ** The routes the pages push *)

Inductive Route : Type :=
| Home                          (* "/" *)
| HomeWithUrl (url : JSValue)   (* `/?url=${encodeURIComponent(url)}` *)
| Video (youtubeID : string).   (* `/video?youtubeID=${youtubeID}` *)

(** ** The query of a route, as the page it leads to reads it *)




(** [decodeURIComponent] *)
Definition read_escape (s : string) : option (N * string) :=
  match s with
  | String p (String h1 (String h2 r)) =>
      if (code p =? 37)%N then
        match JSON.hex_val h1, JSON.hex_val h2 with
        | Some a, Some b => Some (a * 16 + b, r)%N
        | _, _ => None
        end
      else None
  | _ => None
  end.

(** An escape of a continuation byte of UTF-8. *)
Definition read_continuation (s : string) : option (N * string) :=
  match read_escape s with
  | Some (b, r) => if ((128 <=? b) && (b <=? 191))%N then Some (b, r) else None
  | None => None
  end.

Definition put (a : ascii) (c : completion string) : completion string :=
  match c with
  | Normal s => Normal (String a s)
  | Throw e => Throw e
  end.

(** One character or one escaped code point at a time. A code point from
    256 on is outside the model. *)
Fixpoint decode (fuel : nat) (s : string) : completion string :=
  match fuel with
  | O => Normal ""
  | S f =>
      match s with
      | EmptyString => Normal ""
      | String a r =>
          if negb (code a =? 37)%N then put a (decode f r)
          else
            match read_escape s with
            | None => Throw URIError
            | Some (b, r1) =>
                if (b <? 128)%N then put (ascii_of_N b) (decode f r1)
                else if (b <? 194)%N then Throw URIError
                else if (b <? 224)%N then
                  match read_continuation r1 with
                  | Some (c1, r2) =>
                      if (b <? 196)%N
                      then put (ascii_of_N ((b - 192) * 64 + (c1 - 128)))
                             (decode f r2)
                      else Throw OutsideModel
                  | None => Throw URIError
                  end
                else if (b <? 240)%N then
                  match read_continuation r1 with
                  | Some (c1, r2) =>
                      match read_continuation r2 with
                      | Some (_, _) =>
                          if ((b =? 224) && (c1 <? 160))%N then Throw URIError
                          else if ((b =? 237) && (160 <=? c1))%N
                          then Throw URIError
                          else Throw OutsideModel
                      | None => Throw URIError
                      end
                  | None => Throw URIError
                  end
                else if (b <? 245)%N then
                  match read_continuation r1 with
                  | Some (c1, r2) =>
                      match read_continuation r2 with
                      | Some (_, r3) =>
                          match read_continuation r3 with
                          | Some (_, _) =>
                              if ((b =? 240) && (c1 <? 144))%N
                              then Throw URIError
                              else if ((b =? 244) && (144 <=? c1))%N
                              then Throw URIError
                              else Throw OutsideModel
                          | None => Throw URIError
                          end
                      | None => Throw URIError
                      end
                  | None => Throw URIError
                  end
                else Throw URIError
            end
      end
  end.

Definition decodeURIComponent (s : string) : completion string :=
  decode (String.length s) s.

(** ** [src/app/page.tsx]: the home page *)

(** The effect that fills the form in: the value of [initialUrl] after it,
    from the value before. [urlFromQuery] is [searchParams.get("url")]. *)
Definition prefillEffect (urlFromQuery : option string) (initialUrl : string)
  : completion string :=
  match urlFromQuery with
  | Some u => if falsy_string u then Normal initialUrl else decodeURIComponent u
  | None => Normal initialUrl
  end.

Inductive SaveUrlOutcome : Type :=
| ExtractionFailed
    (* console.error("Could not extract video ID from URL:", url); return *)
| Navigated (videoId : string) (ls : Storage).
    (* saveVideoData(...); router.push(Video videoId) *)

(** [now] is the value of [Date.now()]. *)
Definition handleSaveUrl (url : string) (now : Z) (ls : Storage)
  : SaveUrlOutcome :=
  let videoId := getYouTubeIdFromUrl url in
  if falsy_string videoId then ExtractionFailed
  else
    let existingVideoData := getVideoData videoId ls in
    let videoDataToSave :=
      if truthy existingVideoData then
        spread existingVideoData
          [("originalUrl", JStr url);
           ("lastKnownSystemTime", JNum (num_of_Z now))]
      else
        VideoData_obj {| originalUrl := url;
                         lastKnownVideoTime := num_zero;
                         lastKnownSystemTime := num_of_Z now |} in
    Navigated videoId (saveVideoData videoId videoDataToSave ls).

(** The form and the page together: [onSave] is [handleSaveUrl]. *)
Inductive FormOutcome : Type :=
| FormError
| FormSaved (o : SaveUrlOutcome).

Definition submit (videoUrl : string) (now : Z) (ls : Storage) : FormOutcome :=
  match handleSubmit videoUrl with
  | OnSave url => FormSaved (handleSaveUrl url now ls)
  | _ => FormError
  end.

(** ** [src/app/gif/page.tsx]: the interstitial page *)

(** [searchParams.get("youtubeID")] is a string or [null]. The result is the
    storage and the route pushed. *)
Definition handleBackToVideo (youtubeID : option string) (now : Z) (ls : Storage)
  : Storage * Route :=
  match youtubeID with
  | Some currentVideoId =>
      if falsy_string currentVideoId then (ls, Home)
      else
        let currentVideoData := getVideoData currentVideoId ls in
        let ls' :=
          if truthy currentVideoData then
            let updatedData :=
              spread currentVideoData
                [("lastKnownSystemTime", JNum (num_of_Z now))] in
            saveVideoData currentVideoId updatedData ls
          else ls in
        (ls', Video currentVideoId)
  | None => (ls, Home)
  end.

(** The other variant of the page in the sources, [GifPageContent], only
    navigates: its [handleBackToVideo] does not touch the storage. *)
Module GifPageContent.

Definition handleBackToVideo (youtubeID : option string) : Route :=
  match youtubeID with
  | Some currentVideoId =>
      if falsy_string currentVideoId then Home else Video currentVideoId
  | None => Home
  end.

End GifPageContent.

(** ** [src/app/video/page.tsx]: the playback page *)

(** The state of [VideoPageContent], one field per [useState]. *)
Record PageState : Type := {
  currentVideoId : option string;       (* string | null *)
  playerData : option JSValue;          (* VideoData | null *)
  calculatedStartTime : JSPrimitive;    (* declared a number *)
  isLoading : bool;
  currentTime : number
}.

Definition initialState : PageState :=
  {| currentVideoId := None;
     playerData := None;
     calculatedStartTime := num_zero;
     isLoading := true;
     currentTime := num_zero |}.

(** The resume time, lines 227 to 232 of the page, on the numbers that the
    interface declares:
    [elapsedSystemTimeSeconds = (Date.now() - lastKnownSystemTime) / 1000],
    [newStartTime = lastKnownVideoTime + elapsedSystemTimeSeconds], and
    [newStartTime < 0 ? 0 : newStartTime]. *)
Definition resumeTime (lastKnownVideoTime lastKnownSystemTime : double)
  (now : Z) : double :=
  let elapsedSystemTimeSeconds :=
    js_div (js_sub (double_of_Z now) lastKnownSystemTime) (double_of_Z 1000) in
  let newStartTime := js_add lastKnownVideoTime elapsedSystemTimeSeconds in
  if js_lt newStartTime (double_of_Z 0) then double_of_Z 0 else newStartTime.

Definition truthy_prop (v : JSValue) (k : string) : bool :=
  match get_prop v k with
  | Some x => truthy x
  | None => false
  end.

Inductive MountOutcome : Type :=
| RedirectHome (st : PageState)     (* router.replace(Home) *)
| Loaded (st : PageState)
| Thrown (e : JSError).             (* the effect throws *)

(** The first effect of the page; [youtubeID] is
    [searchParams.get("youtubeID")]. The value read is cast to [VideoData],
    not checked: the operators convert what the two time fields hold. *)
Definition mountEffect (youtubeID : option string) (now : Z) (ls : Storage)
  (st : PageState) : MountOutcome :=
  match youtubeID with
  | None => RedirectHome st
  | Some videoIdFromParams =>
      if falsy_string videoIdFromParams then RedirectHome st
      else
        let st1 :=
          {| currentVideoId := Some videoIdFromParams;
             playerData := playerData st;
             calculatedStartTime := calculatedStartTime st;
             isLoading := isLoading st;
             currentTime := currentTime st |} in
        let videoDetails := getVideoData videoIdFromParams ls in
        if negb (truthy_prop videoDetails "originalUrl") then RedirectHome st1
        else
          match ToPrimitive (get_prop videoDetails "lastKnownSystemTime") with
          | Throw e => Thrown e
          | Normal systemTime =>
              let elapsedSystemTimeSeconds :=
                js_divide (js_minus (PNumber (double_of_Z now)) systemTime)
                  (PNumber (double_of_Z 1000)) in
              match ToPrimitive (get_prop videoDetails "lastKnownVideoTime") with
              | Throw e => Thrown e
              | Normal videoTime =>
                  let newStartTime :=
                    js_plus videoTime elapsedSystemTimeSeconds in
                  Loaded {| currentVideoId := Some videoIdFromParams;
                            playerData := Some videoDetails;
                            calculatedStartTime :=
                              if js_less newStartTime (PNumber (double_of_Z 0))
                              then PNumber (double_of_Z 0)
                              else newStartTime;
                            isLoading := false;
                            currentTime := currentTime st |}
              end
          end
  end.

(** [playerData && currentVideoId] *)
Definition loaded (st : PageState) : option (JSValue * string) :=
  match playerData st, currentVideoId st with
  | Some pd, Some id =>
      if truthy pd && negb (falsy_string id) then Some (pd, id) else None
  | _, _ => None
  end.

(** [handleBeforeUnload], with the state of the render that created it. *)
Definition handleBeforeUnload (st : PageState) (now : Z) (ls : Storage)
  : Storage :=
  match loaded st with
  | Some (pd, id) =>
      if num_ltb num_zero (currentTime st) then
        let newData :=
          spread pd
            [("lastKnownVideoTime", JNum (currentTime st));
             ("lastKnownSystemTime", JNum (num_of_Z now))] in
        saveVideoData id newData ls
      else ls
  | None => ls
  end.

Definition handleTimeUpdate (currentTimeSeconds : number) (now : Z)
  (st : PageState) (ls : Storage) : PageState * Storage :=
  match loaded st with
  | Some (pd, id) =>
      let newData :=
        spread pd
          [("lastKnownVideoTime", JNum currentTimeSeconds);
           ("lastKnownSystemTime", JNum (num_of_Z now))] in
      ({| currentVideoId := currentVideoId st;
          playerData := Some newData;
          calculatedStartTime := calculatedStartTime st;
          isLoading := isLoading st;
          currentTime := currentTimeSeconds |},
       saveVideoData id newData ls)
  | None =>
      ({| currentVideoId := currentVideoId st;
          playerData := playerData st;
          calculatedStartTime := calculatedStartTime st;
          isLoading := isLoading st;
          currentTime := currentTimeSeconds |}, ls)
  end.

Definition handlePlayerStateChange (isPlaying : bool)
  (currentTimeSeconds : number) (now : Z) (st : PageState) (ls : Storage)
  : PageState * Storage :=
  match loaded st with
  | Some (pd, id) =>
      let newData :=
        spread pd
          [("lastKnownVideoTime", JNum currentTimeSeconds);
           ("lastKnownSystemTime", JNum (num_of_Z now))] in
      ({| currentVideoId := currentVideoId st;
          playerData := Some newData;
          calculatedStartTime := calculatedStartTime st;
          isLoading := isLoading st;
          currentTime := currentTime st |},
       saveVideoData id newData ls)
  | None => (st, ls)
  end.


(** The events of a mounted page. The second effect of the page depends on
    [playerData], [currentVideoId] and [currentTime]: when a handler has
    changed one of them, React runs the cleanup of the effect of the previous
    render, and the cleanup calls the [handleBeforeUnload] of that render;
    [flush] is the value of [Date.now()] then. A handler that finds
    [playerData] and [currentVideoId] sets a new [playerData], so that the
    cleanup runs; for a handler that does not find them, the
    [handleBeforeUnload] of the previous render does not find them either and
    writes nothing, whether it runs or not. *)
Inductive Event : Type :=
| TimeUpdate (currentTimeSeconds : number) (now flush : Z)
| StateChange (isPlaying : bool) (currentTimeSeconds : number) (now flush : Z)
| BeforeUnload (now : Z).

Definition step (e : Event) (w : PageState * Storage) : PageState * Storage :=
  let '(st, ls) := w in
  match e with
  | TimeUpdate t now flush =>
      let '(st', ls') := handleTimeUpdate t now st ls in
      (st', handleBeforeUnload st flush ls')
  | StateChange p t now flush =>
      let '(st', ls') := handlePlayerStateChange p t now st ls in
      (st', handleBeforeUnload st flush ls')
  | BeforeUnload now => (st, handleBeforeUnload st now ls)
  end.

Definition run (es : list Event) (w : PageState * Storage)
  : PageState * Storage :=
  fold_left (fun w e => step e w) es w.

(** Leaving the page: the last cleanup of the second effect. *)
Definition unmount (now : Z) (w : PageState * Storage) : Storage :=
  handleBeforeUnload (fst w) now (snd w).

(** ** [src/app/video/page.tsx]: what the page shows *)

Inductive View : Type :=
| LoadingVideo                (* <p>Loading video...</p> *)
| NoVideoData                 (* <p>No video data found or ID missing. ...</p> *)
| Player (videoId : string) (startTimeSeconds : JSPrimitive).
    (* <YouTubePlayer videoId={currentVideoId}
                      startTimeSeconds={calculatedStartTime} ... />
       and the link to [/gif?youtubeID=${currentVideoId}] *)

(** The three [return]s of [VideoPageContent], in their order. *)
Definition render (st : PageState) : View :=
  if isLoading st then LoadingVideo
  else
    match playerData st, currentVideoId st with
    | Some pd, Some id =>
        if negb (truthy pd) || falsy_string id then NoVideoData
        else Player id (calculatedStartTime st)
    | _, _ => NoVideoData
    end.

(** ** [src/components/YouTubeForm.tsx]: the state of the form *)

Module YouTubeForm.

(** The two [useState] of the component. *)
Record FormState : Type := {
  videoUrl : string;
  error : string
}.

(** [useState(initialUrl)] and [useState("")]. *)
Definition initial (initialUrl : string) : FormState :=
  {| videoUrl := initialUrl; error := "" |}.

(** What happens to the form: the effect on a new [initialUrl], the
    [onChange] of the input, and the submission. *)
Inductive FormEvent : Type :=
| InitialUrl (initialUrl : string)
| Change (value : string)
| Submit.

(** The new state, and the argument of [onSave] when it is called. *)
Definition step (e : FormEvent) (s : FormState) : FormState * option string :=
  match e with
  | InitialUrl initialUrl =>
      ({| videoUrl := initialUrl; error := error s |}, None)
  | Change value => ({| videoUrl := value; error := error s |}, None)
  | Submit =>
      match handleSubmit (videoUrl s) with
      | ErrorEmpty =>
          ({| videoUrl := videoUrl s;
              error := "Please enter a YouTube video URL." |}, None)
      | ErrorInvalid =>
          ({| videoUrl := videoUrl s;
              error := "Please enter a valid YouTube video URL." |}, None)
      | OnSave url => ({| videoUrl := videoUrl s; error := "" |}, Some url)
      end
  end.

Definition run (es : list FormEvent) (s : FormState) : FormState :=
  fold_left (fun s e => fst (step e s)) es s.

End YouTubeForm.

(** ** [src/components/YouTubePlayer.tsx]: the player component *)

Module YouTubePlayer.

(** The enumeration [YTPlayerState] and its values. *)
Inductive YTPlayerState : Type :=
| UNSTARTED
| ENDED
| PLAYING
| PAUSED
| BUFFERING
| CUED.

Definition value (s : YTPlayerState) : Z :=
  match s with
  | UNSTARTED => -1
  | ENDED => 0
  | PLAYING => 1
  | PAUSED => 2
  | BUFFERING => 3
  | CUED => 5
  end.

(** [getYouTubeId]: the component file has its own copy of the extractor,
    with its own regex literal:
    [^]  [.*]  [(youtu\.be\/|v\/|u\/\w\/|embed\/|watch\?v=|&v=)]
    [( [^#&?]* )]  [.*] *)
Definition regExp : regex :=
  RSeq RBol
    (RSeq (RStar CDot)
       (RSeq
          (RGrp 1
             (RAlt (RLit "youtu.be/")
                (RAlt (RLit "v/")
                   (RAlt (RSeq (RLit "u/") (RSeq (RChr word) (RLit "/")))
                      (RAlt (RLit "embed/")
                         (RAlt (RLit "watch?v=") (RLit "&v=")))))))
          (RSeq (RGrp 2 (RStar (CNotIn [("#", "#"); ("&", "&"); ("?", "?")]%char)))
             (RStar CDot)))).

(** [url.match(regExp)] with a regex that has no [g] flag is
    [regExp.exec(url)]. *)
Definition getYouTubeId_c (url : string) : completion string :=
  match exec regExp url with
  | Some cs =>
      match group 2 cs with
      | Some g2 => Normal (if Nat.eqb (String.length g2) 11 then g2 else "")
      | None => Throw TypeError
      end
  | None => Normal ""
  end.

(** *** [ensureYouTubeApiLoaded]

    The two variables of the module, [apiScriptLoaded] and [apiPromise], and
    what the function reads and writes of the window and of the document. *)

Inductive Promise : Type :=
| Pending
| Fulfilled
| Rejected.

(** A promise is settled once: [resolve] and [reject] do nothing later. *)
Definition resolve (p : Promise) : Promise :=
  match p with
  | Pending => Fulfilled
  | _ => p
  end.

Definition reject (p : Promise) : Promise :=
  match p with
  | Pending => Rejected
  | _ => p
  end.

Record Api : Type := {
  apiScriptLoaded : bool;
  apiPromise : option Promise;      (* null, or the promise with its state *)
  YT_Player : bool;                 (* window.YT && window.YT.Player *)
  onYouTubeIframeAPIReady : bool;   (* the callback of the module is set *)
  api_scripts : nat;                (* elements with the id "youtube-iframe-api" *)
  scripts : nat;                    (* getElementsByTagName("script").length *)
  tag_onerror : bool                (* the element the module has inserted,
                                       with its [onerror] handler *)
}.

(** What a call returns: [Promise.reject(...)], [Promise.resolve()], or the
    promise held by [apiPromise]. *)
Inductive Returned : Type :=
| Promise_reject
| Promise_resolve
| The_apiPromise.

(** [window] is [typeof window !== "undefined"]. The executor of
    [new Promise] runs at once; an exception in it rejects the promise, and
    [getElementsByTagName("script")[0].parentNode] throws when the document
    has no script element. *)
Definition ensureYouTubeApiLoaded (window : bool) (s : Api) : Api * Returned :=
  if negb window then (s, Promise_reject)
  else if apiScriptLoaded s && YT_Player s then (s, Promise_resolve)
  else
    match apiPromise s with
    | Some _ => (s, The_apiPromise)
    | None =>
        if YT_Player s then
          ({| apiScriptLoaded := true;
              apiPromise := Some (resolve Pending);
              YT_Player := YT_Player s;
              onYouTubeIframeAPIReady := onYouTubeIframeAPIReady s;
              api_scripts := api_scripts s;
              scripts := scripts s;
              tag_onerror := tag_onerror s |}, The_apiPromise)
        else if Nat.eqb (api_scripts s) 0 then
          match scripts s with
          | O =>
              ({| apiScriptLoaded := apiScriptLoaded s;
                  apiPromise := Some (reject Pending);
                  YT_Player := YT_Player s;
                  onYouTubeIframeAPIReady := true;
                  api_scripts := api_scripts s;
                  scripts := scripts s;
                  tag_onerror := tag_onerror s |}, The_apiPromise)
          | S _ =>
              ({| apiScriptLoaded := apiScriptLoaded s;
                  apiPromise := Some Pending;
                  YT_Player := YT_Player s;
                  onYouTubeIframeAPIReady := true;
                  api_scripts := S (api_scripts s);
                  scripts := S (scripts s);
                  tag_onerror := true |}, The_apiPromise)
          end
        else if YT_Player s then
          ({| apiScriptLoaded := true;
              apiPromise := Some (resolve Pending);
              YT_Player := YT_Player s;
              onYouTubeIframeAPIReady := true;
              api_scripts := api_scripts s;
              scripts := scripts s;
              tag_onerror := tag_onerror s |}, The_apiPromise)
        else
          ({| apiScriptLoaded := apiScriptLoaded s;
              apiPromise := Some Pending;
              YT_Player := YT_Player s;
              onYouTubeIframeAPIReady := true;
              api_scripts := api_scripts s;
              scripts := scripts s;
              tag_onerror := tag_onerror s |}, The_apiPromise)
    end.

(** What happens to the module between the calls: the script of the API has
    run (it defines [window.YT.Player] and calls
    [window.onYouTubeIframeAPIReady], which is
    [() => { apiScriptLoaded = true; resolve(); }] when the module has set
    it), or the element inserted has failed to load (its [onerror] is
    [() => reject(...)]). *)
Inductive ApiEvent : Type :=
| Call (window : bool)
| IframeApiReady
| ScriptError.

Definition api_step (e : ApiEvent) (s : Api) : Api :=
  match e with
  | Call window => fst (ensureYouTubeApiLoaded window s)
  | IframeApiReady =>
      if onYouTubeIframeAPIReady s then
        {| apiScriptLoaded := true;
           apiPromise := option_map resolve (apiPromise s);
           YT_Player := true;
           onYouTubeIframeAPIReady := onYouTubeIframeAPIReady s;
           api_scripts := api_scripts s;
           scripts := scripts s;
           tag_onerror := tag_onerror s |}
      else
        {| apiScriptLoaded := apiScriptLoaded s;
           apiPromise := apiPromise s;
           YT_Player := true;
           onYouTubeIframeAPIReady := onYouTubeIframeAPIReady s;
           api_scripts := api_scripts s;
           scripts := scripts s;
           tag_onerror := tag_onerror s |}
  | ScriptError =>
      if tag_onerror s then
        {| apiScriptLoaded := apiScriptLoaded s;
           apiPromise := option_map reject (apiPromise s);
           YT_Player := YT_Player s;
           onYouTubeIframeAPIReady := onYouTubeIframeAPIReady s;
           api_scripts := api_scripts s;
           scripts := scripts s;
           tag_onerror := tag_onerror s |}
      else s
  end.

Definition api_run (es : list ApiEvent) (s : Api) : Api :=
  fold_left (fun s e => api_step e s) es s.

(** The module when it is loaded, in a document with [n] script elements of
    which [k] have the id of the API script. *)
Definition api_init (yt : bool) (k n : nat) : Api :=
  {| apiScriptLoaded := false;
     apiPromise := None;
     YT_Player := yt;
     onYouTubeIframeAPIReady := false;
     api_scripts := k;
     scripts := n;
     tag_onerror := false |}.

(** *** The component

    The props that are data; the three callbacks of the props are what the
    component calls, and the calls are the output of the model. *)
Record Props : Type := {
  videoId : string;
  startTimeSeconds : JSPrimitive           (* declared a number *)
}.

Inductive Action : Type :=
| onTimeUpdate (currentTimeSeconds : number)
| onPlayerStateChange (isPlaying : bool) (currentTimeSeconds : number)
| new_Player (videoId : string) (start : double)
    (* new window.YT.Player(div, { videoId, playerVars: { start, ... }, events }) *)
| pauseVideo
| seekTo (seconds : JSPrimitive) (allowSeekAhead : bool)
| playVideo
| ensureApi.
    (* ensureYouTubeApiLoaded().then(() => setIsApiReady(true)).catch(...) *)

(** The refs and the state of the component, and the intervals of the
    window. [setInterval] returns a positive integer, which is truthy. *)
Record Comp : Type := {
  playerInstanceRef : option nat;          (* the player, by its number *)
  playerDivContainerRef : bool;            (* the div is rendered *)
  timeUpdateIntervalRef : option positive;
  isApiReady : bool;
  intervals : list positive;               (* the intervals that are set *)
  next_interval : positive;                (* what [setInterval] returns next *)
  players : nat                            (* players constructed so far *)
}.

Definition clearTimeUpdateInterval (c : Comp) : Comp :=
  match timeUpdateIntervalRef c with
  | Some id =>
      {| playerInstanceRef := playerInstanceRef c;
         playerDivContainerRef := playerDivContainerRef c;
         timeUpdateIntervalRef := None;
         isApiReady := isApiReady c;
         intervals := List.filter (fun j => negb (Pos.eqb j id)) (intervals c);
         next_interval := next_interval c;
         players := players c |}
  | None => c
  end.

Definition setupTimeUpdateInterval (c : Comp) : Comp :=
  let c1 := clearTimeUpdateInterval c in
  {| playerInstanceRef := playerInstanceRef c1;
     playerDivContainerRef := playerDivContainerRef c1;
     timeUpdateIntervalRef := Some (next_interval c1);
     isApiReady := isApiReady c1;
     intervals := next_interval c1 :: intervals c1;
     next_interval := Pos.succ (next_interval c1);
     players := players c1 |}.

(** The callback of the interval [id], when the interval is set. [time] is
    [playerInstanceRef.current.getCurrentTime()], [None] when the player has
    no such function. *)
Definition tick (id : positive) (time : option number) (c : Comp)
  : list Action :=
  if existsb (Pos.eqb id) (intervals c) then
    match playerInstanceRef c, time with
    | Some _, Some currentTime => [onTimeUpdate currentTime]
    | _, _ => []
    end
  else [].

Definition initializePlayer (p : Props) (c : Comp) : Comp * list Action :=
  if negb (isApiReady c) || falsy_string (videoId p)
     || negb (playerDivContainerRef c)
     || match playerInstanceRef c with Some _ => true | None => false end
  then (c, [])
  else
    ({| playerInstanceRef := Some (players c);
        playerDivContainerRef := playerDivContainerRef c;
        timeUpdateIntervalRef := timeUpdateIntervalRef c;
        isApiReady := isApiReady c;
        intervals := intervals c;
        next_interval := next_interval c;
        players := S (players c) |},
     [new_Player (videoId p) (Math_floor (startTimeSeconds p))]).

Definition onReady (p : Props) : list Action :=
  [pauseVideo; seekTo (startTimeSeconds p) true; playVideo].

(** [time] is [event.target.getCurrentTime()], [None] for [undefined] or
    [null]; [data] is [event.data]. *)
Definition onStateChange (data : Z) (time : option number) (c : Comp)
  : Comp * list Action :=
  let currentTime := match time with Some t => t | None => num_zero end in
  if (data =? value PLAYING)%Z then
    (setupTimeUpdateInterval c, [onPlayerStateChange true currentTime])
  else if (data =? value PAUSED)%Z || (data =? value ENDED)%Z then
    (clearTimeUpdateInterval c, [onPlayerStateChange false currentTime])
  else (c, []).

(** The body of the first effect, and its cleanup; [hasDestroy] is
    [typeof playerInstanceRef.current.destroy === "function"]. *)
Definition effect (p : Props) (c : Comp) : Comp * list Action :=
  let '(c', out) := initializePlayer p c in (c', ensureApi :: out).

Definition cleanup (hasDestroy : bool) (c : Comp) : Comp :=
  let c1 := clearTimeUpdateInterval c in
  match playerInstanceRef c1 with
  | Some _ =>
      if hasDestroy then
        {| playerInstanceRef := None;
           playerDivContainerRef := playerDivContainerRef c1;
           timeUpdateIntervalRef := timeUpdateIntervalRef c1;
           isApiReady := isApiReady c1;
           intervals := intervals c1;
           next_interval := next_interval c1;
           players := players c1 |}
      else c1
  | None => c1
  end.

(** The component before its first effect: the div is rendered when
    [videoId] is not empty. *)
Definition rendered (p : Props) : Comp :=
  {| playerInstanceRef := None;
     playerDivContainerRef := negb (falsy_string (videoId p));
     timeUpdateIntervalRef := None;
     isApiReady := false;
     intervals := [];
     next_interval := 1%positive;
     players := 0 |}.

(** What happens to a mounted component. The first effect runs again when
    one of its dependencies has changed, the callbacks of the parent among
    them: its cleanup, then its body. [ApiReady] is the resolution of the
    promise, [setIsApiReady(true)], which changes the state (and with it a
    dependency of the effect) when the state was [false]. On unmount the
    cleanups of the two effects run. The model does not tell the callbacks
    of one render of the parent from those of another. *)
Inductive Event : Type :=
| Rerun (hasDestroy : bool)
| ApiReady (hasDestroy : bool)
| Ready
| StateChange (data : Z) (time : option number)
| Tick (id : positive) (time : option number)
| Unmount (hasDestroy : bool).

Definition set_isApiReady (c : Comp) : Comp :=
  {| playerInstanceRef := playerInstanceRef c;
     playerDivContainerRef := playerDivContainerRef c;
     timeUpdateIntervalRef := timeUpdateIntervalRef c;
     isApiReady := true;
     intervals := intervals c;
     next_interval := next_interval c;
     players := players c |}.

Definition step (p : Props) (e : Event) (c : Comp) : Comp * list Action :=
  match e with
  | Rerun hasDestroy => effect p (cleanup hasDestroy c)
  | ApiReady hasDestroy =>
      if isApiReady c then (c, [])
      else effect p (cleanup hasDestroy (set_isApiReady c))
  | Ready => (c, onReady p)
  | StateChange data time => onStateChange data time c
  | Tick id time => (c, tick id time c)
  | Unmount hasDestroy => (clearTimeUpdateInterval (cleanup hasDestroy c), [])
  end.

(** The component after the events, and everything it has called. *)
Fixpoint run (p : Props) (es : list Event) (w : Comp * list Action)
  : Comp * list Action :=
  match es with
  | [] => w
  | e :: es' =>
      let '(c', out) := step p e (fst w) in
      run p es' (c', (snd w ++ out)%list)
  end.

Definition mount (p : Props) : Comp * list Action := effect p (rendered p).

End YouTubePlayer.

(** ** The vocabulary of the properties *)

(** *** What a regex matches, without the order of the attempts

    [matches r pos s1 s2]: at index [pos], with [s2] after it, [r] can match
    [s1]. *)
Fixpoint matches (r : regex) (pos : nat) (s1 s2 : string) : Prop :=
  match r with
  | RBol => s1 = "" /\ pos = 0
  | REol => s1 = "" /\ s2 = ""
  | RLit l => s1 = l
  | RChr c => exists a, s1 = String a "" /\ cmatch c a = true
  | RSeq r1 r2 =>
      exists a b, s1 = String.append a b
                  /\ matches r1 pos a (String.append b s2)
                  /\ matches r2 (pos + String.length a) b s2
  | RAlt r1 r2 => matches r1 pos s1 s2 \/ matches r2 pos s1 s2
  | ROpt r1 => s1 = "" \/ matches r1 pos s1 s2
  | RStar c => forallb (cmatch c) (list_ascii_of_string s1) = true
  | RRep n c =>
      String.length s1 = n /\ forallb (cmatch c) (list_ascii_of_string s1) = true
  | RGrp _ r1 => matches r1 pos s1 s2
  end.

(** [span c s]: the longest prefix of [s] made of characters of [c]. *)
Fixpoint span (c : cclass) (s : string) : string :=
  match s with
  | String a s' => if cmatch c a then String a (span c s') else ""
  | EmptyString => ""
  end.

(** *** The recognized positions of [regExp] *)

(** The six markers of the first group. *)
Definition is_marker (mk : string) : Prop :=
  mk = "youtu.be/" \/ mk = "v/"
  \/ (exists a, cmatch word a = true /\ mk = String "u" (String "/" (String a "/")))
  \/ mk = "embed/" \/ mk = "watch?v=" \/ mk = "&v=".

Definition all_of (c : cclass) (s : string) : Prop :=
  forallb (cmatch c) (list_ascii_of_string s) = true.

(** [s] is over at once, or goes on with a character that ends a token. *)
Definition ends_token (s : string) : Prop :=
  match s with
  | EmptyString => True
  | String a _ => cmatch token_class a = false
  end.

(** [url] holds [tok] right after a marker, and [tok] is the whole run of
    token characters there. *)
Definition token_at (url tok : string) : Prop :=
  exists pre mk post,
    url = String.append pre (String.append mk (String.append tok post))
    /\ is_marker mk /\ all_of token_class tok /\ ends_token post.

(** [marker_at s pre mk r]: the marker [mk] stands in [s] after [pre], on
    the first line, and [r] follows it. *)
Definition marker_at (s pre mk r : string) : Prop :=
  s = String.append pre (String.append mk r) /\ all_of CDot pre /\ is_marker mk.

(** No marker starts later on the first line. *)
Definition last_on_line (s pre : string) : Prop :=
  forall pre' mk' r',
    marker_at s pre' mk' r' -> String.length pre' <= String.length pre.

(** [url] holds [tok] right after the last marker of its first line. *)
Definition last_token_at (url tok : string) : Prop :=
  exists pre mk post,
    marker_at url pre mk (String.append tok post)
    /\ last_on_line url pre
    /\ all_of token_class tok /\ ends_token post.

(** What follows the marker at the head of [s]; the alternatives in the order
    of the regex. *)
Definition strip_marker (s : string) : option string :=
  match strip "youtu.be/" s with
  | Some r => Some r
  | None =>
      match strip "v/" s with
      | Some r => Some r
      | None =>
          match
            match strip "u/" s with
            | Some (String a r) => if cmatch word a then strip "/" r else None
            | _ => None
            end
          with
          | Some r => Some r
          | None =>
              match strip "embed/" s with
              | Some r => Some r
              | None =>
                  match strip "watch?v=" s with
                  | Some r => Some r
                  | None => strip "&v=" s
                  end
              end
          end
      end
  end.

(** What follows the last marker of the first line of [s]. *)
Fixpoint last_marker (s : string) : option string :=
  match s with
  | String a s' =>
      if cmatch CDot a then
        match last_marker s' with
        | Some r => Some r
        | None => strip_marker s
        end
      else strip_marker s
  | EmptyString => strip_marker s
  end.

(** *** The strings the form accepts *)

(** What [YOUTUBE_URL_REGEX] lets stand before the identifier: an optional
    scheme, an optional [www.], and one of the two hosts. *)
Definition form_heads : list string :=
  flat_map
    (fun scheme =>
       flat_map
         (fun www =>
            map (fun host => String.append scheme (String.append www host))
              ["youtube.com/watch?v="; "youtu.be/"])
         [""; "www."])
    [""; "http://"; "https://"].

(** *** Texts of numbers *)

(** What may follow the text of a number: the end, or a character that
    cannot go on with it. *)
Definition number_end (s : string) : Prop :=
  match s with
  | EmptyString => True
  | String a _ =>
      JSON.is_digit a = false
      /\ (code a =? 46)%N = false
      /\ (code a =? 101)%N = false
      /\ (code a =? 69)%N = false
  end.

(** The text of the decimal [a / 10^k] without a sign. *)
Definition unsigned_text (a : N) (k : nat) : string :=
  String.append (JSON.N_to_string (a / 10 ^ N.of_nat k))
    match k with
    | O => ""
    | S _ => String "." (JSON.frac_digits k (a mod 10 ^ N.of_nat k) "")
    end.

(** *** Records and storage *)

(** A record whose two numbers are values of the model, in their canonical
    writing. *)
Definition valid_record (d : VideoData) : Prop :=
  canonical (lastKnownVideoTime d) /\ canonical (lastKnownSystemTime d).

(** The storage is available for writing [v] under [k]: the page may use it,
    and there is room for the entry. *)
Definition accepts (ls : Storage) (k v : string) : Prop :=
  enabled ls = true /\ used (<[k := v]> (items ls)) <= quota ls.

(** The storage after a successful [setItem]. *)
Definition stored (k v : string) (ls : Storage) : Storage :=
  {| items := <[k := v]> (items ls); enabled := enabled ls; quota := quota ls |}.

(** The storage can be read and holds, under [k], the text of the record
    [d]. *)
Definition stores (ls : Storage) (k : string) (d : VideoData) : Prop :=
  enabled ls = true
  /\ items ls !! k = Some (JSON.stringify (VideoData_obj d))
  /\ valid_record d.

(** A value that has the three properties of a [VideoData], with values of
    the types of the interface. *)
Definition record_shaped (v : JSValue) : Prop :=
  match get_prop v "originalUrl", get_prop v "lastKnownVideoTime",
        get_prop v "lastKnownSystemTime" with
  | Some (JStr _), Some (JNum _), Some (JNum _) => True
  | _, _, _ => False
  end.

(** A stored text is corrupt when it is not the text of such a value:
    [JSON.parse] throws on it, or gives a value of another shape. *)
Definition corrupt (text : string) : Prop :=
  match JSON.parse text with
  | Normal v => ~ record_shaped v
  | Throw SyntaxError => True
  | Throw _ => False
  end.

(** *** The playback page *)

(** Modelled from the spec: [resumeTime = max(0, T + elapsed)] with
    [elapsed = (N - S) / 1000], in the exact arithmetic of the decimals. *)
Definition spec_resumeTime (T S : number) (N : Z) : number :=
  let elapsed := num_div1000 (num_sub (num_of_Z N) S) in
  let sum := num_add T elapsed in
  if num_ltb sum num_zero then num_zero else sum.

(** The page shows the record [d] of the video [id]. *)
Definition mounted (st : PageState) (id : string) (d : VideoData) : Prop :=
  playerData st = Some (VideoData_obj d)
  /\ currentVideoId st = Some id
  /\ id <> "".

(** The time of the last periodic report ([onTimeUpdate]) among the events,
    [t0] when there is none. *)
Fixpoint last_report (es : list Event) (t0 : number) : number :=
  match es with
  | [] => t0
  | TimeUpdate t _ _ :: es' => last_report es' t
  | _ :: es' => last_report es' t0
  end.


Definition with_times (t : number) (now : Z) (d : VideoData) : VideoData :=
  {| originalUrl := originalUrl d;
     lastKnownVideoTime := t;
     lastKnownSystemTime := num_of_Z now |}.


Definition new_record (url : string) (now : Z) : VideoData :=
  {| originalUrl := url;
     lastKnownVideoTime := num_zero;
     lastKnownSystemTime := num_of_Z now |}.

(** *** Writes *)

(** [ls'] is [ls] but for the entry of [k]: the other entries and the
    settings of the storage are the same. *)
Definition only_entry (k : string) (ls ls' : Storage) : Prop :=
  enabled ls' = enabled ls /\ quota ls' = quota ls
  /\ forall k' : string, k' <> k -> items ls' !! k' = items ls !! k'.

(** The record with its two numbers in their canonical writing. *)
Definition norm_record (d : VideoData) : VideoData :=
  {| originalUrl := originalUrl d;
     lastKnownVideoTime :=
       normalize (mant (lastKnownVideoTime d)) (scale (lastKnownVideoTime d));
     lastKnownSystemTime :=
       normalize (mant (lastKnownSystemTime d)) (scale (lastKnownSystemTime d)) |}.

(** *** What the application writes *)

(** A record as the application writes it under [k]: its URL is not empty,
    and the extractor returns [k] for it. *)
Definition app_record (k : string) (d : VideoData) : Prop :=
  originalUrl d <> "" /\ getYouTubeIdFromUrl (originalUrl d) = k.

(** Every entry of the storage is the text of such a record. *)
Definition app_written (ls : Storage) : Prop :=
  forall (k text : string),
    items ls !! k = Some text ->
    exists d, text = JSON.stringify (VideoData_obj d) /\ app_record k d.

(** The page holds no record, or such a record under its identifier. *)
Definition page_ok (st : PageState) : Prop :=
  forall pd : JSValue,
    playerData st = Some pd ->
    exists id d,
      currentVideoId st = Some id /\ pd = VideoData_obj d /\ app_record id d.

(** *** The player component *)

(** The intervals that are set are those the ref holds: one, or none. *)
Definition tidy (c : YouTubePlayer.Comp) : Prop :=
  YouTubePlayer.intervals c
  = match YouTubePlayer.timeUpdateIntervalRef c with
    | Some id => [id]
    | None => []
    end.

Definition is_new_Player (a : YouTubePlayer.Action) : bool :=
  match a with
  | YouTubePlayer.new_Player _ _ => true
  | _ => false
  end.

(** The events whose cleanup empties the ref of the player. *)
Definition releases (e : YouTubePlayer.Event) : bool :=
  match e with
  | YouTubePlayer.Rerun true => true
  | YouTubePlayer.Unmount true => true
  | _ => false
  end.

(** *** The loader of the API *)

(** What holds of the module of the loader at any time, in a document that
    had [n] script elements, [k] of them with the id of the API script, when
    the module was loaded. *)
Definition api_ok (k n : nat) (s : YouTubePlayer.Api) : Prop :=
  (YouTubePlayer.apiScriptLoaded s = true -> YouTubePlayer.YT_Player s = true)
  /\ (YouTubePlayer.apiPromise s = Some YouTubePlayer.Fulfilled ->
      YouTubePlayer.apiScriptLoaded s = true)
  /\ (YouTubePlayer.apiPromise s = Some YouTubePlayer.Pending ->
      YouTubePlayer.onYouTubeIframeAPIReady s = true)
  /\ (YouTubePlayer.apiPromise s = None ->
      YouTubePlayer.onYouTubeIframeAPIReady s = false
      /\ YouTubePlayer.tag_onerror s = false
      /\ YouTubePlayer.apiScriptLoaded s = false)
  /\ k <= YouTubePlayer.api_scripts s <= Nat.max 1 k
  /\ YouTubePlayer.scripts s + k = n + YouTubePlayer.api_scripts s.

Definition is_ScriptError (e : YouTubePlayer.ApiEvent) : bool :=
  match e with
  | YouTubePlayer.ScriptError => true
  | _ => false
  end.

Definition is_IframeApiReady (e : YouTubePlayer.ApiEvent) : bool :=
  match e with
  | YouTubePlayer.IframeApiReady => true
  | _ => false
  end.

(** The construction of players: no player before the API is ready, and,
    with [n] the number of events so far that have emptied the ref, at most
    [n] players when the ref is empty and [n + 1] in any case. *)
Definition player_inv (c : YouTubePlayer.Comp) (n : nat) : Prop :=
  (YouTubePlayer.isApiReady c = false -> YouTubePlayer.playerInstanceRef c = None)
  /\ (YouTubePlayer.playerInstanceRef c = None -> YouTubePlayer.players c <= n)
  /\ YouTubePlayer.players c <= S n.

(** The calls [out] of a step from [c] to [c']: the players constructed are
    counted, and each is constructed with the identifier of the props and
    the floor of their start time, the API ready. *)
Definition player_out (p : YouTubePlayer.Props) (c : YouTubePlayer.Comp)
  (out : list YouTubePlayer.Action) (c' : YouTubePlayer.Comp) : Prop :=
  YouTubePlayer.players c'
  = YouTubePlayer.players c + List.length (List.filter is_new_Player out)
  /\ (YouTubePlayer.isApiReady c = true -> YouTubePlayer.isApiReady c' = true)
  /\ forall a,
       In a out -> is_new_Player a = true ->
       a = YouTubePlayer.new_Player (YouTubePlayer.videoId p)
             (Math_floor (YouTubePlayer.startTimeSeconds p))
       /\ YouTubePlayer.videoId p <> ""
       /\ YouTubePlayer.isApiReady c' = true.

(** *** The form *)

Definition is_Submit (e : YouTubeForm.FormEvent) : bool :=
  match e with
  | YouTubeForm.Submit => true
  | _ => false
  end.

(** *** A record, a storage that holds it and a page that shows it

    The record of a video left at 45 seconds when the clock was at 1000; the
    page shows it and has had a periodic report at 30 seconds. *)
Definition sample_record : VideoData :=
  {| originalUrl := "https://youtu.be/dQw4w9WgXcQ";
     lastKnownVideoTime := Num 45 0;
     lastKnownSystemTime := Num 1000 0 |}.

Definition sample_storage : Storage :=
  {| items := {[ "dQw4w9WgXcQ" := JSON.stringify (VideoData_obj sample_record) ]};
     enabled := true;
     quota := 5000 |}.


(** *** Texts that the model reads

    The model holds the value of every text of the storage: none has an
    escape of a code unit from 256 on. *)
Definition readable (ls : Storage) : Prop :=
  forall k text : string,
    items ls !! k = Some text -> JSON.parse text <> Throw OutsideModel.

(** *** Strings without a percent sign *)
Definition plain (s : string) : Prop :=
  forallb (fun a => negb (code a =? 37)%N) (list_ascii_of_string s) = true.

(** * Properties *)

(** ** Numbers as rationals *)

Section Numbers.

Local Open Scope Z_scope.

Lemma pow10_pos (k : nat) : 0 < pow10 k.
Proof. unfold pow10. apply Z.pow_pos_nonneg; lia. Qed.

Lemma pow10_add (a b : nat) : pow10 (a + b) = pow10 a * pow10 b.
Proof. unfold pow10. rewrite Nat2Z.inj_add, Z.pow_add_r; lia. Qed.

Lemma pow10_split (a k : nat) : (a <= k)%nat -> pow10 k = pow10 a * pow10 (k - a).
Proof. intros H. rewrite <- pow10_add. f_equal. lia. Qed.

Lemma den_pow10 (k : nat) : Z.pos (Z.to_pos (pow10 k)) = pow10 k.
Proof. apply Z2Pos.id, pow10_pos. Qed.

Lemma num_Q_of_Z (z : Z) : (num_Q (num_of_Z z) == inject_Z z)%Q.
Proof. reflexivity. Qed.

Lemma num_Q_add (x y : number) : (num_Q (num_add x y) == num_Q x + num_Q y)%Q.
Proof.
  destruct x as [m1 k1], y as [m2 k2].
  unfold num_add, num_Q, Qeq, Qplus; cbn [mant scale Qnum Qden].
  rewrite Pos2Z.inj_mul, !den_pow10.
  set (k := Nat.max k1 k2).
  assert (H1 := pow10_split k1 k ltac:(lia)).
  assert (H2 := pow10_split k2 k ltac:(lia)).
  replace ((m1 * pow10 (k - k1) + m2 * pow10 (k - k2)) * (pow10 k1 * pow10 k2))
    with (m1 * pow10 k2 * (pow10 k1 * pow10 (k - k1))
          + m2 * pow10 k1 * (pow10 k2 * pow10 (k - k2))) by ring.
  rewrite <- H1, <- H2. ring.
Qed.

Lemma num_Q_sub (x y : number) : (num_Q (num_sub x y) == num_Q x - num_Q y)%Q.
Proof.
  destruct x as [m1 k1], y as [m2 k2].
  unfold num_sub, num_Q, Qeq, Qminus, Qplus, Qopp; cbn [mant scale Qnum Qden].
  rewrite Pos2Z.inj_mul, !den_pow10.
  set (k := Nat.max k1 k2).
  assert (H1 := pow10_split k1 k ltac:(lia)).
  assert (H2 := pow10_split k2 k ltac:(lia)).
  replace ((m1 * pow10 (k - k1) - m2 * pow10 (k - k2)) * (pow10 k1 * pow10 k2))
    with (m1 * pow10 k2 * (pow10 k1 * pow10 (k - k1))
          - m2 * pow10 k1 * (pow10 k2 * pow10 (k - k2))) by ring.
  rewrite <- H1, <- H2. ring.
Qed.

Lemma num_Q_div1000 (x : number) : (num_Q (num_div1000 x) == num_Q x / 1000)%Q.
Proof.
  destruct x as [m k].
  unfold num_div1000, num_Q, Qeq, Qdiv, Qmult, Qinv; cbn [mant scale Qnum Qden].
  rewrite Pos2Z.inj_mul, !den_pow10, pow10_add.
  change (pow10 3) with 1000. change (Z.pos 1000) with 1000. ring.
Qed.

Lemma num_ltb_Q (x y : number) : num_ltb x y = true <-> (num_Q x < num_Q y)%Q.
Proof.
  destruct x as [m1 k1], y as [m2 k2].
  unfold num_ltb, num_Q, Qlt; cbn [mant scale Qnum Qden].
  rewrite !den_pow10. apply Z.ltb_lt.
Qed.

Lemma num_ltb_Q_false (x y : number) :
  num_ltb x y = false <-> (num_Q y <= num_Q x)%Q.
Proof.
  rewrite <- Bool.not_true_iff_false, num_ltb_Q. split.
  - apply Qnot_lt_le.
  - intros H H'. exact (Qlt_not_le _ _ H' H).
Qed.

(** The formula of the specification, read in the rationals. *)
Lemma spec_resumeTime_Q (T S : number) (N : Z) :
  (num_Q (spec_resumeTime T S N)
   == Qmax 0 (num_Q T + (inject_Z N - num_Q S) / 1000))%Q.
Proof.
  unfold spec_resumeTime.
  set (x := num_add T (num_div1000 (num_sub (num_of_Z N) S))).
  assert (Hx : (num_Q x == num_Q T + (inject_Z N - num_Q S) / 1000)%Q).
  { unfold x. rewrite num_Q_add, num_Q_div1000, num_Q_sub, num_Q_of_Z.
    reflexivity. }
  rewrite <- Hx.
  destruct (num_ltb x num_zero) eqn:E.
  - apply num_ltb_Q in E. change (num_Q num_zero) with 0%Q in *.
    symmetry. apply Q.max_l. apply Qlt_le_weak, E.
  - apply num_ltb_Q_false in E. change (num_Q num_zero) with 0%Q in *.
    symmetry. apply Q.max_r, E.
Qed.


End Numbers.

(** ** Strings *)

Section Strings.

Lemma append_nil_r (s : string) : String.append s "" = s.
Proof. induction s as [|a s IH]; simpl; [reflexivity | now rewrite IH]. Qed.

Lemma append_assoc (a b c : string) :
  String.append (String.append a b) c = String.append a (String.append b c).
Proof. induction a as [|x a IH]; simpl; [reflexivity | now rewrite IH]. Qed.

Lemma length_append (a b : string) :
  String.length (String.append a b) = String.length a + String.length b.
Proof. induction a as [|x a IH]; simpl; [reflexivity | now rewrite IH]. Qed.

Lemma append_inv_head (a b c : string) :
  String.append a b = String.append a c -> b = c.
Proof. induction a as [|x a IH]; simpl; [auto | intros [= H]; auto]. Qed.

Lemma substring_prefix (a b : string) :
  substring 0 (String.length a) (String.append a b) = a.
Proof. induction a as [|x a IH]; simpl; [now destruct b | now rewrite IH]. Qed.

Lemma all_of_append (c : cclass) (a b : string) :
  all_of c (String.append a b) <-> all_of c a /\ all_of c b.
Proof.
  unfold all_of. induction a as [|x a IH]; simpl.
  - intuition.
  - rewrite !Bool.andb_true_iff, IH. intuition.
Qed.

Lemma all_of_cons (c : cclass) (x : ascii) (a : string) :
  all_of c (String x a) <-> cmatch c x = true /\ all_of c a.
Proof. unfold all_of. simpl. apply Bool.andb_true_iff. Qed.

Lemma strip_sound (l s r : string) : strip l s = Some r -> s = String.append l r.
Proof.
  revert s. induction l as [|x l IH]; intros s; simpl.
  - now intros [= ->].
  - destruct s as [|a s]; [discriminate|].
    destruct (Ascii.eqb_spec x a) as [->|]; [|discriminate].
    intros H. now rewrite (IH _ H).
Qed.

Lemma strip_append (l r : string) : strip l (String.append l r) = Some r.
Proof.
  induction l as [|x l IH]; simpl; [reflexivity|].
  now rewrite Ascii.eqb_refl.
Qed.

Lemma span_append (c : cclass) (s : string) :
  exists r, s = String.append (span c s) r
            /\ match r with
               | EmptyString => True
               | String a _ => cmatch c a = false
               end.
Proof.
  induction s as [|a s [r [IH1 IH2]]]; simpl.
  - now exists "".
  - destruct (cmatch c a) eqn:E.
    + exists r. simpl. split; [now rewrite <- IH1 | exact IH2].
    + exists (String a s). now split.
Qed.

Lemma span_all (c : cclass) (s : string) : all_of c (span c s).
Proof.
  unfold all_of. induction s as [|a s IH]; simpl; [reflexivity|].
  destruct (cmatch c a) eqn:E; simpl; [now rewrite E | reflexivity].
Qed.

(** A run of [c], followed by the end or by a character out of [c], is the
    span. *)
Lemma span_unique (c : cclass) (t r : string) :
  all_of c t ->
  match r with
  | EmptyString => True
  | String a _ => cmatch c a = false
  end ->
  span c (String.append t r) = t.
Proof.
  intros Ht Hr. induction t as [|x t IH]; simpl.
  - destruct r as [|a r]; simpl; [reflexivity | now rewrite Hr].
  - apply all_of_cons in Ht as [-> Ht]. now rewrite IH.
Qed.

End Strings.

(** ** The matcher *)

Section Matcher.

Lemma lit_strip (l : string) (pos : nat) (s : string) (cs : caps) (k : cont) :
  lit l pos s cs k
  = match strip l s with
    | Some r => k (pos + String.length l) r cs
    | None => None
    end.
Proof.
  revert pos s. induction l as [|x l IH]; intros pos s; simpl.
  - now rewrite Nat.add_0_r.
  - destruct s as [|a s]; [reflexivity|].
    destruct (Ascii.eqb x a); [|reflexivity].
    rewrite IH. now rewrite Nat.add_succ_r.
Qed.

(** When the continuation accepts the longest run, [star] returns what it
    returns there. *)
Lemma star_longest (c : cclass) (pos : nat) (s : string) (cs : caps) (k : cont) :
  (forall r, s = String.append (span c s) r ->
             k (pos + String.length (span c s)) r cs <> None) ->
  forall r, s = String.append (span c s) r ->
            star c pos s cs k = k (pos + String.length (span c s)) r cs.
Proof.
  revert pos. induction s as [|a s IH]; intros pos Hk r Hr; simpl in *.
  - subst r. now rewrite Nat.add_0_r.
  - destruct (cmatch c a) eqn:E; simpl in *.
    + injection Hr as Hr.
      assert (Hk' : forall r0, s = String.append (span c s) r0 ->
                k (S pos + String.length (span c s)) r0 cs <> None).
      { intros r0 H0. specialize (Hk r0).
        rewrite Nat.add_succ_r in Hk. apply Hk. now rewrite <- H0. }
      rewrite (IH (S pos) Hk' r Hr).
      rewrite Nat.add_succ_r. simpl.
      specialize (Hk' r Hr). simpl in Hk'.
      destruct (k (S (pos + String.length (span c s))) r cs); [reflexivity|].
      now contradiction Hk'.
    + subst r. now rewrite Nat.add_0_r.
Qed.

(** Soundness of the matcher: a success comes from a match of [r] and a
    success of the continuation after it. *)
Lemma rep_sound (n : nat) (c : cclass) (pos : nat) (s : string) (cs : caps)
  (k : cont) (res : caps) :
  rep n c pos s cs k = Some res ->
  exists s1 s2, s = String.append s1 s2 /\ String.length s1 = n
                /\ all_of c s1 /\ k (pos + n) s2 cs = Some res.
Proof.
  revert pos s. induction n as [|n IH]; intros pos s; simpl.
  - intros H. exists "", s. rewrite Nat.add_0_r. now repeat split.
  - destruct s as [|a s]; [discriminate|].
    destruct (cmatch c a) eqn:E; [|discriminate].
    intros H. destruct (IH _ _ H) as (s1 & s2 & -> & Hl & Ha & Hk).
    exists (String a s1), s2. simpl. rewrite Hl.
    repeat split; [|now rewrite Nat.add_succ_r].
    apply all_of_cons. now split.
Qed.

Lemma star_sound (c : cclass) (pos : nat) (s : string) (cs : caps) (k : cont)
  (res : caps) :
  star c pos s cs k = Some res ->
  exists s1 s2, s = String.append s1 s2 /\ all_of c s1
                /\ k (pos + String.length s1) s2 cs = Some res.
Proof.
  revert pos. induction s as [|a s IH]; intros pos; simpl.
  - intros H. exists "", "". rewrite Nat.add_0_r. now repeat split.
  - destruct (cmatch c a) eqn:E.
    + destruct (star c (S pos) s cs k) eqn:Es.
      * intros [= <-]. destruct (IH _ Es) as (s1 & s2 & -> & Ha & Hk).
        exists (String a s1), s2. simpl. rewrite Nat.add_succ_r.
        repeat split; [|exact Hk]. apply all_of_cons. now split.
      * intros H. exists "", (String a s). rewrite Nat.add_0_r. now repeat split.
    + intros H. exists "", (String a s). rewrite Nat.add_0_r. now repeat split.
Qed.

Lemma m_sound (r : regex) :
  forall (pos : nat) (s : string) (cs : caps) (k : cont) (res : caps),
    m r pos s cs k = Some res ->
    exists s1 s2 cs',
      s = String.append s1 s2 /\ matches r pos s1 s2
      /\ k (pos + String.length s1) s2 cs' = Some res.
Proof.
  induction r as [| |l|c|r1 IH1 r2 IH2|r1 IH1 r2 IH2|r1 IH1|c|n c|i r1 IH1];
    intros pos s cs k res; simpl.
  - destruct (Nat.eqb_spec pos 0) as [->|]; [|discriminate].
    intros H. exists "", s, cs. now repeat split.
  - destruct s; [|discriminate].
    intros H. exists "", "", cs. rewrite Nat.add_0_r. now repeat split.
  - rewrite lit_strip. destruct (strip l s) as [r|] eqn:E; [|discriminate].
    intros H. exists l, r, cs. repeat split; [now apply strip_sound | exact H].
  - destruct s as [|a s]; [discriminate|].
    destruct (cmatch c a) eqn:E; [|discriminate].
    intros H. exists (String a ""), s, cs. simpl. rewrite Nat.add_1_r.
    repeat split; [|exact H]. now exists a.
  - intros H. destruct (IH1 _ _ _ _ _ H) as (a & s' & cs1 & -> & Ha & H').
    destruct (IH2 _ _ _ _ _ H') as (b & s2 & cs2 & -> & Hb & H'').
    exists (String.append a b), s2, cs2.
    rewrite append_assoc, length_append, Nat.add_assoc.
    repeat split; [|exact H'']. now exists a, b.
  - destruct (m r1 pos s cs k) eqn:E.
    + intros [= <-]. destruct (IH1 _ _ _ _ _ E) as (s1 & s2 & cs' & ? & ? & ?).
      exists s1, s2, cs'. now repeat split; [|left|].
    + intros H. destruct (IH2 _ _ _ _ _ H) as (s1 & s2 & cs' & ? & ? & ?).
      exists s1, s2, cs'. now repeat split; [|right|].
  - destruct (m r1 pos s cs k) eqn:E.
    + intros [= <-]. destruct (IH1 _ _ _ _ _ E) as (s1 & s2 & cs' & ? & ? & ?).
      exists s1, s2, cs'. now repeat split; [|right|].
    + intros H. exists "", s, cs. rewrite Nat.add_0_r. now repeat split; [left|].
  - intros H. destruct (star_sound _ _ _ _ _ _ H) as (s1 & s2 & ? & ? & ?).
    exists s1, s2, cs. now repeat split.
  - intros H. destruct (rep_sound _ _ _ _ _ _ _ H) as (s1 & s2 & ? & Hl & ? & ?).
    exists s1, s2, cs. rewrite Hl. now repeat split.
  - intros H. destruct (IH1 _ _ _ _ _ H) as (s1 & s2 & cs' & ? & ? & ?).
    eexists s1, s2, _. repeat split; eauto.
Qed.

(** [exec] succeeds only on a string that the regex matches somewhere. *)
Lemma search_sound (r : regex) (pos : nat) (s : string) (res : caps) :
  search r pos s = Some res ->
  exists pre s1 s2,
    s = String.append pre (String.append s1 s2)
    /\ matches r (pos + String.length pre) s1 s2.
Proof.
  revert pos. induction s as [|a s IH]; intros pos; simpl.
  - destruct (m r pos "" [] accept) eqn:E; [|discriminate].
    intros _. destruct (m_sound _ _ _ _ _ _ E) as (s1 & s2 & cs' & ? & ? & ?).
    exists "", s1, s2. simpl. now rewrite Nat.add_0_r.
  - destruct (m r pos (String a s) [] accept) eqn:E.
    + intros _. destruct (m_sound _ _ _ _ _ _ E) as (s1 & s2 & cs' & ? & ? & ?).
      exists "", s1, s2. simpl. now rewrite Nat.add_0_r.
    + intros H. destruct (IH _ H) as (pre & s1 & s2 & -> & Hm).
      exists (String a pre), s1, s2. simpl. rewrite Nat.add_succ_r. now split.
Qed.

(** Completeness of the matcher: where the regex matches and the
    continuation then succeeds whatever the captures, the matcher succeeds. *)
Lemma star_continue (c : cclass) (pos : nat) (s : string) (cs : caps) (k : cont) :
  k pos s cs <> None -> star c pos s cs k <> None.
Proof.
  intros H. destruct s as [|a s]; simpl; [exact H|].
  destruct (cmatch c a); [|exact H].
  now destruct (star c (S pos) s cs k).
Qed.

Lemma star_complete (c : cclass) (s1 s2 : string) :
  forall (pos : nat) (cs : caps) (k : cont),
    all_of c s1 ->
    k (pos + String.length s1) s2 cs <> None ->
    star c pos (String.append s1 s2) cs k <> None.
Proof.
  induction s1 as [|a s1 IH]; intros pos cs k Ha Hk.
  - apply star_continue. simpl in Hk. now rewrite Nat.add_0_r in Hk.
  - apply all_of_cons in Ha as [Ha Hs]. simpl. rewrite Ha.
    assert (H : star c (S pos) (String.append s1 s2) cs k <> None).
    { apply IH; [exact Hs|]. simpl in Hk. now rewrite Nat.add_succ_r in Hk. }
    now destruct (star c (S pos) (String.append s1 s2) cs k).
Qed.

Lemma rep_complete (c : cclass) (s1 s2 : string) :
  forall (pos : nat) (cs : caps) (k : cont),
    all_of c s1 ->
    k (pos + String.length s1) s2 cs <> None ->
    rep (String.length s1) c pos (String.append s1 s2) cs k <> None.
Proof.
  induction s1 as [|a s1 IH]; intros pos cs k Ha Hk.
  - simpl in *. now rewrite Nat.add_0_r in Hk.
  - apply all_of_cons in Ha as [Ha Hs]. simpl. rewrite Ha.
    apply IH; [exact Hs|]. simpl in Hk. now rewrite Nat.add_succ_r in Hk.
Qed.

Lemma m_complete (r : regex) :
  forall (pos : nat) (s1 s2 : string) (cs : caps) (k : cont),
    matches r pos s1 s2 ->
    (forall cs', k (pos + String.length s1) s2 cs' <> None) ->
    m r pos (String.append s1 s2) cs k <> None.
Proof.
  induction r as [| |l|c|r1 IH1 r2 IH2|r1 IH1 r2 IH2|r1 IH1|c|n c|i r1 IH1];
    intros pos s1 s2 cs k Hm Hk; simpl in Hm |- *.
  - destruct Hm as [-> ->]. simpl in *. apply Hk.
  - destruct Hm as [-> ->]. simpl in *. rewrite Nat.add_0_r in Hk. apply Hk.
  - subst s1. rewrite lit_strip, strip_append. apply Hk.
  - destruct Hm as (a & -> & Ha). simpl. rewrite Ha.
    specialize (Hk cs). simpl in Hk. now rewrite Nat.add_1_r in Hk.
  - destruct Hm as (a & b & -> & Ha & Hb). rewrite append_assoc.
    apply IH1; [exact Ha|]. intros cs'. apply IH2; [exact Hb|].
    intros cs''. specialize (Hk cs'').
    now rewrite length_append, Nat.add_assoc in Hk.
  - destruct Hm as [Hm|Hm].
    + assert (H := IH1 pos s1 s2 cs k Hm Hk).
      now destruct (m r1 pos (String.append s1 s2) cs k).
    + destruct (m r1 pos (String.append s1 s2) cs k); [discriminate|].
      now apply IH2.
  - destruct Hm as [->|Hm].
    + destruct (m r1 pos (String.append "" s2) cs k); [discriminate|].
      specialize (Hk cs). simpl in Hk. now rewrite Nat.add_0_r in Hk.
    + assert (H := IH1 pos s1 s2 cs k Hm Hk).
      now destruct (m r1 pos (String.append s1 s2) cs k).
  - now apply star_complete.
  - destruct Hm as [<- Ha]. now apply rep_complete.
  - apply IH1; [exact Hm|]. intros cs'. apply Hk.
Qed.

Lemma search_complete (r : regex) (pre s1 s2 : string) :
  forall pos : nat,
    matches r (pos + String.length pre) s1 s2 ->
    search r pos (String.append pre (String.append s1 s2)) <> None.
Proof.
  induction pre as [|a pre IH]; intros pos Hm.
  - simpl in Hm. rewrite Nat.add_0_r in Hm.
    assert (H : m r pos (String.append s1 s2) [] accept <> None)
      by (apply m_complete; [exact Hm | discriminate]).
    change (String.append "" (String.append s1 s2)) with (String.append s1 s2).
    destruct (String.append s1 s2) as [|x t]; cbn [search];
      now destruct (m r pos _ [] accept).
  - change (String.append (String a pre) (String.append s1 s2))
      with (String a (String.append pre (String.append s1 s2))).
    cbn [search].
    destruct (m r pos (String a (String.append pre (String.append s1 s2))) [] accept);
      [discriminate|].
    apply IH. simpl in Hm. now rewrite Nat.add_succ_r in Hm.
Qed.

(** [test] decides whether the regex matches somewhere in the string. *)
Lemma test_spec (r : regex) (s : string) :
  test r s = true
  <-> exists pre s1 s2,
        s = String.append pre (String.append s1 s2)
        /\ matches r (String.length pre) s1 s2.
Proof.
  unfold test, exec. split.
  - destruct (search (RGrp 0 r) 0 s) as [res|] eqn:E; [|discriminate].
    intros _. apply search_sound in E as (pre & s1 & s2 & -> & Hm).
    now exists pre, s1, s2.
  - intros (pre & s1 & s2 & -> & Hm).
    assert (H := search_complete (RGrp 0 r) pre s1 s2 0 Hm).
    now destruct (search (RGrp 0 r) 0 _).
Qed.

End Matcher.

(** ** The identifier extractor, by the last marker of the first line *)

Section Extractor.

(** The continuation of the whole match, and the pieces of [regExp]. *)
Local Abbreviation K0 url :=
  (fun (pos' : nat) (s' : string) (cs' : caps) =>
     accept pos' s' ((0, substring 0 (pos' - 0) url) :: cs')).

Local Abbreviation MARKERS :=
  (RAlt (RLit "youtu.be/")
     (RAlt (RLit "v/")
        (RAlt (RSeq (RLit "u/") (RSeq (RChr word) (RLit "/")))
           (RAlt (RLit "embed/") (RAlt (RLit "watch?v=") (RLit "&v=")))))).

Local Abbreviation TAIL := (RSeq (RGrp 2 (RStar token_class)) (RStar CDot)).

Lemma dotstar_accepts (url : string) (pos : nat) (s : string) (cs : caps) :
  exists w, star CDot pos s cs (K0 url) = Some ((0, w) :: cs).
Proof.
  destruct (span_append CDot s) as (r & Hr & _).
  rewrite (star_longest CDot pos s cs (K0 url)) with (r := r).
  - eexists. reflexivity.
  - intros; discriminate.
  - exact Hr.
Qed.

Lemma tail_group2 (url : string) (pos : nat) (s : string) (cs : caps) :
  exists res, m TAIL pos s cs (K0 url) = Some res
              /\ group 2 res = Some (span token_class s).
Proof.
  simpl.
  destruct (span_append token_class s) as (r & Hr & _).
  rewrite (star_longest token_class pos s cs _) with (r := r).
  - destruct (dotstar_accepts url (pos + String.length (span token_class s)) r
                ((2, substring 0 (pos + String.length (span token_class s) - pos) s) :: cs))
      as [w Hw].
    rewrite Hw. eexists. split; [reflexivity|]. simpl.
    replace (pos + String.length (span token_class s) - pos)
      with (String.length (span token_class s)) by lia.
    rewrite Hr at 2. now rewrite substring_prefix.
  - intros r0 _.
    destruct (dotstar_accepts url (pos + String.length (span token_class s)) r0
                ((2, substring 0 (pos + String.length (span token_class s) - pos) s) :: cs))
      as [w Hw].
    now rewrite Hw.
  - exact Hr.
Qed.

(** After the markers: a success whenever a marker is at the head. *)
Ltac tail_succeeds url :=
  match goal with
  | |- context [star token_class ?p ?r ?c _] =>
      let res := fresh "res" in
      let H1 := fresh "H" in
      let H2 := fresh "H" in
      destruct (tail_group2 url p r c) as (res & H1 & H2);
      cbn [m] in H1; rewrite H1; now exists res
  end.

Ltac next_marker url l s :=
  let r := fresh "r" in
  destruct (strip l s) as [r|]; [tail_succeeds url|].

Lemma markers_group2 (url : string) (pos : nat) (s : string) (cs : caps) :
  match strip_marker s with
  | Some r =>
      exists res, m (RSeq (RGrp 1 MARKERS) TAIL) pos s cs (K0 url) = Some res
                  /\ group 2 res = Some (span token_class r)
  | None => m (RSeq (RGrp 1 MARKERS) TAIL) pos s cs (K0 url) = None
  end.
Proof.
  cbn [m]. rewrite !lit_strip. unfold strip_marker.
  next_marker url "youtu.be/" s.
  next_marker url "v/" s.
  destruct (strip "u/" s) as [[|a r]|].
  2:{ destruct (cmatch word a).
      - rewrite lit_strip. next_marker url "/" r.
        next_marker url "embed/" s. next_marker url "watch?v=" s.
        next_marker url "&v=" s. reflexivity.
      - next_marker url "embed/" s. next_marker url "watch?v=" s.
        next_marker url "&v=" s. reflexivity. }
  all: next_marker url "embed/" s; next_marker url "watch?v=" s;
    next_marker url "&v=" s; reflexivity.
Qed.

(** [.*] in front of the markers: the last marker of the first line. *)
Lemma dotstar_group2 (url : string) (s : string) :
  forall (pos : nat) (cs : caps),
    match last_marker s with
    | Some r =>
        exists res,
          star CDot pos s cs
            (fun p' s' c' => m (RSeq (RGrp 1 MARKERS) TAIL) p' s' c' (K0 url))
          = Some res
          /\ group 2 res = Some (span token_class r)
    | None =>
        star CDot pos s cs
          (fun p' s' c' => m (RSeq (RGrp 1 MARKERS) TAIL) p' s' c' (K0 url))
        = None
    end.
Proof.
  induction s as [|a s IH]; intros pos cs.
  - exact (markers_group2 url pos "" cs).
  - cbn [last_marker star]. destruct (cmatch CDot a).
    + specialize (IH (S pos) cs).
      destruct (last_marker s) as [r|].
      * destruct IH as (res & -> & H). now exists res.
      * rewrite IH. exact (markers_group2 url pos (String a s) cs).
    + exact (markers_group2 url pos (String a s) cs).
Qed.

Lemma search_after_start (s : string) :
  forall pos : nat, search (RGrp 0 regExp) (S pos) s = None.
Proof. induction s as [|a s IH]; intros pos; simpl; [reflexivity | apply IH]. Qed.

Lemma exec_regExp (url : string) :
  match last_marker url with
  | Some r =>
      exists res, exec regExp url = Some res
                  /\ group 2 res = Some (span token_class r)
  | None => exec regExp url = None
  end.
Proof.
  assert (H := dotstar_group2 url url 0 []).
  unfold exec.
  assert (E : m (RGrp 0 regExp) 0 url [] accept
              = star CDot 0 url []
                  (fun p' s' c' => m (RSeq (RGrp 1 MARKERS) TAIL) p' s' c' (K0 url)))
    by reflexivity.
  destruct (last_marker url) as [r|].
  - destruct H as (res & H1 & H2). exists res. split; [|exact H2].
    destruct url; cbn [search]; rewrite E, H1; reflexivity.
  - destruct url as [|a url]; cbn [search]; rewrite E, H; [reflexivity|].
    apply search_after_start.
Qed.

(** The extractor, in closed form. *)
Lemma getYouTubeIdFromUrl_c_eq (url : string) :
  getYouTubeIdFromUrl_c url
  = Normal
      (match last_marker url with
       | Some r =>
           if Nat.eqb (String.length (span token_class r)) 11
           then span token_class r else ""
       | None => ""
       end).
Proof.
  unfold getYouTubeIdFromUrl_c. assert (H := exec_regExp url).
  destruct (last_marker url) as [r|].
  - destruct H as (res & -> & ->). reflexivity.
  - now rewrite H.
Qed.

Lemma getYouTubeIdFromUrl_eq (url : string) :
  getYouTubeIdFromUrl url
  = match last_marker url with
    | Some r =>
        if Nat.eqb (String.length (span token_class r)) 11
        then span token_class r else ""
    | None => ""
    end.
Proof. unfold getYouTubeIdFromUrl. now rewrite getYouTubeIdFromUrl_c_eq. Qed.

End Extractor.

(** ** The markers, declaratively *)

Section Markers.

Lemma is_marker_cons (mk : string) :
  is_marker mk -> exists x mk', mk = String x mk'.
Proof.
  intros [->|[->|[(a & _ & ->)|[->|[->| ->]]]]]; eexists _, _; reflexivity.
Qed.

Lemma strip_marker_complete (mk r : string) :
  is_marker mk -> strip_marker (String.append mk r) = Some r.
Proof.
  intros [->|[->|[(a & Ha & ->)|[->|[->| ->]]]]]; unfold strip_marker; simpl;
    try reflexivity.
  simpl in Ha. now rewrite Ha.
Qed.

Lemma strip_marker_sound (s r : string) :
  strip_marker s = Some r -> exists mk, is_marker mk /\ s = String.append mk r.
Proof.
  unfold strip_marker, is_marker.
  destruct (strip "youtu.be/" s) eqn:E1.
  { intros [= ->]. apply strip_sound in E1. eauto 10. }
  destruct (strip "v/" s) eqn:E2.
  { intros [= ->]. apply strip_sound in E2. eauto 10. }
  destruct (match strip "u/" s with
            | Some (String a r0) => if cmatch word a then strip "/" r0 else None
            | _ => None
            end) eqn:E3.
  { intros [= ->].
    destruct (strip "u/" s) as [[|a r0]|] eqn:E3'; try discriminate.
    destruct (cmatch word a) eqn:Ea; [|discriminate].
    apply strip_sound in E3', E3. subst r0 s.
    exists (String "u" (String "/" (String a "/"))). split; [|reflexivity].
    right; right; left. now exists a. }
  destruct (strip "embed/" s) eqn:E4.
  { intros [= ->]. apply strip_sound in E4. eauto 10. }
  destruct (strip "watch?v=" s) eqn:E5.
  { intros [= ->]. apply strip_sound in E5. eauto 10. }
  intros E6. apply strip_sound in E6. eauto 10.
Qed.

Lemma marker_at_nil_inv (pre mk r : string) : ~ marker_at "" pre mk r.
Proof.
  intros (H & _ & Hm). destruct (is_marker_cons _ Hm) as (x & mk' & ->).
  now destruct pre.
Qed.

Lemma marker_at_cons_inv (a : ascii) (s pre mk r : string) :
  marker_at (String a s) pre mk r ->
  (pre = "" /\ strip_marker (String a s) = Some r)
  \/ (exists pre', pre = String a pre' /\ cmatch CDot a = true
                   /\ marker_at s pre' mk r).
Proof.
  intros (H & Hd & Hm). destruct pre as [|x pre].
  - left. split; [reflexivity|]. simpl in H. rewrite H.
    now apply strip_marker_complete.
  - right. simpl in H. injection H as <- H.
    apply all_of_cons in Hd as [Ha Hd]. exists pre. now repeat split.
Qed.

Lemma marker_at_head (s r : string) :
  strip_marker s = Some r -> exists mk, marker_at s "" mk r.
Proof.
  intros H. destruct (strip_marker_sound _ _ H) as (mk & Hm & ->).
  exists mk. now repeat split.
Qed.

Lemma marker_at_cons (a : ascii) (s pre mk r : string) :
  cmatch CDot a = true -> marker_at s pre mk r ->
  marker_at (String a s) (String a pre) mk r.
Proof.
  intros Ha (-> & Hd & Hm). repeat split; [|exact Hm].
  apply all_of_cons. now split.
Qed.

(** [last_marker] finds the last marker of the first line, or says that
    there is none. *)
Lemma last_marker_sound (s : string) :
  match last_marker s with
  | Some r => exists pre mk, marker_at s pre mk r /\ last_on_line s pre
  | None => forall pre mk r, ~ marker_at s pre mk r
  end.
Proof.
  assert (Hhead : forall a s,
             (forall pre mk r, marker_at (String a s) pre mk r -> pre = "") ->
             match strip_marker (String a s) with
             | Some r => exists pre mk, marker_at (String a s) pre mk r
                                        /\ last_on_line (String a s) pre
             | None => forall pre mk r, ~ marker_at (String a s) pre mk r
             end).
  { intros a s0 Hnil. destruct (strip_marker (String a s0)) as [r|] eqn:E.
    - destruct (marker_at_head _ _ E) as [mk Hm]. exists "", mk.
      split; [exact Hm|]. intros pre' mk' r' H'.
      now rewrite (Hnil _ _ _ H').
    - intros pre mk r H. assert (Hp := Hnil _ _ _ H). subst pre.
      destruct H as (H & _ & Hm). simpl in H.
      rewrite H, (strip_marker_complete _ _ Hm) in E. discriminate. }
  induction s as [|a s IH].
  - simpl. change (strip_marker "") with (@None string).
    intros pre mk r. apply marker_at_nil_inv.
  - cbn [last_marker]. destruct (cmatch CDot a) eqn:Ea.
    + destruct (last_marker s) as [r|].
      * destruct IH as (pre & mk & Hm & Hmax).
        exists (String a pre), mk. split; [now apply marker_at_cons|].
        intros pre' mk' r' H'.
        destruct (marker_at_cons_inv _ _ _ _ _ H') as [[-> _]|(p & -> & _ & Hp)].
        -- simpl. lia.
        -- simpl. apply le_n_S. exact (Hmax _ _ _ Hp).
      * apply Hhead. intros pre mk r H'.
        destruct (marker_at_cons_inv _ _ _ _ _ H') as [[-> _]|(p & -> & _ & Hp)];
          [reflexivity|]. now destruct (IH _ _ _ Hp).
    + apply Hhead. intros pre mk r H'.
      destruct (marker_at_cons_inv _ _ _ _ _ H') as [[-> _]|(p & -> & Hc & _)];
        [reflexivity|]. congruence.
Qed.

Lemma marker_at_same_length (s pre1 mk1 r1 pre2 mk2 r2 : string) :
  marker_at s pre1 mk1 r1 -> marker_at s pre2 mk2 r2 ->
  String.length pre1 = String.length pre2 -> r1 = r2.
Proof.
  revert s pre2. induction pre1 as [|x pre1 IH]; intros s pre2 H1 H2 Hl.
  - destruct pre2; [|discriminate].
    destruct H1 as (-> & _ & Hm1), H2 as (H2 & _ & Hm2). simpl in H2.
    assert (E := strip_marker_complete _ r1 Hm1).
    rewrite H2, (strip_marker_complete _ r2 Hm2) in E. now injection E.
  - destruct pre2 as [|y pre2]; [discriminate|].
    destruct H1 as (-> & Hd1 & Hm1), H2 as (H2 & Hd2 & Hm2).
    simpl in H2. injection H2 as <- H2.
    apply all_of_cons in Hd1 as [_ Hd1], Hd2 as [_ Hd2].
    apply (IH (String.append pre1 (String.append mk1 r1)) pre2).
    + now repeat split.
    + now repeat split.
    + simpl in Hl. lia.
Qed.

Lemma last_marker_Some (s r : string) :
  last_marker s = Some r
  <-> exists pre mk, marker_at s pre mk r /\ last_on_line s pre.
Proof.
  assert (H := last_marker_sound s). split.
  - intros E. now rewrite E in H.
  - intros (pre & mk & Hm & Hmax). destruct (last_marker s) as [r2|].
    + destruct H as (pre2 & mk2 & Hm2 & Hmax2). f_equal.
      apply (marker_at_same_length s pre2 mk2 r2 pre mk r Hm2 Hm).
      apply Nat.le_antisymm; [exact (Hmax _ _ _ Hm2) | exact (Hmax2 _ _ _ Hm)].
    + now destruct (H _ _ _ Hm).
Qed.

Lemma last_marker_None (s : string) :
  last_marker s = None <-> forall pre mk r, ~ marker_at s pre mk r.
Proof.
  assert (H := last_marker_sound s). split.
  - intros E. now rewrite E in H.
  - intros Hn. destruct (last_marker s) as [r|]; [|reflexivity].
    destruct H as (pre & mk & Hm & _). now destruct (Hn _ _ _ Hm).
Qed.

End Markers.

(** ** The properties of the identifier extractor *)

Section ExtractorFacts.

Lemma id_char_is_token_char (a : ascii) :
  cmatch id_class a = true -> cmatch token_class a = true.
Proof. destruct a as [[] [] [] [] [] [] [] []]; vm_compute; congruence. Qed.

Lemma all_id_all_token (s : string) : all_of id_class s -> all_of token_class s.
Proof.
  induction s as [|a s IH]; [reflexivity|].
  rewrite !all_of_cons. intros [Ha Hs]. split; [|now apply IH].
  now apply id_char_is_token_char.
Qed.

Lemma marker_not_id (mk : string) : is_marker mk -> ~ all_of id_class mk.
Proof.
  intros [->|[->|[(a & _ & ->)|[->|[->| ->]]]]]; vm_compute; congruence.
Qed.

Lemma last_marker_id (s : string) : all_of id_class s -> last_marker s = None.
Proof.
  intros Hs. apply last_marker_None. intros pre mk r (-> & _ & Hm).
  apply all_of_append in Hs as [_ Hs]. apply all_of_append in Hs as [Hs _].
  exact (marker_not_id _ Hm Hs).
Qed.

Lemma last_marker_prefix (p x r : string) :
  all_of CDot p -> last_marker x = Some r ->
  last_marker (String.append p x) = Some r.
Proof.
  intros Hp Hx. induction p as [|a p IH]; [exact Hx|].
  apply all_of_cons in Hp as [Ha Hp].
  change (String.append (String a p) x) with (String a (String.append p x)).
  cbn [last_marker]. now rewrite Ha, (IH Hp).
Qed.

Lemma getYouTubeIdFromUrl_after (p mk tok post : string) :
  all_of CDot p ->
  last_marker (String.append mk (String.append tok post))
  = Some (String.append tok post) ->
  all_of token_class tok -> ends_token post -> String.length tok = 11 ->
  getYouTubeIdFromUrl (String.append p (String.append mk (String.append tok post)))
  = tok.
Proof.
  intros Hp Hm Ht He Hl. rewrite getYouTubeIdFromUrl_eq.
  rewrite (last_marker_prefix _ _ _ Hp Hm).
  rewrite (span_unique token_class tok post Ht).
  - now rewrite Hl.
  - destruct post; [exact I | exact He].
Qed.

Lemma last_marker_short (x : string) :
  last_marker x = None -> last_marker (String.append "youtu.be/" x) = Some x.
Proof. intros H. simpl. now rewrite H. Qed.

Lemma last_marker_long (x : string) :
  last_marker x = None -> last_marker (String.append "watch?v=" x) = Some x.
Proof. intros H. simpl. now rewrite H. Qed.

Lemma last_marker_embed (x : string) :
  last_marker x = None -> last_marker (String.append "embed/" x) = Some x.
Proof. intros H. simpl. now rewrite H. Qed.

End ExtractorFacts.

(** C4. For every 11-character identifier [id] over [[a-zA-Z0-9_-]], the
    extractor returns [id] from the short-link form ([youtu.be/] then [id]),
    from the long form ([watch?v=] then [id]) and from the embed form
    ([embed/] then [id]) alike, whatever stands in front of the marker on the
    same line. *)
Theorem same_id_from_three_shapes (p1 p2 p3 id : string) :
  all_of CDot p1 -> all_of CDot p2 -> all_of CDot p3 ->
  all_of id_class id -> String.length id = 11 ->
  getYouTubeIdFromUrl (String.append p1 (String.append "youtu.be/" id)) = id
  /\ getYouTubeIdFromUrl (String.append p2 (String.append "watch?v=" id)) = id
  /\ getYouTubeIdFromUrl (String.append p3 (String.append "embed/" id)) = id.
Proof.
  intros H1 H2 H3 Hid Hl.
  assert (Hn := last_marker_id id Hid).
  assert (Ht := all_id_all_token id Hid).
  rewrite <- (append_nil_r id) at 1 3 5.
  rewrite <- (append_nil_r id) in Hn.
  repeat split; apply getYouTubeIdFromUrl_after; try assumption; try exact I.
  - now apply last_marker_short.
  - now apply last_marker_long.
  - now apply last_marker_embed.
Qed.

Lemma same_id_from_three_shapes_witness :
  getYouTubeIdFromUrl "https://youtu.be/dQw4w9WgXcQ" = "dQw4w9WgXcQ"
  /\ getYouTubeIdFromUrl "https://www.youtube.com/watch?v=dQw4w9WgXcQ" = "dQw4w9WgXcQ"
  /\ getYouTubeIdFromUrl "https://www.youtube.com/embed/dQw4w9WgXcQ" = "dQw4w9WgXcQ".
Proof.
  apply (same_id_from_three_shapes "https://" "https://www.youtube.com/"
           "https://www.youtube.com/" "dQw4w9WgXcQ"); reflexivity.
Defined.

(** C3, as the specification states it, fails: in this URL an 11-character
    token stands right after [watch?v=], and the extractor returns the empty
    string, because [&v=] comes later on the line and one character follows
    it. *)
Lemma token_in_recognized_position_not_extracted :
  ~ (getYouTubeIdFromUrl "https://www.youtube.com/watch?v=dQw4w9WgXcQ&v=1" <> ""
     <-> exists tok, String.length tok = 11
                     /\ token_at "https://www.youtube.com/watch?v=dQw4w9WgXcQ&v=1" tok).
Proof.
  intros [_ H]. apply H; [|reflexivity].
  exists "dQw4w9WgXcQ". split; [reflexivity|].
  exists "https://www.youtube.com/", "watch?v=", "&v=1".
  repeat split. unfold is_marker. tauto.
Qed.

(** C3, amended. The extractor never throws. It returns a non-empty
    identifier [id] exactly when [id] has 11 characters and is the whole run
    of characters other than [#], [&] and [?] that follows the last marker
    ([youtu.be/], [v/], [u/] a word character [/], [embed/], [watch?v=],
    [&v=]) of the first line of the string; for every other string it returns
    the empty string. *)
Theorem getYouTubeIdFromUrl_last_token (url : string) :
  getYouTubeIdFromUrl_c url = Normal (getYouTubeIdFromUrl url)
  /\ (forall id : string,
        id <> "" ->
        (getYouTubeIdFromUrl url = id
         <-> String.length id = 11 /\ last_token_at url id))
  /\ ((forall id : string, String.length id = 11 -> ~ last_token_at url id) ->
      getYouTubeIdFromUrl url = "").
Proof.
  assert (Hiff : forall id : string,
             id <> "" ->
             (getYouTubeIdFromUrl url = id
              <-> String.length id = 11 /\ last_token_at url id)).
  { intros id Hid. rewrite getYouTubeIdFromUrl_eq. split.
    - destruct (last_marker url) as [r|] eqn:E; [|congruence].
      destruct (Nat.eqb_spec (String.length (span token_class r)) 11) as [Hl|];
        [|congruence].
      intros <-. split; [exact Hl|].
      apply last_marker_Some in E as (pre & mk & Hm & Hmax).
      destruct (span_append token_class r) as (post & Hr & Hpost).
      exists pre, mk, post. rewrite <- Hr.
      split; [exact Hm|]. split; [exact Hmax|]. split; [apply span_all|].
      destruct post; [exact I | exact Hpost].
    - intros (Hl & pre & mk & post & Hm & Hmax & Ht & He).
      assert (E : last_marker url = Some (String.append id post))
        by (apply last_marker_Some; eauto).
      rewrite E, (span_unique token_class id post Ht).
      + now rewrite Hl.
      + destruct post; [exact I | exact He]. }
  split; [|split].
  - unfold getYouTubeIdFromUrl. now rewrite getYouTubeIdFromUrl_c_eq.
  - exact Hiff.
  - intros Hno. destruct (String.eqb_spec (getYouTubeIdFromUrl url) "") as [E|N];
      [exact E|].
    destruct (proj1 (Hiff _ N) eq_refl) as [Hl Ht]. now destruct (Hno _ Hl).
Qed.

Lemma getYouTubeIdFromUrl_last_token_witness :
  getYouTubeIdFromUrl "https://youtu.be/dQw4w9WgXcQ?t=42" = "dQw4w9WgXcQ"
  <-> String.length "dQw4w9WgXcQ" = 11
      /\ last_token_at "https://youtu.be/dQw4w9WgXcQ?t=42" "dQw4w9WgXcQ".
Proof.
  apply (proj1 (proj2 (getYouTubeIdFromUrl_last_token
                         "https://youtu.be/dQw4w9WgXcQ?t=42")) "dQw4w9WgXcQ").
  discriminate.
Defined.

(** ** The form and the extractor *)

Section Form.

Lemma in_range_single (a x : ascii) : in_range a (x, x) = true -> a = x.
Proof.
  unfold in_range, code. cbn [fst snd]. rewrite Bool.andb_true_iff.
  intros [H1 H2]. apply N.leb_le in H1, H2.
  rewrite <- (ascii_N_embedding a), <- (ascii_N_embedding x).
  f_equal. lia.
Qed.

(** What the form accepts: a head, 11 identifier characters, and a rest
    without line terminator. *)
Lemma form_accepts_inv (url : string) :
  test YOUTUBE_URL_REGEX url = true ->
  exists head id rest,
    url = String.append head (String.append id rest)
    /\ In head form_heads
    /\ String.length id = 11 /\ all_of id_class id /\ all_of CDot rest.
Proof.
  unfold test, exec. destruct (search _ 0 url) as [res|] eqn:E; [|discriminate].
  intros _. apply search_sound in E as (pre & s1 & s2 & -> & Hm).
  simpl in Hm.
  destruct Hm as (a & b & -> & [-> Hpre] & o1 & b0 & -> & Ho1
                  & o2 & b1 & -> & Ho2 & host & b2 & -> & Hhost
                  & id & b3 & -> & [Hl Hid] & rest & b4 & -> & Hrest & -> & ->).
  destruct pre; [|discriminate]. clear Hpre.
  exists (String.append o1 (String.append o2 host)), id, rest.
  rewrite !append_nil_r.
  assert (Hs : o1 = "" \/ o1 = "http://" \/ o1 = "https://").
  { destruct Ho1 as [->|(a1 & b & -> & -> & a2 & b2 & -> & Hs & ->)]; [now left|].
    destruct Hs as [->|(c & -> & Hc)]; [now right; left|].
    rewrite Bool.orb_false_r in Hc. apply in_range_single in Hc as ->.
    now right; right. }
  split; [|split; [|now repeat split]].
  - simpl. now rewrite !append_assoc.
  - destruct Hs as [->|[->| ->]], Ho2 as [->| ->], Hhost as [->| ->];
      vm_compute; tauto.
Qed.

Lemma form_matches (o1 o2 host id rest : string) :
  o1 = "" \/ o1 = "http://" \/ o1 = "https://" ->
  o2 = "" \/ o2 = "www." ->
  host = "youtube.com/watch?v=" \/ host = "youtu.be/" ->
  String.length id = 11 -> all_of id_class id -> all_of CDot rest ->
  matches YOUTUBE_URL_REGEX 0
    (String.append o1
       (String.append o2 (String.append host (String.append id rest)))) "".
Proof.
  intros H1 H2 H3 Hl Hid Hr. simpl.
  exists "", (String.append o1
                (String.append o2 (String.append host (String.append id rest)))).
  split; [reflexivity|]. split; [now split|].
  exists o1, (String.append o2 (String.append host (String.append id rest))).
  split; [reflexivity|]. split.
  { destruct H1 as [->|[->| ->]]; [now left| |]; right.
    - exists "http", "://". repeat split. exists "", "://". repeat split. now left.
    - exists "http", "s://". repeat split. exists "s", "://". repeat split.
      right. now exists "s"%char. }
  exists o2, (String.append host (String.append id rest)).
  split; [reflexivity|]. split; [destruct H2 as [->| ->]; tauto|].
  exists host, (String.append id rest).
  split; [reflexivity|]. split; [destruct H3 as [->| ->]; tauto|].
  exists id, rest. split; [reflexivity|]. split; [now split|].
  exists rest, "". now rewrite append_nil_r.
Qed.

(** The form accepts exactly these strings. *)
Lemma form_accepts_iff (url : string) :
  test YOUTUBE_URL_REGEX url = true
  <-> exists head id rest,
        url = String.append head (String.append id rest)
        /\ In head form_heads
        /\ String.length id = 11 /\ all_of id_class id /\ all_of CDot rest.
Proof.
  split; [apply form_accepts_inv|].
  intros (head & id & rest & -> & Hh & Hl & Hid & Hr).
  apply test_spec. exists "", (String.append head (String.append id rest)), "".
  split; [now rewrite append_nil_r|].
  assert (F : forall o1 o2 host,
             o1 = "" \/ o1 = "http://" \/ o1 = "https://" ->
             o2 = "" \/ o2 = "www." ->
             host = "youtube.com/watch?v=" \/ host = "youtu.be/" ->
             matches YOUTUBE_URL_REGEX 0
               (String.append (String.append o1 (String.append o2 host))
                  (String.append id rest)) "").
  { intros o1 o2 host H1 H2 H3. rewrite !append_assoc.
    now apply form_matches. }
  vm_compute in Hh.
  destruct Hh as [<-|[<-|[<-|[<-|[<-|[<-|[<-|[<-|[<-|[<-|[<-|[<-|[]]]]]]]]]]]]].
  - apply (F "" "" "youtube.com/watch?v="); tauto.
  - apply (F "" "" "youtu.be/"); tauto.
  - apply (F "" "www." "youtube.com/watch?v="); tauto.
  - apply (F "" "www." "youtu.be/"); tauto.
  - apply (F "http://" "" "youtube.com/watch?v="); tauto.
  - apply (F "http://" "" "youtu.be/"); tauto.
  - apply (F "http://" "www." "youtube.com/watch?v="); tauto.
  - apply (F "http://" "www." "youtu.be/"); tauto.
  - apply (F "https://" "" "youtube.com/watch?v="); tauto.
  - apply (F "https://" "" "youtu.be/"); tauto.
  - apply (F "https://" "www." "youtube.com/watch?v="); tauto.
  - apply (F "https://" "www." "youtu.be/"); tauto.
Qed.

(** The identifier follows the head at once when no marker starts later. *)
Lemma last_marker_head (head x : string) :
  In head form_heads -> last_marker x = None ->
  last_marker (String.append head x) = Some x.
Proof.
  intros Hh Hx. vm_compute in Hh.
  repeat (destruct Hh as [<-|Hh]; [simpl; now rewrite Hx|]).
  destruct Hh.
Qed.

End Form.

(** C9, as it is stated, fails: the form accepts this URL, which ends with a
    slash, and the extractor returns the empty string for it (the run of
    token characters after [youtu.be/] has 12 characters); [handleSaveUrl]
    then takes its failure branch. *)
Lemma form_accepts_what_extractor_refuses :
  test YOUTUBE_URL_REGEX "https://youtu.be/dQw4w9WgXcQ/" = true
  /\ getYouTubeIdFromUrl "https://youtu.be/dQw4w9WgXcQ/" = ""
  /\ forall (now : Z) (ls : Storage),
       submit "https://youtu.be/dQw4w9WgXcQ/" now ls = FormSaved ExtractionFailed.
Proof. repeat split. Qed.

(** C9, amended. A URL that the form accepts is a head (an optional scheme,
    an optional [www.], then [youtube.com/watch?v=] or [youtu.be/]), an
    identifier of 11 characters and a rest without line terminator. When the
    rest is empty or starts with [#], [&] or [?], and no marker starts inside
    the identifier and the rest, the extractor returns that identifier and
    [handleSaveUrl] does not take its failure branch. *)
Theorem form_accepted_then_extracted (url : string) :
  test YOUTUBE_URL_REGEX url = true ->
  exists head id rest : string,
    url = String.append head (String.append id rest)
    /\ In head form_heads
    /\ String.length id = 11 /\ all_of id_class id /\ all_of CDot rest
    /\ (ends_token rest ->
        (forall pre mk r, ~ marker_at (String.append id rest) pre mk r) ->
        getYouTubeIdFromUrl url = id
        /\ id <> ""
        /\ forall (now : Z) (ls : Storage),
             handleSaveUrl url now ls <> ExtractionFailed).
Proof.
  intros H. destruct (form_accepts_inv url H) as (head & id & rest & -> & Hh & Hl & Hid & Hr).
  exists head, id, rest. repeat split; try assumption.
  - rewrite getYouTubeIdFromUrl_eq.
    rewrite (last_marker_head _ _ Hh) by now apply last_marker_None.
    rewrite (span_unique token_class id rest (all_id_all_token _ Hid)).
    + now rewrite Hl.
    + destruct rest; [exact I | assumption].
  - intros ->. discriminate.
  - intros now ls. unfold handleSaveUrl.
    assert (E : getYouTubeIdFromUrl (String.append head (String.append id rest)) = id).
    { rewrite getYouTubeIdFromUrl_eq.
      rewrite (last_marker_head _ _ Hh) by now apply last_marker_None.
      rewrite (span_unique token_class id rest (all_id_all_token _ Hid)).
      + now rewrite Hl.
      + destruct rest; [exact I | assumption]. }
    rewrite E. destruct id; [discriminate|]. discriminate.
Qed.

Lemma form_accepted_then_extracted_witness :
  exists head id rest : string,
    "https://www.youtube.com/watch?v=dQw4w9WgXcQ&t=42"
    = String.append head (String.append id rest)
    /\ In head form_heads
    /\ String.length id = 11 /\ all_of id_class id /\ all_of CDot rest
    /\ (ends_token rest ->
        (forall pre mk r, ~ marker_at (String.append id rest) pre mk r) ->
        getYouTubeIdFromUrl "https://www.youtube.com/watch?v=dQw4w9WgXcQ&t=42" = id
        /\ id <> ""
        /\ forall (now : Z) (ls : Storage),
             handleSaveUrl "https://www.youtube.com/watch?v=dQw4w9WgXcQ&t=42" now ls
             <> ExtractionFailed).
Proof.
  apply (form_accepted_then_extracted
           "https://www.youtube.com/watch?v=dQw4w9WgXcQ&t=42").
  reflexivity.
Defined.

(** ** [JSON.parse] after [JSON.stringify] *)

Section JSONNumbers.

Import JSON.
Local Open Scope N_scope.

Lemma digit_char_spec (d : N) :
  d < 10 -> is_digit (digit_char d) = true /\ digit_val (digit_char d) = d.
Proof.
  intros H.
  assert (C : d = 0 \/ d = 1 \/ d = 2 \/ d = 3 \/ d = 4 \/ d = 5 \/ d = 6
              \/ d = 7 \/ d = 8 \/ d = 9) by lia.
  repeat (destruct C as [->|C]; [now split|]). now subst.
Qed.

Lemma read_digits_digit (d : N) (t : string) (acc : N) (cnt : nat) :
  d < 10 ->
  read_digits (String (digit_char d) t) acc cnt
  = read_digits t (acc * 10 + d) (S cnt).
Proof.
  intros H. destruct (digit_char_spec d H) as [H1 H2].
  cbn [read_digits]. now rewrite H1, H2.
Qed.

Lemma read_digits_end (s : string) (acc : N) (cnt : nat) :
  match s with
  | EmptyString => True
  | String a _ => is_digit a = false
  end ->
  read_digits s acc cnt = (acc, cnt, s).
Proof. destruct s as [|a s]; simpl; [reflexivity | now intros ->]. Qed.

Lemma int_digits_app (f : nat) (n : N) (t1 t2 : string) :
  int_digits f n (String.append t1 t2) = String.append (int_digits f n t1) t2.
Proof.
  revert n t1. induction f as [|f IH]; intros n t1; simpl; [reflexivity|].
  destruct (n / 10 =? 0); [reflexivity|].
  exact (IH (n / 10) (String (digit_char (n mod 10)) t1)).
Qed.

Lemma frac_digits_app (k : nat) (f : N) (t1 t2 : string) :
  frac_digits k f (String.append t1 t2) = String.append (frac_digits k f t1) t2.
Proof.
  revert f t1. induction k as [|k IH]; intros f t1; simpl; [reflexivity|].
  exact (IH (f / 10) (String (digit_char (f mod 10)) t1)).
Qed.

(** Reading back the digits of [n]. *)
Lemma read_int_digits (f : nat) :
  forall (n : N) (tail : string) (acc : N) (cnt : nat),
    n < 10 ^ N.of_nat f ->
    exists k : nat,
      read_digits (int_digits f n tail) acc cnt
      = read_digits tail (acc * 10 ^ N.of_nat k + n) (cnt + k).
Proof.
  induction f as [|f IH]; intros n tail acc cnt Hn.
  - exists O. simpl in *. replace n with 0 by lia.
    now rewrite N.mul_1_r, N.add_0_r, Nat.add_0_r.
  - cbn [int_digits].
    assert (Hd : n mod 10 < 10) by (apply N.mod_lt; lia).
    assert (Hn' : n = 10 * (n / 10) + n mod 10) by (apply N.div_mod; lia).
    destruct (N.eqb_spec (n / 10) 0) as [E|E].
    + exists 1%nat. rewrite read_digits_digit by exact Hd.
      rewrite Nat.add_1_r. f_equal. change (10 ^ N.of_nat 1) with 10. lia.
    + assert (Hq : n / 10 < 10 ^ N.of_nat f).
      { apply N.Div0.div_lt_upper_bound.
        rewrite Nat2N.inj_succ, N.pow_succ_r' in Hn. exact Hn. }
      destruct (IH (n / 10) (String (digit_char (n mod 10)) tail) acc cnt Hq)
        as [k Hk].
      exists (S k). rewrite Hk, read_digits_digit by exact Hd.
      rewrite Nat.add_succ_r. f_equal.
      rewrite Nat2N.inj_succ, N.pow_succ_r'. lia.
Qed.

(** Reading back [k] digits of a fraction. *)
Lemma read_frac_digits (k : nat) :
  forall (f : N) (tail : string) (acc : N) (cnt : nat),
    read_digits (frac_digits k f tail) acc cnt
    = read_digits tail (acc * 10 ^ N.of_nat k + f mod 10 ^ N.of_nat k) (cnt + k).
Proof.
  induction k as [|k IH]; intros f tail acc cnt.
  - simpl. now rewrite N.mod_1_r, N.mul_1_r, N.add_0_r, Nat.add_0_r.
  - cbn [frac_digits]. rewrite IH.
    assert (Hd : f mod 10 < 10) by (apply N.mod_lt; lia).
    rewrite read_digits_digit by exact Hd.
    rewrite Nat.add_succ_r. f_equal.
    rewrite Nat2N.inj_succ, N.pow_succ_r'.
    set (p := 10 ^ N.of_nat k).
    assert (Hp : p <> 0) by (apply N.pow_nonzero; lia).
    assert (E : f mod (10 * p) = 10 * ((f / 10) mod p) + f mod 10).
    { rewrite N.Div0.mod_mul_r. lia. }
    rewrite E. lia.
Qed.

Lemma fuel_enough (n : N) : n < 10 ^ N.of_nat (S (N.to_nat (N.log2 n))).
Proof.
  rewrite Nat2N.inj_succ, N2Nat.id.
  destruct (N.eq_dec n 0) as [->|Hn]; [reflexivity|].
  apply N.lt_le_trans with (2 ^ N.succ (N.log2 n)).
  - apply N.log2_spec. lia.
  - apply N.pow_le_mono_l. lia.
Qed.

(** The first digit of a positive number is not 0. *)
Lemma int_digits_head (f : nat) :
  forall (n : N) (tail : string),
    n <> 0 -> n < 10 ^ N.of_nat f ->
    exists a t, int_digits f n tail = String a t
                /\ is_digit a = true /\ (code a =? 48) = false.
Proof.
  induction f as [|f IH]; intros n tail Hn Hlt.
  - simpl in Hlt. lia.
  - cbn [int_digits]. destruct (N.eqb_spec (n / 10) 0) as [E|E].
    + assert (Hs : n < 10).
      { assert (H := N.div_mod n 10). rewrite E in H.
        assert (n mod 10 < 10) by (apply N.mod_lt; lia). lia. }
      rewrite N.mod_small by exact Hs.
      exists (digit_char n), tail. split; [reflexivity|].
      assert (C : n = 1 \/ n = 2 \/ n = 3 \/ n = 4 \/ n = 5 \/ n = 6
                  \/ n = 7 \/ n = 8 \/ n = 9) by lia.
      repeat (destruct C as [->|C]; [now split|]). now subst.
    + apply IH; [exact E|].
      apply N.Div0.div_lt_upper_bound.
      rewrite Nat2N.inj_succ, N.pow_succ_r' in Hlt. exact Hlt.
Qed.

Lemma parse_int_part_N_to_string (n : N) (rest : string) :
  match rest with
  | EmptyString => True
  | String a _ => is_digit a = false
  end ->
  parse_int_part (String.append (N_to_string n) rest) = Some (n, rest).
Proof.
  intros Hr. destruct (N.eq_dec n 0) as [->|Hn]; [reflexivity|].
  unfold N_to_string.
  destruct (int_digits_head _ n "" Hn (fuel_enough n)) as (a & t & E & Ha & H0).
  unfold parse_int_part. rewrite E.
  change (String.append (String a t) rest) with (String a (String.append t rest)).
  cbv iota beta. rewrite H0, Ha.
  change (String a (String.append t rest)) with (String.append (String a t) rest).
  rewrite <- E, <- int_digits_app.
  destruct (read_int_digits _ n (String.append "" rest) 0 0 (fuel_enough n))
    as [k Hk].
  rewrite Hk. change (String.append "" rest) with rest.
  rewrite read_digits_end by exact Hr. now rewrite N.mul_0_l, N.add_0_l.
Qed.

Lemma N_to_string_head (n : N) :
  exists a t, N_to_string n = String a t /\ is_digit a = true.
Proof.
  destruct (N.eq_dec n 0) as [->|Hn]; [now exists "0"%char, ""|].
  destruct (int_digits_head _ n "" Hn (fuel_enough n)) as (a & t & E & Ha & _).
  now exists a, t.
Qed.

End JSONNumbers.

Section JSONNumberTexts.

Import JSON.

Lemma number_end_not_digit (rest : string) :
  number_end rest ->
  match rest with
  | EmptyString => True
  | String a _ => is_digit a = false
  end.
Proof. destruct rest; [auto | now intros [H _]]. Qed.

Lemma parse_frac_part_none (rest : string) :
  number_end rest -> parse_frac_part rest = Some (0%N, O, rest).
Proof.
  destruct rest as [|a rest]; [reflexivity|]. intros (_ & H & _).
  unfold parse_frac_part. now rewrite H.
Qed.

Lemma parse_exp_part_none (rest : string) :
  number_end rest -> parse_exp_part rest = Some (0%Z, rest).
Proof.
  destruct rest as [|a rest]; [reflexivity|]. intros (_ & _ & H1 & H2).
  unfold parse_exp_part. now rewrite H1, H2.
Qed.

Lemma parse_frac_part_digits (k : nat) (f : N) (rest : string) :
  number_end rest ->
  parse_frac_part (String "." (String.append (frac_digits (S k) f "") rest))
  = Some ((f mod 10 ^ N.of_nat (S k))%N, S k, rest).
Proof.
  intros Hr. unfold parse_frac_part.
  change ((code "." =? 46)%N) with true. cbv iota.
  rewrite <- frac_digits_app. change (String.append "" rest) with rest.
  rewrite read_frac_digits, read_digits_end by now apply number_end_not_digit.
  now rewrite N.mul_0_l, N.add_0_l.
Qed.

Lemma pow10_of_N (k : nat) : Z.of_N (10 ^ N.of_nat k) = pow10 k.
Proof. unfold pow10. now rewrite N2Z.inj_pow, nat_N_Z. Qed.

Lemma unsigned_text_head (a : N) (k : nat) :
  exists c t, unsigned_text a k = String c t /\ is_digit c = true.
Proof.
  unfold unsigned_text.
  destruct (N_to_string_head (a / 10 ^ N.of_nat k)) as (c & t & -> & Hc).
  eexists c, _. split; [reflexivity | exact Hc].
Qed.

Lemma parse_unsigned_text (a : N) (k : nat) (rest : string) :
  number_end rest ->
  exists ip fp,
    parse_int_part (String.append (unsigned_text a k) rest)
    = Some (ip, String.append
                  match k with
                  | O => ""
                  | S _ => String "." (frac_digits k (a mod 10 ^ N.of_nat k) "")
                  end rest)
    /\ parse_frac_part
         (String.append
            match k with
            | O => ""
            | S _ => String "." (frac_digits k (a mod 10 ^ N.of_nat k) "")
            end rest)
       = Some (fp, k, rest)
    /\ (Z.of_N ip * pow10 k + Z.of_N fp)%Z = Z.of_N a.
Proof.
  intros Hr. exists (a / 10 ^ N.of_nat k)%N, (a mod 10 ^ N.of_nat k)%N.
  unfold unsigned_text. rewrite append_assoc.
  assert (Hp : (10 ^ N.of_nat k)%N <> 0%N) by (apply N.pow_nonzero; lia).
  split; [|split].
  - apply parse_int_part_N_to_string. destruct k.
    + now apply number_end_not_digit.
    + reflexivity.
  - destruct k as [|k].
    + change (String.append "" rest) with rest.
      change (10 ^ N.of_nat 0)%N with 1%N. rewrite N.mod_1_r.
      now apply parse_frac_part_none.
    + change (String.append (String "." ?x) rest)
        with (String "." (String.append x rest)).
      rewrite parse_frac_part_digits by exact Hr.
      now rewrite N.Div0.mod_mod.
  - rewrite <- pow10_of_N, <- N2Z.inj_mul, <- N2Z.inj_add. f_equal.
    rewrite N.mul_comm. symmetry. apply N.div_mod. exact Hp.
Qed.

Lemma num_to_string_unsigned (m : Z) (k : nat) :
  canonical (Num m k) ->
  num_to_string (Num m k)
  = String.append (if (m <? 0)%Z then "-" else "") (unsigned_text (Z.abs_N m) k).
Proof.
  unfold canonical, num_to_string. cbn [mant scale]. intros ->. reflexivity.
Qed.

(** A canonical number is read back from its text. *)
Lemma parse_number_num_to_string (x : number) (rest : string) :
  canonical x -> number_end rest ->
  parse_number (String.append (num_to_string x) rest) = Some (x, rest).
Proof.
  destruct x as [m k]. intros Hc Hr.
  rewrite (num_to_string_unsigned m k Hc).
  destruct (parse_unsigned_text (Z.abs_N m) k rest Hr) as (ip & fp & H1 & H2 & H3).
  destruct (unsigned_text_head (Z.abs_N m) k) as (c & t & Eh & Hd).
  assert (Hval : Some
                   (if (Z.of_nat k <=? 0)%Z
                    then Num (m * 10 ^ (0 - Z.of_nat k)) 0
                    else normalize m (Z.to_nat (Z.of_nat k - 0)), rest)
                 = Some (Num m k, rest)).
  { destruct k as [|k].
    - simpl. now rewrite Z.mul_1_r.
    - destruct (Z.leb_spec (Z.of_nat (S k)) 0) as [Hle|_]; [lia|].
      rewrite Z.sub_0_r, Nat2Z.id. now rewrite Hc. }
  unfold parse_number. destruct (Z.ltb_spec m 0) as [Hneg|Hpos].
  - change (String.append (String.append "-" ?u) rest)
      with (String "-" (String.append u rest)).
    cbv beta iota. change ((code "-" =? 45)%N) with true. cbv beta iota zeta.
    rewrite H1, H2, (parse_exp_part_none rest Hr), H3.
    replace (- Z.of_N (Z.abs_N m))%Z with m by lia. exact Hval.
  - change (String.append "" ?u) with u.
    rewrite Eh in *.
    change (String.append (String c t) rest) with (String c (String.append t rest)) in *.
    assert (H45 : (code c =? 45)%N = false).
    { unfold is_digit in Hd. apply Bool.andb_true_iff in Hd as [Hd _].
      apply N.leb_le in Hd. apply N.eqb_neq. lia. }
    cbv beta iota. rewrite H45. cbv beta iota zeta.
    rewrite H1, H2, (parse_exp_part_none rest Hr), H3.
    replace (Z.of_N (Z.abs_N m)) with m by lia. exact Hval.
Qed.

Lemma num_to_string_head (x : number) :
  canonical x ->
  exists c t, num_to_string x = String c t
              /\ ((code c =? 45)%N = true \/ is_digit c = true).
Proof.
  destruct x as [m k]. intros Hc. rewrite (num_to_string_unsigned m k Hc).
  destruct (unsigned_text_head (Z.abs_N m) k) as (c & t & -> & Hd).
  destruct (m <? 0)%Z.
  - eexists "-"%char, _. split; [reflexivity | now left].
  - exists c, t. split; [reflexivity | now right].
Qed.

End JSONNumberTexts.

Section JSONTexts.

Import JSON.

Lemma parse_escape_char (a : ascii) (t : string) :
  parse_string_body (String.append (escape_char a) t)
  = push a (parse_string_body t).
Proof. destruct a as [[] [] [] [] [] [] [] []]; reflexivity. Qed.

Lemma parse_quote_body (s rest : string) :
  parse_string_body (String.append (quote_body s) (String dquote rest))
  = Ok (s, rest).
Proof.
  induction s as [|a s IH]; [reflexivity|].
  cbn [quote_body]. rewrite append_assoc, parse_escape_char, IH. reflexivity.
Qed.

Lemma quote_append (s rest : string) :
  String.append (quote s) rest
  = String dquote (String.append (quote_body s) (String dquote rest)).
Proof. unfold quote. simpl. now rewrite append_assoc. Qed.

Lemma parse_value_string (f : nat) (s rest : string) :
  parse_value (S f) (String.append (quote s) rest) = Ok (JStr s, rest).
Proof.
  rewrite quote_append. cbn [parse_value skip_ws].
  change (json_ws dquote) with false. cbv iota.
  change ((code dquote =? 123)%N) with false.
  change ((code dquote =? 91)%N) with false.
  change ((code dquote =? 34)%N) with true. cbv iota.
  now rewrite parse_quote_body.
Qed.

(** A text that starts with a sign or a digit is read as a number. *)
Lemma parse_value_numeric (f : nat) (c : ascii) (t : string) :
  (code c =? 45)%N = true \/ is_digit c = true ->
  parse_value (S f) (String c t)
  = match parse_number (String c t) with
    | Some (n, r') => Ok (JNum n, r')
    | None => Bad
    end.
Proof.
  intros H.
  assert (C : In (code c) [45; 48; 49; 50; 51; 52; 53; 54; 55; 56; 57]%N).
  { destruct H as [H|H].
    - apply N.eqb_eq in H. rewrite H. now left.
    - unfold is_digit in H. apply Bool.andb_true_iff in H as [H1 H2].
      apply N.leb_le in H1, H2. simpl. lia. }
  assert (F : json_ws c = false
              /\ (code c =? 123)%N = false /\ (code c =? 91)%N = false
              /\ (code c =? 34)%N = false /\ (code c =? 110)%N = false
              /\ (code c =? 116)%N = false /\ (code c =? 102)%N = false).
  { unfold json_ws. simpl in C.
    repeat (destruct C as [<-|C]; [now repeat split|]). destruct C. }
  destruct F as (F1 & F2 & F3 & F4 & F5 & F6 & F7).
  cbn [parse_value skip_ws]. rewrite F1. cbv iota.
  now rewrite F2, F3, F4, F5, F6, F7.
Qed.

Lemma parse_value_number (f : nat) (x : number) (rest : string) :
  canonical x -> number_end rest ->
  parse_value (S f) (String.append (num_to_string x) rest) = Ok (JNum x, rest).
Proof.
  intros Hc Hr. assert (P := parse_number_num_to_string x rest Hc Hr).
  destruct (num_to_string_head x Hc) as (c & t & E & Hh).
  rewrite E in *.
  change (String.append (String c t) rest) with (String c (String.append t rest)) in *.
  now rewrite parse_value_numeric, P.
Qed.

(** The text of a record, with the closing brace and what follows it pushed
    inside. *)
Lemma stringify_record (d : VideoData) (rest : string) :
  String.append (stringify (VideoData_obj d)) rest
  = String "{"
      (String.append (quote "originalUrl")
         (String ":"
            (String.append (quote (originalUrl d))
               (String ","
                  (String.append (quote "lastKnownVideoTime")
                     (String ":"
                        (String.append (num_to_string (lastKnownVideoTime d))
                           (String ","
                              (String.append (quote "lastKnownSystemTime")
                                 (String ":"
                                    (String.append
                                       (num_to_string (lastKnownSystemTime d))
                                       (String "}" rest)))))))))))).
Proof.
  cbn [stringify VideoData_obj].
  change (String.append (String "{" ?x) rest) with (String "{" (String.append x rest)).
  f_equal.
  repeat (rewrite ?append_assoc;
          change (String.append (String ?c ?x) ?y) with (String c (String.append x y))).
  reflexivity.
Qed.

Lemma parse_members_key (f : nat) (k r : string) (acc : list (string * JSValue)) :
  parse_members (S f) (String.append (quote k) (String ":" r)) acc
  = match parse_value f r with
    | Bad => Bad
    | Wide => Wide
    | Ok (v, r3) =>
        match skip_ws r3 with
        | EmptyString => Bad
        | String d r4 =>
            if (code d =? 44)%N then parse_members f r4 (set_prop k v acc)
            else if (code d =? 125)%N then Ok (JObj (set_prop k v acc), r4)
            else Bad
        end
    end.
Proof.
  rewrite quote_append. cbn [parse_members skip_ws].
  change (json_ws dquote) with false. cbv iota.
  change ((code dquote =? 34)%N) with true. cbv iota.
  rewrite parse_quote_body. cbn [skip_ws].
  change (json_ws ":") with false. cbv iota.
  change ((code ":" =? 58)%N) with true. cbv iota. reflexivity.
Qed.

Lemma parse_members_more (f : nat) (k vt rest : string) (v : JSValue)
  (acc : list (string * JSValue)) :
  parse_value f (String.append vt (String "," rest)) = Ok (v, String "," rest) ->
  parse_members (S f)
    (String.append (quote k) (String ":" (String.append vt (String "," rest)))) acc
  = parse_members f rest (set_prop k v acc).
Proof. intros H. rewrite parse_members_key, H. reflexivity. Qed.

Lemma parse_members_last (f : nat) (k vt rest : string) (v : JSValue)
  (acc : list (string * JSValue)) :
  parse_value f (String.append vt (String "}" rest)) = Ok (v, String "}" rest) ->
  parse_members (S f)
    (String.append (quote k) (String ":" (String.append vt (String "}" rest)))) acc
  = Ok (JObj (set_prop k v acc), rest).
Proof. intros H. rewrite parse_members_key, H. reflexivity. Qed.

Lemma parse_value_open (f : nat) (k r : string) :
  parse_value (S f) (String "{" (String.append (quote k) r))
  = parse_members f (String.append (quote k) r) [].
Proof. rewrite quote_append. reflexivity. Qed.

Lemma parse_value_record (f : nat) (d : VideoData) (rest : string) :
  canonical (lastKnownVideoTime d) -> canonical (lastKnownSystemTime d) ->
  parse_value (5 + f) (String.append (stringify (VideoData_obj d)) rest)
  = Ok (VideoData_obj d, rest).
Proof.
  intros HT HS. rewrite stringify_record.
  change (5 + f) with (S (S (S (S (S f))))).
  rewrite parse_value_open.
  rewrite (parse_members_more _ _ _ _ (JStr (originalUrl d)))
    by apply parse_value_string.
  rewrite (parse_members_more _ _ _ _ (JNum (lastKnownVideoTime d)))
    by (apply parse_value_number; [exact HT | now repeat split]).
  rewrite (parse_members_last _ _ _ _ (JNum (lastKnownSystemTime d)))
    by (apply parse_value_number; [exact HS | now repeat split]).
  reflexivity.
Qed.

(** [JSON.parse(JSON.stringify(d))] is [d] again, for a record whose two
    numbers are written canonically. *)
Lemma parse_stringify_record (d : VideoData) :
  canonical (lastKnownVideoTime d) -> canonical (lastKnownSystemTime d) ->
  parse (stringify (VideoData_obj d)) = Normal (VideoData_obj d).
Proof.
  intros HT HS. unfold parse.
  set (text := stringify (VideoData_obj d)).
  assert (Hlen : exists f, 2 * String.length text + 2 = 5 + f).
  { assert (E := stringify_record d ""). rewrite append_nil_r in E.
    fold text in E. rewrite E. cbn [String.length]. eexists.
    rewrite Nat.mul_succ_r. rewrite <- Nat.add_assoc. simpl. reflexivity. }
  destruct Hlen as [f ->].
  rewrite <- (append_nil_r text). unfold text.
  rewrite (parse_value_record f d "" HT HS). reflexivity.
Qed.

End JSONTexts.

(** ** The playback record store *)

Section Store.

Lemma falsy_string_false (s : string) : s <> "" -> falsy_string s = false.
Proof. intros H. now apply String.eqb_neq. Qed.

Lemma setItem_accepts (k v : string) (ls : Storage) :
  accepts ls k v -> setItem k v ls = Normal (stored k v ls).
Proof.
  intros [He Hq]. unfold setItem, stored. rewrite He. cbn [negb].
  destruct (Nat.ltb_spec (quota ls) (used (<[k := v]> (items ls)))); [lia|].
  reflexivity.
Qed.

Lemma saveVideoData_accepts (videoId : string) (data : JSValue) (ls : Storage) :
  videoId <> "" -> accepts ls videoId (JSON.stringify data) ->
  saveVideoData videoId data ls = stored videoId (JSON.stringify data) ls.
Proof.
  intros Hid Ha. unfold saveVideoData, saveVideoData_c, saveVideoData_try.
  now rewrite (falsy_string_false _ Hid), (setItem_accepts _ _ _ Ha).
Qed.

Lemma saveVideoData_c_normal (videoId : string) (data : JSValue) (ls : Storage) :
  saveVideoData_c videoId data ls = Normal (saveVideoData videoId data ls).
Proof.
  unfold saveVideoData, saveVideoData_c.
  destruct (falsy_string videoId); [reflexivity|].
  now destruct (saveVideoData_try videoId data ls).
Qed.

(** [getVideoData] catches what the platform throws. *)
Lemma getVideoData_c_text (videoId text : string) (ls : Storage) :
  videoId <> "" -> enabled ls = true -> items ls !! videoId = Some text ->
  getVideoData_c videoId ls
  = match JSON.parse text with
    | Normal v => Normal v
    | Throw OutsideModel => Throw OutsideModel
    | Throw _ => Normal JNull
    end.
Proof.
  intros Hid He Hi. unfold getVideoData_c, getVideoData_try, getItem.
  now rewrite (falsy_string_false _ Hid), He, Hi.
Qed.

Lemma getVideoData_c_none (videoId : string) (ls : Storage) :
  enabled ls = false \/ items ls !! videoId = None ->
  getVideoData_c videoId ls = Normal JNull.
Proof.
  intros H. unfold getVideoData_c, getVideoData_try, getItem.
  destruct (falsy_string videoId); [reflexivity|].
  destruct (enabled ls); [|reflexivity].
  destruct H as [H|H]; [discriminate H|]. now rewrite H.
Qed.

Lemma getVideoData_text (videoId text : string) (ls : Storage) :
  videoId <> "" -> enabled ls = true -> items ls !! videoId = Some text ->
  getVideoData videoId ls
  = match JSON.parse text with
    | Normal v => v
    | Throw _ => JNull
    end.
Proof.
  intros Hid He Hi. unfold getVideoData, getVideoData_c, getVideoData_try, getItem.
  rewrite (falsy_string_false _ Hid), He, Hi.
  now destruct (JSON.parse text) as [v|[]].
Qed.

Lemma getVideoData_stored (videoId : string) (d : VideoData) (ls : Storage) :
  videoId <> "" -> enabled ls = true -> valid_record d ->
  getVideoData videoId (stored videoId (JSON.stringify (VideoData_obj d)) ls)
  = VideoData_obj d.
Proof.
  intros Hid He [HT HS].
  rewrite (getVideoData_text videoId (JSON.stringify (VideoData_obj d))).
  - now rewrite parse_stringify_record.
  - exact Hid.
  - exact He.
  - apply lookup_insert_eq.
Qed.

Lemma getVideoData_stores (videoId : string) (d : VideoData) (ls : Storage) :
  videoId <> "" -> stores ls videoId d ->
  getVideoData videoId ls = VideoData_obj d.
Proof.
  intros Hid (He & Hi & HT & HS).
  rewrite (getVideoData_text _ _ _ Hid He Hi).
  now rewrite parse_stringify_record.
Qed.

Lemma stores_stored (videoId : string) (d : VideoData) (ls : Storage) :
  enabled ls = true -> valid_record d ->
  stores (stored videoId (JSON.stringify (VideoData_obj d)) ls) videoId d.
Proof.
  intros He Hv. split; [exact He|]. split; [|exact Hv].
  apply lookup_insert_eq.
Qed.

End Store.

(** C2. For every non-empty identifier and every valid record, with the
    storage available, [getVideoData] right after [saveVideoData] returns the
    record that was saved. *)
Theorem load_after_save (videoId : string) (r : VideoData) (ls : Storage) :
  videoId <> "" -> valid_record r ->
  accepts ls videoId (JSON.stringify (VideoData_obj r)) ->
  getVideoData videoId (saveVideoData videoId (VideoData_obj r) ls)
  = VideoData_obj r.
Proof.
  intros Hid Hr Ha. rewrite (saveVideoData_accepts _ _ _ Hid Ha).
  apply getVideoData_stored; [exact Hid | apply Ha | exact Hr].
Qed.

Lemma load_after_save_witness :
  getVideoData "dQw4w9WgXcQ"
    (saveVideoData "dQw4w9WgXcQ"
       (VideoData_obj {| originalUrl := "https://youtu.be/dQw4w9WgXcQ";
                         lastKnownVideoTime := Num 45125 3;
                         lastKnownSystemTime := Num 1700000000000 0 |})
       {| items := ∅; enabled := true; quota := 5000 |})
  = VideoData_obj {| originalUrl := "https://youtu.be/dQw4w9WgXcQ";
                     lastKnownVideoTime := Num 45125 3;
                     lastKnownSystemTime := Num 1700000000000 0 |}.
Proof.
  apply load_after_save.
  - discriminate.
  - split; reflexivity.
  - split; [reflexivity|]. vm_compute. lia.
Defined.

(** C6, as it is stated, fails: the text [42] stored under an identifier is
    not the text of a record, and [getVideoData] returns the number 42, not
    [null]. *)
Lemma corrupt_value_returned :
  corrupt "42"
  /\ getVideoData "dQw4w9WgXcQ"
       {| items := {[ "dQw4w9WgXcQ" := "42" ]}; enabled := true; quota := 5000 |}
     = JNum (Num 42 0)
  /\ getVideoData "dQw4w9WgXcQ"
       {| items := {[ "dQw4w9WgXcQ" := "42" ]}; enabled := true; quota := 5000 |}
     <> JNull.
Proof.
  assert (E : getVideoData "dQw4w9WgXcQ"
                {| items := {[ "dQw4w9WgXcQ" := "42" ]}; enabled := true; quota := 5000 |}
              = JNum (Num 42 0)).
  { rewrite (getVideoData_text "dQw4w9WgXcQ" "42").
    - reflexivity.
    - discriminate.
    - reflexivity.
    - apply lookup_singleton_eq. }
  split; [|split].
  - vm_compute. tauto.
  - exact E.
  - rewrite E. discriminate.
Qed.

(** C6, amended. For every non-empty identifier, [getVideoData] returns
    [null], and throws nothing, when no value is stored under the identifier,
    when the storage cannot be read, and when [JSON.parse] throws its
    [SyntaxError] on the stored text; a stored text that [JSON.parse] accepts
    is returned as it parses, without a check of its shape. No exception
    reaches the caller. (A text with an escape of a code unit from 256 on
    has a value that the strings of the model cannot hold: nothing is stated
    of it.) *)
Theorem getVideoData_absent (videoId : string) (ls : Storage) :
  videoId <> "" ->
  (items ls !! videoId = None -> getVideoData_c videoId ls = Normal JNull)
  /\ (enabled ls = false -> getVideoData_c videoId ls = Normal JNull)
  /\ (forall text : string,
        items ls !! videoId = Some text ->
        JSON.parse text = Throw SyntaxError ->
        getVideoData_c videoId ls = Normal JNull)
  /\ (forall (text : string) (v : JSValue),
        enabled ls = true -> items ls !! videoId = Some text ->
        JSON.parse text = Normal v -> getVideoData_c videoId ls = Normal v)
  /\ ((forall text : string,
         items ls !! videoId = Some text ->
         JSON.parse text <> Throw OutsideModel) ->
      getVideoData_c videoId ls = Normal (getVideoData videoId ls)).
Proof.
  intros Hid.
  split; [|split; [|split; [|split]]].
  - intros H. apply getVideoData_c_none. now right.
  - intros H. apply getVideoData_c_none. now left.
  - intros text Hi Ht. destruct (enabled ls) eqn:He.
    + now rewrite (getVideoData_c_text _ _ _ Hid He Hi), Ht.
    + apply getVideoData_c_none. now left.
  - intros text v He Hi Ht.
    now rewrite (getVideoData_c_text _ _ _ Hid He Hi), Ht.
  - intros Hm. unfold getVideoData.
    destruct (enabled ls) eqn:He;
      [|rewrite getVideoData_c_none; [reflexivity | now left]].
    destruct (items ls !! videoId) as [text|] eqn:Hi;
      [|rewrite getVideoData_c_none; [reflexivity | now right]].
    rewrite (getVideoData_c_text _ _ _ Hid He Hi).
    specialize (Hm text eq_refl).
    destruct (JSON.parse text) as [v|[]]; try reflexivity.
    now destruct Hm.
Qed.

(** A text that is not JSON reads as [null]; the text of an array, which is
    JSON but no record, is returned as parsed; nothing stored reads as
    [null]. *)
Lemma getVideoData_absent_witness :
  getVideoData_c "dQw4w9WgXcQ"
    {| items := {[ "dQw4w9WgXcQ" := "{bad" ]}; enabled := true; quota := 5000 |}
  = Normal JNull
  /\ getVideoData_c "dQw4w9WgXcQ"
       {| items := {[ "dQw4w9WgXcQ" := "[1,2]" ]}; enabled := true; quota := 5000 |}
     = Normal (JArr [JNum (Num 1 0); JNum (Num 2 0)])
  /\ getVideoData_c "dQw4w9WgXcQ"
       {| items := ∅; enabled := true; quota := 5000 |}
     = Normal JNull.
Proof.
  split; [|split].
  - refine (proj1 (proj2 (proj2
              (getVideoData_absent "dQw4w9WgXcQ"
                 {| items := {[ "dQw4w9WgXcQ" := "{bad" ]};
                    enabled := true; quota := 5000 |} _))) "{bad" _ _).
    + discriminate.
    + apply lookup_singleton_eq.
    + reflexivity.
  - refine (proj1 (proj2 (proj2 (proj2
              (getVideoData_absent "dQw4w9WgXcQ"
                 {| items := {[ "dQw4w9WgXcQ" := "[1,2]" ]};
                    enabled := true; quota := 5000 |} _)))) "[1,2]" _ _ _ _).
    + discriminate.
    + reflexivity.
    + apply lookup_singleton_eq.
    + reflexivity.
  - refine (proj1
              (getVideoData_absent "dQw4w9WgXcQ"
                 {| items := ∅; enabled := true; quota := 5000 |} _) _).
    + discriminate.
    + apply lookup_empty.
Defined.

(** ** The pages *)

Section Pages.


Lemma spread_with_times (t : number) (now : Z) (d : VideoData) :
  spread (VideoData_obj d)
    [("lastKnownVideoTime", JNum t); ("lastKnownSystemTime", JNum (num_of_Z now))]
  = VideoData_obj (with_times t now d).
Proof. reflexivity. Qed.


Lemma loaded_mounted (st : PageState) (id : string) (d : VideoData) :
  mounted st id d -> loaded st = Some (VideoData_obj d, id).
Proof.
  intros (Hp & Hi & Hn). unfold loaded. rewrite Hp, Hi.
  now rewrite (falsy_string_false _ Hn).
Qed.

Lemma getVideoData_none (id : string) (ls : Storage) :
  items ls !! id = None -> getVideoData id ls = JNull.
Proof.
  intros H. unfold getVideoData, getVideoData_c, getVideoData_try, getItem.
  rewrite H. destruct (falsy_string id); [reflexivity|].
  now destruct (enabled ls).
Qed.

(** The time the page remembers is the last periodic report. *)
Lemma currentTime_step (e : Event) (st : PageState) (ls : Storage) :
  currentTime (fst (step e (st, ls))) = last_report [e] (currentTime st).
Proof.
  destruct e as [t now flush|p t now flush|now]; cbn [step last_report].
  - unfold handleTimeUpdate. now destruct (loaded st) as [[pd id]|].
  - unfold handlePlayerStateChange. now destruct (loaded st) as [[pd id]|].
  - reflexivity.
Qed.

Lemma last_report_cons (e : Event) (es : list Event) (t0 : number) :
  last_report (e :: es) t0 = last_report es (last_report [e] t0).
Proof. now destruct e. Qed.

Lemma currentTime_run (es : list Event) :
  forall (st : PageState) (ls : Storage),
    currentTime (fst (run es (st, ls))) = last_report es (currentTime st).
Proof.
  induction es as [|e es IH]; intros st ls; [reflexivity|].
  rewrite last_report_cons, <- currentTime_step with (ls := ls).
  cbn [run fold_left]. destruct (step e (st, ls)) as [st' ls']. apply IH.
Qed.

Lemma mounted_step (e : Event) (st : PageState) (ls : Storage) (id : string)
  (d : VideoData) :
  mounted st id d ->
  exists d', mounted (fst (step e (st, ls))) id d'
             /\ originalUrl d' = originalUrl d.
Proof.
  intros Hm. assert (Hl := loaded_mounted _ _ _ Hm).
  destruct Hm as (Hp & Hi & Hn).
  destruct e as [t now flush|p t now flush|now]; cbn [step].
  - unfold handleTimeUpdate. rewrite Hl, spread_with_times. cbn [fst].
    exists (with_times t now d). now repeat split.
  - unfold handlePlayerStateChange. rewrite Hl, spread_with_times. cbn [fst].
    exists (with_times t now d). now repeat split.
  - exists d. now repeat split.
Qed.

Lemma mounted_run (es : list Event) (id : string) :
  forall (st : PageState) (ls : Storage) (d : VideoData),
    mounted st id d ->
    exists d', mounted (fst (run es (st, ls))) id d'
               /\ originalUrl d' = originalUrl d.
Proof.
  induction es as [|e es IH]; intros st ls d Hm; [now exists d|].
  destruct (mounted_step e st ls id d Hm) as (d1 & Hm1 & Hu1).
  cbn [run fold_left]. destruct (step e (st, ls)) as [st' ls'].
  destruct (IH st' ls' d1 Hm1) as (d2 & Hm2 & Hu2).
  exists d2. split; [exact Hm2 | congruence].
Qed.

Lemma handleBeforeUnload_mounted (st : PageState) (id : string) (d : VideoData)
  (now : Z) (ls : Storage) :
  mounted st id d ->
  handleBeforeUnload st now ls
  = if num_ltb num_zero (currentTime st)
    then saveVideoData id (VideoData_obj (with_times (currentTime st) now d)) ls
    else ls.
Proof.
  intros Hm. unfold handleBeforeUnload.
  now rewrite (loaded_mounted _ _ _ Hm), spread_with_times.
Qed.

Lemma handleBeforeUnload_not_positive (st : PageState) (now : Z) (ls : Storage) :
  (num_Q (currentTime st) <= 0)%Q -> handleBeforeUnload st now ls = ls.
Proof.
  intros H. unfold handleBeforeUnload.
  destruct (loaded st) as [[pd id]|]; [|reflexivity].
  assert (E : num_ltb num_zero (currentTime st) = false)
    by now apply num_ltb_Q_false.
  now rewrite E.
Qed.

Lemma last_report_not_positive (es : list Event) :
  forall t0 : number,
    (num_Q t0 <= 0)%Q ->
    (forall t now flush, In (TimeUpdate t now flush) es -> (num_Q t <= 0)%Q) ->
    (num_Q (last_report es t0) <= 0)%Q.
Proof.
  induction es as [|e es IH]; intros t0 H0 Hes; [exact H0|].
  destruct e as [t now flush|p t now flush|now]; cbn [last_report];
    apply IH; try exact H0; try (intros; eapply Hes; right; eassumption).
  eapply Hes. left. reflexivity.
Qed.


(** The operators of the mount effect on two numbers. *)
Lemma start_of_numbers (T S : double) (N : Z) :
  (let newStartTime :=
     js_plus (PNumber T)
       (js_divide (js_minus (PNumber (double_of_Z N)) (PNumber S))
          (PNumber (double_of_Z 1000))) in
   if js_less newStartTime (PNumber (double_of_Z 0))
   then PNumber (double_of_Z 0) else newStartTime)
  = PNumber (resumeTime T S N).
Proof.
  cbv zeta. unfold resumeTime.
  change (js_plus (PNumber T)
            (js_divide (js_minus (PNumber (double_of_Z N)) (PNumber S))
               (PNumber (double_of_Z 1000))))
    with (PNumber (js_add T (js_div (js_sub (double_of_Z N) S) (double_of_Z 1000)))).
  set (x := js_add T (js_div (js_sub (double_of_Z N) S) (double_of_Z 1000))).
  change (js_less (PNumber x) (PNumber (double_of_Z 0)))
    with (js_lt x (double_of_Z 0)).
  now destruct (js_lt x (double_of_Z 0)).
Qed.

Lemma truthy_prop_url (d : VideoData) :
  originalUrl d <> "" -> truthy_prop (VideoData_obj d) "originalUrl" = true.
Proof.
  intros Hurl.
  change (truthy_prop (VideoData_obj d) "originalUrl")
    with (negb (String.eqb (originalUrl d) "")).
  apply Bool.negb_true_iff, String.eqb_neq, Hurl.
Qed.

(** The mount effect on a record that [getVideoData] finds. *)
Lemma mountEffect_found (id : string) (d : VideoData) (N : Z) (ls : Storage)
  (st : PageState) :
  id <> "" -> originalUrl d <> "" ->
  getVideoData id ls = VideoData_obj d ->
  mountEffect (Some id) N ls st
  = Loaded {| currentVideoId := Some id;
              playerData := Some (VideoData_obj d);
              calculatedStartTime :=
                PNumber (resumeTime (to_double (lastKnownVideoTime d))
                           (to_double (lastKnownSystemTime d)) N);
              isLoading := false;
              currentTime := currentTime st |}.
Proof.
  intros Hid Hurl Hget. unfold mountEffect.
  rewrite (falsy_string_false _ Hid), Hget, (truthy_prop_url d Hurl).
  cbn [negb].
  change (ToPrimitive (get_prop (VideoData_obj d) "lastKnownSystemTime"))
    with (Normal (PNumber (to_double (lastKnownSystemTime d)))).
  change (ToPrimitive (get_prop (VideoData_obj d) "lastKnownVideoTime"))
    with (Normal (PNumber (to_double (lastKnownVideoTime d)))).
  cbv beta iota.
  now rewrite start_of_numbers.
Qed.

End Pages.
(** ** The properties of the pages *)

(** C1, as it is stated, fails: the page computes on doubles, and the result
    of its two roundings is not [max(0, T + (N - S) / 1000)]. With the video
    time 45.3 and the system time 0 stored, and the clock at 123, the formula
    gives 45.423; the start time of the page is the double written
    45.422999999999995, one unit in the last place below the double that is
    nearest to 45.423. *)
Lemma resume_time_rounded :
  mountEffect (Some "dQw4w9WgXcQ") 123
    {| items := {[ "dQw4w9WgXcQ" :=
                     JSON.stringify
                       (VideoData_obj
                          {| originalUrl := "https://youtu.be/dQw4w9WgXcQ";
                             lastKnownVideoTime := Num 453 1;
                             lastKnownSystemTime := Num 0 0 |}) ]};
       enabled := true; quota := 5000 |} initialState
  = Loaded
      {| currentVideoId := Some "dQw4w9WgXcQ";
         playerData :=
           Some (VideoData_obj
                   {| originalUrl := "https://youtu.be/dQw4w9WgXcQ";
                      lastKnownVideoTime := Num 453 1;
                      lastKnownSystemTime := Num 0 0 |});
         calculatedStartTime :=
           PNumber (S754_finite false 6392718933564063 (-47));
         isLoading := false;
         currentTime := num_zero |}
  /\ NumberToString (S754_finite false 6392718933564063 (-47))
     = "45.422999999999995"
  /\ spec_resumeTime (Num 453 1) (Num 0 0) 123 = Num 45423 3
  /\ to_double (Num 45423 3) = S754_finite false 6392718933564064 (-47)
  /\ double_number (S754_finite false 6392718933564063 (-47))
     = Some (Num 4542299999999999471356204594485461711883544921875 47)
  /\ ~ (num_Q (Num 4542299999999999471356204594485461711883544921875 47)
        == Qmax 0 (num_Q (Num 453 1) + (inject_Z 123 - num_Q (Num 0 0)) / 1000))%Q.
Proof.
  split; [vm_compute; reflexivity|].
  split; [vm_compute; reflexivity|].
  split; [reflexivity|].
  split; [vm_compute; reflexivity|].
  split; [vm_compute; reflexivity|].
  rewrite <- spec_resumeTime_Q. vm_compute. discriminate.
Qed.

(** C1, amended. For every stored record with video time [T] and system time
    [S], and every clock value [N], the start time of the playback page is
    the result, in double-precision arithmetic, of [T + (N - S) / 1000] on
    the doubles nearest to [T] and [S], replaced by 0 when it is below 0 and
    by nothing else: the start time is never below 0, and it is the sum
    itself, which may be below [T], whenever the sum is not below 0. *)
Theorem resume_time_in_doubles (id : string) (d : VideoData) (N : Z)
  (ls : Storage) (st : PageState) :
  id <> "" -> originalUrl d <> "" -> stores ls id d ->
  exists (st' : PageState) (sum start : double),
    mountEffect (Some id) N ls st = Loaded st'
    /\ playerData st' = Some (VideoData_obj d)
    /\ calculatedStartTime st' = PNumber start
    /\ sum = js_add (to_double (lastKnownVideoTime d))
               (js_div (js_sub (double_of_Z N)
                                (to_double (lastKnownSystemTime d)))
                       (double_of_Z 1000))
    /\ start = (if js_lt sum (double_of_Z 0) then double_of_Z 0 else sum)
    /\ js_lt start (double_of_Z 0) = false.
Proof.
  intros Hid Hurl Hs.
  rewrite (mountEffect_found id d N ls st Hid Hurl
             (getVideoData_stores id d ls Hid Hs)).
  eexists. eexists. eexists.
  split; [reflexivity|]. split; [reflexivity|]. split; [reflexivity|].
  split; [reflexivity|]. split; [reflexivity|].
  unfold resumeTime.
  set (x := js_add (to_double (lastKnownVideoTime d)) _).
  destruct (js_lt x (double_of_Z 0)) eqn:E; [reflexivity | exact E].
Qed.

(** The record (100, 10000) read at the clock 5000, five seconds before it
    was written: the start time is 95, below the video time stored. *)
Lemma resume_time_in_doubles_witness :
  exists (st' : PageState) (sum start : double),
    mountEffect (Some "dQw4w9WgXcQ") 5000
      {| items := {[ "dQw4w9WgXcQ" :=
                       JSON.stringify
                         (VideoData_obj
                            {| originalUrl := "https://youtu.be/dQw4w9WgXcQ";
                               lastKnownVideoTime := Num 100 0;
                               lastKnownSystemTime := Num 10000 0 |}) ]};
         enabled := true; quota := 5000 |} initialState
    = Loaded st'
    /\ playerData st'
       = Some (VideoData_obj
                 {| originalUrl := "https://youtu.be/dQw4w9WgXcQ";
                    lastKnownVideoTime := Num 100 0;
                    lastKnownSystemTime := Num 10000 0 |})
    /\ calculatedStartTime st' = PNumber start
    /\ sum = js_add (to_double (Num 100 0))
               (js_div (js_sub (double_of_Z 5000) (to_double (Num 10000 0)))
                       (double_of_Z 1000))
    /\ start = (if js_lt sum (double_of_Z 0) then double_of_Z 0 else sum)
    /\ js_lt start (double_of_Z 0) = false.
Proof.
  apply (resume_time_in_doubles "dQw4w9WgXcQ"
           {| originalUrl := "https://youtu.be/dQw4w9WgXcQ";
              lastKnownVideoTime := Num 100 0;
              lastKnownSystemTime := Num 10000 0 |}).
  - discriminate.
  - discriminate.
  - split; [reflexivity|]. split; [apply lookup_singleton_eq|].
    split; reflexivity.
Defined.






(** C8, as it is stated, fails: a URL is submitted at 1000, the playback page
    mounts at 1500 and is left at 7000 before the player has reported a time.
    No final save is performed: the storage is the same after the page is
    left, and the system time of the record is still 1000. *)
Lemma no_final_save_without_report :
  exists (ls : Storage) (st : PageState),
    handleSaveUrl "https://youtu.be/dQw4w9WgXcQ" 1000
      {| items := ∅; enabled := true; quota := 5000 |}
    = Navigated "dQw4w9WgXcQ" ls
    /\ mountEffect (Some "dQw4w9WgXcQ") 1500 ls initialState = Loaded st
    /\ unmount 7000 (run [] (st, ls)) = ls
    /\ getVideoData "dQw4w9WgXcQ" (unmount 7000 (run [] (st, ls)))
       = VideoData_obj (new_record "https://youtu.be/dQw4w9WgXcQ" 1000).
Proof.
  eexists _, _. split; [reflexivity|]. split; [vm_compute; reflexivity|].
  split; [reflexivity|]. vm_compute. reflexivity.
Qed.

(** The time that a change of state of the player carries is not the time
    the page remembers: after a periodic report of 45 and a pause at 47.5,
    the save on leaving writes 45. *)
Example state_change_time_not_remembered :
  getVideoData "dQw4w9WgXcQ"
    (unmount 7000
       (run [TimeUpdate (Num 45 0) 5000 5001;
             StateChange false (Num 475 1) 5600 5601]
          ({| currentVideoId := Some "dQw4w9WgXcQ";
              playerData :=
                Some (VideoData_obj (new_record "https://youtu.be/dQw4w9WgXcQ" 1000));
              calculatedStartTime := num_zero;
              isLoading := false;
              currentTime := num_zero |},
           {| items := ∅; enabled := true; quota := 5000 |})))
  = VideoData_obj {| originalUrl := "https://youtu.be/dQw4w9WgXcQ";
                     lastKnownVideoTime := Num 45 0;
                     lastKnownSystemTime := Num 7000 0 |}.
Proof. vm_compute. reflexivity. Qed.

(** C8, amended. When the playback page shows a record and the last periodic
    report of the player is strictly positive, leaving the page (the
    [beforeunload] event as well as the unmount) performs one save, with the
    storage available: the video time written is exactly that last report,
    not extrapolated, and the system time written is the time of the save. *)
Theorem final_save_last_report (id : string) (d : VideoData) (st : PageState)
  (ls : Storage) (es : list Event) (now : Z) :
  mounted st id d ->
  (0 < num_Q (last_report es (currentTime st)))%Q ->
  accepts (snd (run es (st, ls))) id
    (JSON.stringify
       (VideoData_obj
          {| originalUrl := originalUrl d;
             lastKnownVideoTime := last_report es (currentTime st);
             lastKnownSystemTime := num_of_Z now |})) ->
  unmount now (run es (st, ls))
  = stored id
      (JSON.stringify
         (VideoData_obj
            {| originalUrl := originalUrl d;
               lastKnownVideoTime := last_report es (currentTime st);
               lastKnownSystemTime := num_of_Z now |}))
      (snd (run es (st, ls)))
  /\ snd (step (BeforeUnload now) (run es (st, ls)))
     = unmount now (run es (st, ls)).
Proof.
  intros Hm Hpos Ha.
  destruct (mounted_run es id st ls d Hm) as (d' & Hm' & Hu).
  assert (Hc := currentTime_run es st ls).
  split.
  - unfold unmount. rewrite (handleBeforeUnload_mounted _ _ _ _ _ Hm'), Hc.
    change 0%Q with (num_Q num_zero) in Hpos. apply num_ltb_Q in Hpos.
    rewrite Hpos. unfold with_times. rewrite Hu.
    apply saveVideoData_accepts; [apply Hm | exact Ha].
  - unfold unmount. now destruct (run es (st, ls)).
Qed.

Lemma final_save_last_report_witness :
  unmount 7000
    (run [TimeUpdate (Num 45 0) 5000 5001]
       ({| currentVideoId := Some "dQw4w9WgXcQ";
           playerData :=
             Some (VideoData_obj (new_record "https://youtu.be/dQw4w9WgXcQ" 1000));
           calculatedStartTime := num_zero;
           isLoading := false;
           currentTime := num_zero |},
        {| items := ∅; enabled := true; quota := 5000 |}))
  = stored "dQw4w9WgXcQ"
      (JSON.stringify
         (VideoData_obj
            {| originalUrl := "https://youtu.be/dQw4w9WgXcQ";
               lastKnownVideoTime := Num 45 0;
               lastKnownSystemTime := num_of_Z 7000 |}))
      (snd (run [TimeUpdate (Num 45 0) 5000 5001]
              ({| currentVideoId := Some "dQw4w9WgXcQ";
                  playerData :=
                    Some (VideoData_obj
                            (new_record "https://youtu.be/dQw4w9WgXcQ" 1000));
                  calculatedStartTime := num_zero;
                  isLoading := false;
                  currentTime := num_zero |},
               {| items := ∅; enabled := true; quota := 5000 |}))).
Proof.
  refine (proj1 (final_save_last_report "dQw4w9WgXcQ"
                   (new_record "https://youtu.be/dQw4w9WgXcQ" 1000)
                   {| currentVideoId := Some "dQw4w9WgXcQ";
                      playerData :=
                        Some (VideoData_obj
                                (new_record "https://youtu.be/dQw4w9WgXcQ" 1000));
                      calculatedStartTime := num_zero;
                      isLoading := false;
                      currentTime := num_zero |}
                   {| items := ∅; enabled := true; quota := 5000 |}
                   [TimeUpdate (Num 45 0) 5000 5001] 7000 _ _ _)).
  - repeat split. discriminate.
  - reflexivity.
  - split; [reflexivity|]. vm_compute. lia.
Defined.

(** C10. The save on leaving the page is performed only when the time the
    page remembers, the last periodic report, is strictly positive. When
    that time is not positive, as after a mount with no periodic report or
    with reports that are not positive, leaving the page changes nothing in
    the storage. *)
Theorem leaving_saves_only_positive_time (st : PageState) (now : Z)
  (ls : Storage) :
  ((num_Q (currentTime st) <= 0)%Q -> handleBeforeUnload st now ls = ls)
  /\ (handleBeforeUnload st now ls <> ls -> (0 < num_Q (currentTime st))%Q)
  /\ (forall es : list Event,
        (num_Q (currentTime st) <= 0)%Q ->
        (forall t n f, In (TimeUpdate t n f) es -> (num_Q t <= 0)%Q) ->
        unmount now (run es (st, ls)) = snd (run es (st, ls))
        /\ snd (step (BeforeUnload now) (run es (st, ls)))
           = snd (run es (st, ls))).
Proof.
  split; [|split].
  - apply handleBeforeUnload_not_positive.
  - intros Hne. destruct (Qlt_le_dec 0 (num_Q (currentTime st))) as [H|H];
      [exact H|].
    now destruct (Hne (handleBeforeUnload_not_positive st now ls H)).
  - intros es H0 Hes.
    assert (Hc := currentTime_run es st ls).
    assert (Hle := last_report_not_positive es (currentTime st) H0 Hes).
    rewrite <- Hc in Hle.
    destruct (run es (st, ls)) as [st' ls']. unfold unmount. cbn [fst snd step] in *.
    now rewrite (handleBeforeUnload_not_positive st' now ls' Hle).
Qed.

Lemma leaving_saves_only_positive_time_witness :
  handleBeforeUnload
    {| currentVideoId := Some "dQw4w9WgXcQ";
       playerData :=
         Some (VideoData_obj (new_record "https://youtu.be/dQw4w9WgXcQ" 1000));
       calculatedStartTime := num_zero;
       isLoading := false;
       currentTime := num_zero |} 7000
    {| items := ∅; enabled := true; quota := 5000 |}
  = {| items := ∅; enabled := true; quota := 5000 |}.
Proof.
  refine (proj1 (leaving_saves_only_positive_time
                   {| currentVideoId := Some "dQw4w9WgXcQ";
                      playerData :=
                        Some (VideoData_obj
                                (new_record "https://youtu.be/dQw4w9WgXcQ" 1000));
                      calculatedStartTime := num_zero;
                      isLoading := false;
                      currentTime := num_zero |} 7000
                   {| items := ∅; enabled := true; quota := 5000 |}) _).
  discriminate.
Defined.

(** ** The scenarios of the specification, run on the model *)

(** [T = 100], [S = now - 30000]: the page resumes at 130. *)
Example resume_after_thirty_seconds :
  resumeTime (Num 100 0) (Num 1000 0) 31000 = double_of_Z 130.
Proof. vm_compute. reflexivity. Qed.

(** [T = 5], [S = now + 5000]: the page resumes at 0, below [T]. *)
Example resume_with_clock_skew :
  resumeTime (Num 5 0) (Num 10000 0) 5000 = double_of_Z 0.
Proof. vm_compute. reflexivity. Qed.

(** [T = 1e16], written one millisecond after the clock value read: the
    second that is taken off is lost in the rounding of the sum, and the
    page resumes at [T]. *)
Example resume_absorbed :
  resumeTime (Num 10000000000000000 0) (Num 1 0) 0
  = to_double (Num 10000000000000000 0).
Proof. vm_compute. reflexivity. Qed.

(** Times that JSON can carry and a double cannot: [1e400] reads as
    [Infinity], and the start time of two such times is [NaN]. *)
Example resume_not_a_number :
  to_double (Num (10 ^ 400) 0) = Infinity
  /\ resumeTime (Num (10 ^ 400) 0) (Num (10 ^ 400) 0) 5000 = NaN
  /\ NumberToString NaN = "NaN".
Proof. repeat split; vm_compute; reflexivity. Qed.

(** The short link is submitted, its identifier is extracted, a record with
    video time 0 is created, and the playback page starts at offset 0. *)
Example submit_then_play :
  exists (ls : Storage) (st : PageState),
    submit "https://youtu.be/dQw4w9WgXcQ" 1000
      {| items := ∅; enabled := true; quota := 5000 |}
    = FormSaved (Navigated "dQw4w9WgXcQ" ls)
    /\ getVideoData "dQw4w9WgXcQ" ls
       = VideoData_obj (new_record "https://youtu.be/dQw4w9WgXcQ" 1000)
    /\ mountEffect (Some "dQw4w9WgXcQ") 1000 ls initialState = Loaded st
    /\ calculatedStartTime st = PNumber (double_of_Z 0).
Proof.
  eexists _, _. split; [vm_compute; reflexivity|].
  split; [vm_compute; reflexivity|]. split; [vm_compute; reflexivity|].
  reflexivity.
Qed.

(** A periodic report of 45 at 5000, then the page is left at 7000 without
    another report: the record written on leaving has video time 45 and
    system time 7000. *)
Example report_then_leave :
  getVideoData "dQw4w9WgXcQ"
    (unmount 7000
       (run [TimeUpdate (Num 45 0) 5000 5001]
          ({| currentVideoId := Some "dQw4w9WgXcQ";
              playerData :=
                Some (VideoData_obj (new_record "https://youtu.be/dQw4w9WgXcQ" 1000));
              calculatedStartTime := num_zero;
              isLoading := false;
              currentTime := num_zero |},
           {| items := ∅; enabled := true; quota := 5000 |})))
  = VideoData_obj {| originalUrl := "https://youtu.be/dQw4w9WgXcQ";
                     lastKnownVideoTime := Num 45 0;
                     lastKnownSystemTime := Num 7000 0 |}.
Proof. vm_compute. reflexivity. Qed.

(** A text that is not JSON, and an identifier that was never saved. *)
Example load_malformed_or_missing :
  getVideoData "dQw4w9WgXcQ"
    {| items := {[ "dQw4w9WgXcQ" := "{bad" ]}; enabled := true; quota := 5000 |}
  = JNull
  /\ getVideoData "dQw4w9WgXcQ" {| items := ∅; enabled := true; quota := 5000 |}
     = JNull.
Proof. split; vm_compute; reflexivity. Qed.

(** A stored value is not checked against the interface. One that has a URL
    and no times mounts with the start time [NaN]; one whose video time is
    the string [12] mounts, a second and a half after its system time, with
    the string [121.5] as start time, which the player floors to 121; one
    whose system time is an object with a property [toString] makes the
    effect throw. *)
Example mount_unchecked_values :
  (exists st : PageState,
     mountEffect (Some "dQw4w9WgXcQ") 2500
       {| items := {[ "dQw4w9WgXcQ" :=
                        JSON.stringify
                          (JObj [("originalUrl",
                                  JStr "https://youtu.be/dQw4w9WgXcQ")]) ]};
          enabled := true; quota := 5000 |} initialState
     = Loaded st
     /\ calculatedStartTime st = PNumber NaN)
  /\ (exists st : PageState,
        mountEffect (Some "dQw4w9WgXcQ") 2500
          {| items := {[ "dQw4w9WgXcQ" :=
                           JSON.stringify
                             (JObj [("originalUrl",
                                     JStr "https://youtu.be/dQw4w9WgXcQ");
                                    ("lastKnownVideoTime", JStr "12");
                                    ("lastKnownSystemTime", JNum (Num 1000 0))]) ]};
             enabled := true; quota := 5000 |} initialState
        = Loaded st
        /\ calculatedStartTime st = PString "121.5"
        /\ Math_floor (calculatedStartTime st) = double_of_Z 121)
  /\ mountEffect (Some "dQw4w9WgXcQ") 2500
       {| items := {[ "dQw4w9WgXcQ" :=
                        JSON.stringify
                          (JObj [("originalUrl",
                                  JStr "https://youtu.be/dQw4w9WgXcQ");
                                 ("lastKnownVideoTime", JNum (Num 12 0));
                                 ("lastKnownSystemTime",
                                  JObj [("toString", JNum (Num 1 0))])]) ]};
          enabled := true; quota := 5000 |} initialState
     = Thrown TypeError.
Proof.
  split; [|split].
  - eexists. split; vm_compute; reflexivity.
  - eexists. split; [vm_compute; reflexivity|]. split; vm_compute; reflexivity.
  - vm_compute. reflexivity.
Qed.

(** A text with the escape of a code unit from 256 on: [JSON.parse] accepts
    it, and the model, whose strings do not hold the unit, says so. *)
Example parse_wide_escape :
  JSON.parse (String JSON.dquote
                (String JSON.backslash
                   (String.append "u0416" (String JSON.dquote ""))))
  = Throw OutsideModel.
Proof. reflexivity. Qed.

(** * Further properties of the code *)

(** ** The store: failures, frames and removal *)

Section StoreFacts.

Lemma getVideoData_same_entry (k : string) (ls ls' : Storage) :
  enabled ls' = enabled ls -> items ls' !! k = items ls !! k ->
  getVideoData k ls' = getVideoData k ls.
Proof.
  intros He Hi. unfold getVideoData, getVideoData_c, getVideoData_try, getItem.
  now rewrite He, Hi.
Qed.

Lemma setItem_cases (k v : string) (ls : Storage) :
  (accepts ls k v /\ setItem k v ls = Normal (stored k v ls))
  \/ (~ accepts ls k v /\ throws (setItem k v ls) = true).
Proof.
  unfold accepts, setItem. destruct (enabled ls) eqn:He; cbn [negb].
  - destruct (Nat.ltb_spec (quota ls) (used (<[k := v]> (items ls)))) as [H|H].
    + right. split; [lia | reflexivity].
    + left. split; [now split|]. unfold stored. now rewrite He.
  - right. split; [now intros [? _] | reflexivity].
Qed.

Lemma saveVideoData_cases (videoId : string) (data : JSValue) (ls : Storage) :
  (videoId <> "" /\ accepts ls videoId (JSON.stringify data)
   /\ saveVideoData videoId data ls = stored videoId (JSON.stringify data) ls)
  \/ ((videoId = "" \/ ~ accepts ls videoId (JSON.stringify data))
      /\ saveVideoData videoId data ls = ls).
Proof.
  unfold saveVideoData, saveVideoData_c, saveVideoData_try, falsy_string.
  destruct (String.eqb_spec videoId "") as [->|Hid]; [right; now split; [left|]|].
  destruct (setItem_cases videoId (JSON.stringify data) ls) as [[Ha E]|[Ha E]].
  - left. now rewrite E.
  - right. split; [now right|].
    now destruct (setItem videoId (JSON.stringify data) ls).
Qed.

Lemma saveVideoData_other (videoId k : string) (data : JSValue) (ls : Storage) :
  k <> videoId ->
  items (saveVideoData videoId data ls) !! k = items ls !! k.
Proof.
  intros Hk. destruct (saveVideoData_cases videoId data ls) as [(_ & _ & ->)|[_ ->]];
    [|reflexivity].
  now apply lookup_insert_ne.
Qed.

Lemma saveVideoData_settings (videoId : string) (data : JSValue) (ls : Storage) :
  enabled (saveVideoData videoId data ls) = enabled ls
  /\ quota (saveVideoData videoId data ls) = quota ls.
Proof.
  destruct (saveVideoData_cases videoId data ls) as [(_ & _ & ->)|[_ ->]];
    now split.
Qed.

Lemma clearVideoData_cases (videoId : string) (ls : Storage) :
  (videoId <> "" /\ enabled ls = true
   /\ clearVideoData videoId ls
      = {| items := delete videoId (items ls);
           enabled := enabled ls; quota := quota ls |})
  \/ ((videoId = "" \/ enabled ls = false) /\ clearVideoData videoId ls = ls).
Proof.
  unfold clearVideoData, clearVideoData_c, removeItem, falsy_string.
  destruct (String.eqb_spec videoId "") as [->|Hid]; [right; now split; [left|]|].
  destruct (enabled ls) eqn:He; cbn [negb].
  - left. now repeat split.
  - right. now split; [right|].
Qed.

End StoreFacts.

(** X1. [saveVideoData] never throws, and it changes the storage only when
    the identifier is not empty and the storage takes the entry: then the
    text of the value stands under the identifier; in every other case (an
    empty identifier, a storage that may not be used, no room) the storage
    is left as it was. *)
Theorem saveVideoData_best_effort (videoId : string) (data : JSValue)
  (ls : Storage) :
  throws (saveVideoData_c videoId data ls) = false
  /\ (saveVideoData videoId data ls <> ls ->
      videoId <> "" /\ accepts ls videoId (JSON.stringify data))
  /\ (videoId <> "" -> accepts ls videoId (JSON.stringify data) ->
      items (saveVideoData videoId data ls) !! videoId
      = Some (JSON.stringify data))
  /\ (videoId = "" \/ enabled ls = false
      \/ quota ls < used (<[videoId := JSON.stringify data]> (items ls)) ->
      saveVideoData videoId data ls = ls).
Proof.
  split; [now rewrite saveVideoData_c_normal|].
  destruct (saveVideoData_cases videoId data ls) as [(Hid & Ha & E)|[H E]].
  - split; [now intros _|]. split.
    + intros _ _. rewrite E. apply lookup_insert_eq.
    + intros [->|[He|Hq]]; [now destruct Hid| |]; destruct Ha as [Ha1 Ha2].
      * congruence.
      * lia.
  - split; [now intros Hne; destruct Hne|]. split.
    + intros Hid Ha. now destruct H.
    + now intros _.
Qed.

Lemma saveVideoData_best_effort_witness :
  saveVideoData "dQw4w9WgXcQ"
    (VideoData_obj (new_record "https://youtu.be/dQw4w9WgXcQ" 1000))
    {| items := ∅; enabled := false; quota := 5000 |}
  = {| items := ∅; enabled := false; quota := 5000 |}.
Proof.
  refine (proj2 (proj2 (proj2
            (saveVideoData_best_effort "dQw4w9WgXcQ"
               (VideoData_obj (new_record "https://youtu.be/dQw4w9WgXcQ" 1000))
               {| items := ∅; enabled := false; quota := 5000 |}))) _).
  right. left. reflexivity.
Defined.

(** X2. A save under one identifier leaves what [getVideoData] returns for
    every other identifier as it was, whether the save succeeds or not; and
    of two saves under the same identifier the second is the one that is
    read back. *)
Theorem saveVideoData_frame_and_overwrite (videoId : string) (data : JSValue)
  (ls : Storage) :
  (forall k : string,
     k <> videoId ->
     getVideoData k (saveVideoData videoId data ls) = getVideoData k ls)
  /\ (forall r : VideoData,
        videoId <> "" -> valid_record r ->
        accepts (saveVideoData videoId data ls) videoId
          (JSON.stringify (VideoData_obj r)) ->
        getVideoData videoId
          (saveVideoData videoId (VideoData_obj r)
             (saveVideoData videoId data ls))
        = VideoData_obj r
        /\ forall k : string,
             k <> videoId ->
             items (saveVideoData videoId (VideoData_obj r)
                      (saveVideoData videoId data ls)) !! k
             = items ls !! k).
Proof.
  split.
  - intros k Hk. apply getVideoData_same_entry.
    + apply saveVideoData_settings.
    + now apply saveVideoData_other.
  - intros r Hid Hr Ha. split.
    + rewrite (saveVideoData_accepts _ _ _ Hid Ha).
      apply getVideoData_stored; [exact Hid | apply Ha | exact Hr].
    + intros k Hk. now rewrite !saveVideoData_other.
Qed.

Lemma saveVideoData_frame_and_overwrite_witness :
  getVideoData "dQw4w9WgXcQ"
    (saveVideoData "dQw4w9WgXcQ"
       (VideoData_obj (with_times (Num 45 0) 2000
                         (new_record "https://youtu.be/dQw4w9WgXcQ" 1000)))
       (saveVideoData "dQw4w9WgXcQ"
          (VideoData_obj (new_record "https://youtu.be/dQw4w9WgXcQ" 1000))
          {| items := ∅; enabled := true; quota := 5000 |}))
  = VideoData_obj (with_times (Num 45 0) 2000
                     (new_record "https://youtu.be/dQw4w9WgXcQ" 1000)).
Proof.
  refine (proj1 (proj2 (saveVideoData_frame_and_overwrite "dQw4w9WgXcQ"
                          (VideoData_obj
                             (new_record "https://youtu.be/dQw4w9WgXcQ" 1000))
                          {| items := ∅; enabled := true; quota := 5000 |})
                   (with_times (Num 45 0) 2000
                      (new_record "https://youtu.be/dQw4w9WgXcQ" 1000)) _ _ _)).
  - discriminate.
  - split; reflexivity.
  - split; [reflexivity|]. vm_compute. lia.
Defined.

(** X3. [clearVideoData] never throws. After it [getVideoData] returns
    [null] for the identifier, whatever was stored, and what it returns for
    every other identifier is as before; with the storage usable and the
    identifier not empty, the entry is gone. *)
Theorem clearVideoData_removes (videoId : string) (ls : Storage) :
  throws (clearVideoData_c videoId ls) = false
  /\ getVideoData videoId (clearVideoData videoId ls) = JNull
  /\ (forall k : string,
        k <> videoId ->
        getVideoData k (clearVideoData videoId ls) = getVideoData k ls)
  /\ (videoId <> "" -> enabled ls = true ->
      items (clearVideoData videoId ls) !! videoId = None)
  /\ (videoId = "" \/ enabled ls = false -> clearVideoData videoId ls = ls).
Proof.
  split.
  { unfold clearVideoData_c. destruct (falsy_string videoId); [reflexivity|].
    now destruct (removeItem videoId ls). }
  destruct (clearVideoData_cases videoId ls) as [(Hid & He & E)|[H E]]; rewrite E.
  - split; [|split; [|split]].
    + apply getVideoData_none. apply lookup_delete_eq.
    + intros k Hk. apply getVideoData_same_entry; [reflexivity|].
      now apply lookup_delete_ne.
    + intros _ _. apply lookup_delete_eq.
    + intros [->|He']; [now destruct Hid | congruence].
  - split; [|split; [|split]].
    + destruct H as [->|He]; [reflexivity|].
      unfold getVideoData, getVideoData_c, getVideoData_try, getItem.
      rewrite He. now destruct (falsy_string videoId).
    + reflexivity.
    + intros Hid He. destruct H; congruence.
    + reflexivity.
Qed.

Lemma clearVideoData_removes_witness :
  items (clearVideoData "dQw4w9WgXcQ"
           {| items := {[ "dQw4w9WgXcQ" := "42" ]}; enabled := true; quota := 5000 |})
    !! "dQw4w9WgXcQ" = None.
Proof.
  refine (proj1 (proj2 (proj2 (proj2
            (clearVideoData_removes "dQw4w9WgXcQ"
               {| items := {[ "dQw4w9WgXcQ" := "42" ]};
                  enabled := true; quota := 5000 |})))) _ _).
  - discriminate.
  - reflexivity.
Defined.

(** ** The extractor: every marker, with a query or a fragment behind *)

Section ExtractorShapes.

Lemma id_char_not_slash (x : ascii) :
  cmatch id_class x = true -> Ascii.eqb "/" x = false.
Proof. destruct x as [[] [] [] [] [] [] [] []]; vm_compute; congruence. Qed.

Lemma strip_marker_user_id (x0 x1 : ascii) (x : string) :
  Ascii.eqb "/" x1 = false ->
  strip_marker (String "u" (String "/" (String x0 (String x1 x)))) = None.
Proof.
  intros H1. unfold strip_marker. cbn [strip].
  change (Ascii.eqb "y" "u") with false.
  change (Ascii.eqb "v" "u") with false.
  change (Ascii.eqb "u" "u") with true.
  change (Ascii.eqb "/" "/") with true.
  change (Ascii.eqb "e" "u") with false.
  change (Ascii.eqb "w" "u") with false.
  change (Ascii.eqb "&" "u") with false.
  cbv iota. rewrite H1. now destruct (cmatch word x0).
Qed.

(** After [u/], a word character and [/]: a marker may start at the word
    character ([v/]), and then it ends where [u/] ... [/] ends. *)
Lemma last_marker_user (a x0 x1 : ascii) (x : string) :
  cmatch word a = true -> cmatch id_class x1 = true ->
  last_marker (String x0 (String x1 x)) = None ->
  last_marker (String "u" (String "/" (String a (String "/" (String x0 (String x1 x))))))
  = Some (String x0 (String x1 x)).
Proof.
  intros Ha H1 Hn. apply id_char_not_slash in H1.
  assert (Hu := strip_marker_user_id x0 x1 x H1).
  remember (String x0 (String x1 x)) as y eqn:Ey.
  destruct a as [[] [] [] [] [] [] [] []]; try discriminate Ha; clear Ha;
    cbn [last_marker]; rewrite Hn;
    try (vm_compute; reflexivity).
  rewrite Hu. reflexivity.
Qed.

Lemma last_marker_after (mk : string) (x0 x1 : ascii) (x : string) :
  is_marker mk -> cmatch id_class x1 = true ->
  last_marker (String x0 (String x1 x)) = None ->
  last_marker (String.append mk (String x0 (String x1 x)))
  = Some (String x0 (String x1 x)).
Proof.
  intros Hm H1 Hn.
  destruct Hm as [->|[->|[(a & Ha & ->)|[->|[->| ->]]]]];
    try (remember (String x0 (String x1 x)) as y; simpl; now rewrite Hn).
  now apply last_marker_user.
Qed.

Lemma getYouTubeIdFromUrl_after_marker (p mk id post : string) :
  all_of CDot p -> is_marker mk ->
  all_of id_class id -> String.length id = 11 -> ends_token post ->
  (forall pre' mk' r', ~ marker_at (String.append id post) pre' mk' r') ->
  getYouTubeIdFromUrl (String.append p (String.append mk (String.append id post)))
  = id.
Proof.
  intros Hp Hm Hid Hl He Hn.
  apply getYouTubeIdFromUrl_after; try assumption; [|now apply all_id_all_token].
  apply last_marker_None in Hn.
  destruct id as [|x0 [|x1 id]]; try discriminate Hl.
  apply all_of_cons in Hid as [_ Hid]. apply all_of_cons in Hid as [H1 _].
  now apply last_marker_after.
Qed.

Lemma form_head_not_blank (head x : string) :
  In head form_heads -> blank (String.append head x) = false.
Proof.
  intros Hh. vm_compute in Hh.
  repeat (destruct Hh as [<-|Hh]; [reflexivity|]). destruct Hh.
Qed.

Lemma form_accepted_not_blank (url : string) :
  test YOUTUBE_URL_REGEX url = true -> blank url = false.
Proof.
  intros H. apply form_accepts_inv in H as (head & id & rest & -> & Hh & _).
  now apply form_head_not_blank.
Qed.

End ExtractorShapes.

(** X4. For each of the six markers ([youtu.be/], [v/], [u/] a word
    character [/], [embed/], [watch?v=], [&v=]), an identifier of 11
    characters over [[a-zA-Z0-9_-]] that follows the marker is returned by
    the extractor, whatever stands before the marker on the line, and
    whatever follows the identifier, when that is empty or starts with [#],
    [&] or [?] and no marker starts in the identifier and what follows. *)
Theorem getYouTubeIdFromUrl_every_marker (p mk id post : string) :
  all_of CDot p -> is_marker mk ->
  all_of id_class id -> String.length id = 11 -> ends_token post ->
  (forall pre' mk' r', ~ marker_at (String.append id post) pre' mk' r') ->
  getYouTubeIdFromUrl (String.append p (String.append mk (String.append id post)))
  = id.
Proof. exact (getYouTubeIdFromUrl_after_marker p mk id post). Qed.

Lemma getYouTubeIdFromUrl_every_marker_witness :
  getYouTubeIdFromUrl "https://www.youtube.com/u/v/dQw4w9WgXcQ?t=30s#top"
  = "dQw4w9WgXcQ".
Proof.
  apply (getYouTubeIdFromUrl_every_marker "https://www.youtube.com/"
           "u/v/" "dQw4w9WgXcQ" "?t=30s#top"); try reflexivity.
  - right. right. left. exists "v"%char. split; reflexivity.
  - apply last_marker_None. reflexivity.
Defined.

(** ** The form: what [handleSubmit] lets through *)

(** X5. [handleSubmit] reports an empty input exactly for the strings made
    of white space only; it calls [onSave], with the string as it was typed,
    exactly for the strings made of a head (an optional scheme, an optional
    [www.], then [youtube.com/watch?v=] or [youtu.be/]), 11 identifier
    characters and a rest without line terminator; so that a string with
    white space in front of the URL is never passed on. *)
Theorem handleSubmit_outcomes (videoUrl : string) :
  (handleSubmit videoUrl = ErrorEmpty <-> blank videoUrl = true)
  /\ (forall u : string,
        handleSubmit videoUrl = OnSave u
        <-> u = videoUrl
            /\ exists head id rest : string,
                 videoUrl = String.append head (String.append id rest)
                 /\ In head form_heads
                 /\ String.length id = 11 /\ all_of id_class id
                 /\ all_of CDot rest)
  /\ (forall (a : ascii) (s u : string),
        videoUrl = String a s -> white_space a = true ->
        handleSubmit videoUrl <> OnSave u).
Proof.
  assert (Hsave : forall u : string,
             handleSubmit videoUrl = OnSave u
             <-> u = videoUrl /\ test YOUTUBE_URL_REGEX videoUrl = true).
  { intros u. unfold handleSubmit. split.
    - destruct (blank videoUrl); [discriminate|].
      destruct (test YOUTUBE_URL_REGEX videoUrl); [|discriminate].
      now intros [= <-].
    - intros [-> H]. now rewrite (form_accepted_not_blank _ H), H. }
  split; [|split].
  - unfold handleSubmit. destruct (blank videoUrl); [tauto|].
    destruct (test YOUTUBE_URL_REGEX videoUrl); cbn [negb]; split; discriminate.
  - intros u. rewrite Hsave, form_accepts_iff. reflexivity.
  - intros a s u -> Ha Hs. apply Hsave in Hs as [_ Hs].
    apply form_accepts_inv in Hs as (head & id & rest & E & Hh & _).
    vm_compute in Hh.
    repeat (destruct Hh as [<-|Hh];
            [injection E as -> _; discriminate Ha|]).
    destruct Hh.
Qed.

Lemma handleSubmit_outcomes_witness :
  handleSubmit " https://youtu.be/dQw4w9WgXcQ"
  <> OnSave " https://youtu.be/dQw4w9WgXcQ".
Proof.
  apply (proj2 (proj2 (handleSubmit_outcomes " https://youtu.be/dQw4w9WgXcQ"))
           " "%char "https://youtu.be/dQw4w9WgXcQ"); reflexivity.
Defined.

(** X6. The form is stricter than the extractor on the shape of the URL: a
    [youtube.com] URL with [embed/] or [v/] before the identifier is
    reported as invalid by [handleSubmit], with any scheme and with or
    without [www.], while the extractor returns its identifier. *)
Theorem handleSubmit_refuses_embed (o1 o2 mk id t : string) :
  o1 = "" \/ o1 = "http://" \/ o1 = "https://" ->
  o2 = "" \/ o2 = "www." ->
  mk = "embed/" \/ mk = "v/" ->
  String.length id = 11 -> all_of id_class id ->
  handleSubmit
    (String.append o1 (String.append o2
       (String.append "youtube.com/" (String.append mk t))))
  = ErrorInvalid
  /\ getYouTubeIdFromUrl
       (String.append o1 (String.append o2
          (String.append "youtube.com/" (String.append mk id))))
     = id.
Proof.
  intros H1 H2 H3 Hl Hid. split.
  - unfold handleSubmit.
    assert (Hb : blank (String.append o1 (String.append o2
                   (String.append "youtube.com/" (String.append mk t)))) = false).
    { destruct H1 as [->|[->| ->]], H2 as [->| ->]; reflexivity. }
    rewrite Hb.
    destruct (test YOUTUBE_URL_REGEX _) eqn:E; [|reflexivity]. exfalso.
    apply form_accepts_inv in E as (head & id' & rest & E & Hh & _).
    vm_compute in Hh.
    destruct H1 as [->|[->| ->]], H2 as [->| ->], H3 as [->| ->];
      repeat (destruct Hh as [<-|Hh]; [simpl in E; congruence|]);
      destruct Hh.
  - assert (Hn : forall pre' mk' r',
               ~ marker_at (String.append id "") pre' mk' r').
    { rewrite append_nil_r. apply last_marker_None. now apply last_marker_id. }
    assert (Hm : is_marker mk).
    { unfold is_marker. destruct H3 as [->| ->]; tauto. }
    rewrite <- (append_nil_r id) at 1.
    destruct H1 as [->|[->| ->]], H2 as [->| ->].
    + now apply (getYouTubeIdFromUrl_after_marker "youtube.com/" mk id "").
    + now apply (getYouTubeIdFromUrl_after_marker "www.youtube.com/" mk id "").
    + now apply (getYouTubeIdFromUrl_after_marker "http://youtube.com/" mk id "").
    + now apply (getYouTubeIdFromUrl_after_marker "http://www.youtube.com/" mk id "").
    + now apply (getYouTubeIdFromUrl_after_marker "https://youtube.com/" mk id "").
    + now apply (getYouTubeIdFromUrl_after_marker "https://www.youtube.com/" mk id "").
Qed.

Lemma handleSubmit_refuses_embed_witness :
  handleSubmit "https://www.youtube.com/embed/dQw4w9WgXcQ" = ErrorInvalid
  /\ getYouTubeIdFromUrl "https://www.youtube.com/embed/dQw4w9WgXcQ"
     = "dQw4w9WgXcQ".
Proof.
  apply (handleSubmit_refuses_embed "https://" "www." "embed/" "dQw4w9WgXcQ"
           "dQw4w9WgXcQ"); try reflexivity; tauto.
Defined.

(** ** The pages: frames, views and round trips *)

Section PageFacts.

Lemma only_entry_refl (k : string) (ls : Storage) : only_entry k ls ls.
Proof. now repeat split. Qed.

Lemma only_entry_trans (k : string) (ls1 ls2 ls3 : Storage) :
  only_entry k ls1 ls2 -> only_entry k ls2 ls3 -> only_entry k ls1 ls3.
Proof.
  intros (E1 & Q1 & I1) (E2 & Q2 & I2). repeat split; try congruence.
  intros k' Hk. now rewrite (I2 _ Hk), (I1 _ Hk).
Qed.

Lemma saveVideoData_only_entry (k : string) (v : JSValue) (ls : Storage) :
  only_entry k ls (saveVideoData k v ls).
Proof.
  destruct (saveVideoData_settings k v ls) as [E Q]. repeat split; try assumption.
  intros k' Hk. now apply saveVideoData_other.
Qed.

Lemma only_entry_getVideoData (k k' : string) (ls ls' : Storage) :
  only_entry k ls ls' -> k' <> k -> getVideoData k' ls' = getVideoData k' ls.
Proof.
  intros (E & _ & I) Hk. apply getVideoData_same_entry; [exact E | now apply I].
Qed.

Lemma loaded_id (st : PageState) (pd : JSValue) (id : string) :
  loaded st = Some (pd, id) ->
  playerData st = Some pd /\ currentVideoId st = Some id /\ id <> ""
  /\ truthy pd = true.
Proof.
  unfold loaded. destruct (playerData st) as [pd'|]; [|discriminate].
  destruct (currentVideoId st) as [id'|]; [|discriminate].
  destruct (truthy pd') eqn:Ht; [|discriminate].
  unfold falsy_string. destruct (String.eqb_spec id' ""); [discriminate|].
  intros [= <- <-]. now repeat split.
Qed.

Lemma handleBeforeUnload_only_entry (st : PageState) (id : string) (now : Z)
  (ls : Storage) :
  currentVideoId st = Some id -> only_entry id ls (handleBeforeUnload st now ls).
Proof.
  intros Hid. unfold handleBeforeUnload.
  destruct (loaded st) as [[pd id']|] eqn:El; [|apply only_entry_refl].
  apply loaded_id in El as (_ & Hid' & _). rewrite Hid in Hid'.
  injection Hid' as <-.
  destruct (num_ltb num_zero (currentTime st)); [|apply only_entry_refl].
  apply saveVideoData_only_entry.
Qed.

Lemma handleBeforeUnload_no_id (st : PageState) (now : Z) (ls : Storage) :
  currentVideoId st = None -> handleBeforeUnload st now ls = ls.
Proof.
  intros Hid. unfold handleBeforeUnload, loaded. rewrite Hid.
  now destruct (playerData st).
Qed.

(** What a step keeps of the state, and where it writes. *)
Lemma step_keeps (e : Event) (st : PageState) (ls : Storage) :
  currentVideoId (fst (step e (st, ls))) = currentVideoId st
  /\ calculatedStartTime (fst (step e (st, ls))) = calculatedStartTime st
  /\ isLoading (fst (step e (st, ls))) = isLoading st
  /\ (loaded st = None -> playerData (fst (step e (st, ls))) = playerData st)
  /\ (loaded st <> None ->
      exists pd, playerData (fst (step e (st, ls))) = Some pd
                 /\ truthy pd = true).
Proof.
  destruct e as [t now flush|p t now flush|now]; cbn [step].
  - unfold handleTimeUpdate. destruct (loaded st) as [[pd id]|] eqn:El;
      cbn [fst currentVideoId calculatedStartTime isLoading playerData];
      repeat split; try congruence.
    intros _. now eexists.
  - unfold handlePlayerStateChange. destruct (loaded st) as [[pd id]|] eqn:El;
      cbn [fst currentVideoId calculatedStartTime isLoading playerData];
      repeat split; try congruence.
    intros _. now eexists.
  - cbn [fst]. repeat split. intros Hl.
    destruct (loaded st) as [[pd id]|] eqn:El; [|congruence].
    apply loaded_id in El as (Hp & _ & _ & Ht). now exists pd.
Qed.

Lemma step_only_entry (e : Event) (st : PageState) (ls : Storage) :
  (forall id : string,
     currentVideoId st = Some id -> only_entry id ls (snd (step e (st, ls))))
  /\ (currentVideoId st = None -> snd (step e (st, ls)) = ls).
Proof.
  split.
  - intros id Hid.
    assert (Hb := fun now ls => handleBeforeUnload_only_entry st id now ls Hid).
    destruct e as [t now flush|p t now flush|now]; cbn [step].
    + unfold handleTimeUpdate. destruct (loaded st) as [[pd id']|] eqn:El;
        cbn [snd]; [|apply Hb].
      apply loaded_id in El as (_ & Hid' & _). rewrite Hid in Hid'.
      injection Hid' as <-.
      eapply only_entry_trans; [apply saveVideoData_only_entry | apply Hb].
    + unfold handlePlayerStateChange. destruct (loaded st) as [[pd id']|] eqn:El;
        cbn [snd]; [|apply Hb].
      apply loaded_id in El as (_ & Hid' & _). rewrite Hid in Hid'.
      injection Hid' as <-.
      eapply only_entry_trans; [apply saveVideoData_only_entry | apply Hb].
    + cbn [snd]. apply Hb.
  - intros Hid.
    assert (Hl : loaded st = None).
    { unfold loaded. rewrite Hid. now destruct (playerData st). }
    destruct e as [t now flush|p t now flush|now]; cbn [step].
    + unfold handleTimeUpdate. rewrite Hl. cbn [snd].
      now apply handleBeforeUnload_no_id.
    + unfold handlePlayerStateChange. rewrite Hl. cbn [snd].
      now apply handleBeforeUnload_no_id.
    + cbn [snd]. now apply handleBeforeUnload_no_id.
Qed.

Lemma run_cons (e : Event) (es : list Event) (w : PageState * Storage) :
  run (e :: es) w = run es (step e w).
Proof. reflexivity. Qed.

Lemma run_keeps (es : list Event) :
  forall (st : PageState) (ls : Storage),
    currentVideoId (fst (run es (st, ls))) = currentVideoId st
    /\ calculatedStartTime (fst (run es (st, ls))) = calculatedStartTime st
    /\ isLoading (fst (run es (st, ls))) = isLoading st
    /\ (loaded st = None -> playerData (fst (run es (st, ls))) = playerData st)
    /\ (loaded st <> None ->
        exists pd, playerData (fst (run es (st, ls))) = Some pd
                   /\ truthy pd = true).
Proof.
  induction es as [|e es IH]; intros st ls.
  - cbn [run fold_left fst]. repeat split. intros Hl.
    destruct (loaded st) as [[pd id]|] eqn:El; [|congruence].
    apply loaded_id in El as (Hp & _ & _ & Ht). now exists pd.
  - rewrite run_cons.
    destruct (step_keeps e st ls) as (K1 & K2 & K3 & K4 & K5).
    destruct (step e (st, ls)) as [st1 ls1] eqn:Es. cbn [fst] in *.
    destruct (IH st1 ls1) as (R1 & R2 & R3 & R4 & R5).
    repeat split; try congruence.
    + intros Hl. specialize (K4 Hl).
      assert (Hl1 : loaded st1 = None).
      { unfold loaded in *. now rewrite K1, K4. }
      now rewrite (R4 Hl1).
    + intros Hl. apply R5. destruct (K5 Hl) as (pd & Hp & Ht).
      unfold loaded. rewrite Hp, K1.
      destruct (loaded st) as [[pd0 id]|] eqn:El; [|congruence].
      apply loaded_id in El as (_ & Hid & Hn & _). rewrite Hid, Ht.
      now rewrite (falsy_string_false _ Hn).
Qed.

Lemma run_only_entry (es : list Event) (id : string) :
  forall (st : PageState) (ls : Storage),
    currentVideoId st = Some id -> only_entry id ls (snd (run es (st, ls))).
Proof.
  induction es as [|e es IH]; intros st ls Hid; [apply only_entry_refl|].
  rewrite run_cons.
  assert (H1 := proj1 (step_only_entry e st ls) id Hid).
  assert (K := proj1 (step_keeps e st ls)).
  destruct (step e (st, ls)) as [st1 ls1]. cbn [fst snd] in *.
  eapply only_entry_trans; [exact H1|]. apply IH. congruence.
Qed.

Lemma truthy_prop_object (v : JSValue) (k : string) :
  truthy_prop v k = true -> truthy v = true.
Proof. unfold truthy_prop. now destruct v. Qed.

(** Induction on the values, through the arrays. *)
Lemma JSValue_elems_ind (P : JSValue -> Prop) :
  P JNull -> (forall b, P (JBool b)) -> (forall n, P (JNum n)) ->
  (forall s, P (JStr s)) ->
  (forall l, Forall P l -> P (JArr l)) ->
  (forall ps, P (JObj ps)) ->
  forall v, P v.
Proof.
  intros Hnull Hbool Hnum Hstr Harr Hobj. fix IH 1. intros v.
  destruct v as [|b|n|s|elems|ps];
    [exact Hnull | apply Hbool | apply Hnum | apply Hstr | | apply Hobj].
  apply Harr. induction elems as [|x elems IHl]; constructor;
    [apply IH | exact IHl].
Qed.

(** The conversion of a value to a string throws nothing but a
    [TypeError]. *)
Lemma to_string_error (v : JSValue) :
  forall e : JSError, to_string v = Throw e -> e = TypeError.
Proof.
  induction v as [|b|n|s|l IHl|ps] using JSValue_elems_ind;
    cbn [to_string]; try discriminate.
  - induction IHl as [|x l Hx _ IH]; intros e; [discriminate|].
    assert (Hx' : forall e', match x with
                             | JNull => Normal ""
                             | _ => to_string x
                             end = Throw e' -> e' = TypeError).
    { intros e' H. destruct x; try discriminate H; exact (Hx _ H). }
    destruct (match x with JNull => Normal "" | _ => to_string x end)
      as [sx|ex] eqn:Ex.
    + destruct l as [|y l']; [discriminate|].
      intros H. apply IH.
      match type of H with
      | match ?j with _ => _ end = _ => destruct j; [discriminate H|]
      end.
      injection H as <-. reflexivity.
    + intros [= <-]. now apply Hx'.
  - intros e. destruct (lookup_prop "toString" ps); [|discriminate].
    now intros [= <-].
Qed.

Lemma ToPrimitive_error (v : option JSValue) (e : JSError) :
  ToPrimitive v = Throw e -> e = TypeError.
Proof.
  destruct v as [[|b|n|s|l|ps]|]; cbn [ToPrimitive]; try discriminate.
  - destruct (to_string (JArr l)) eqn:E; [discriminate|].
    intros [= <-]. exact (to_string_error _ _ E).
  - destruct (to_string (JObj ps)) eqn:E; [discriminate|].
    intros [= <-]. exact (to_string_error _ _ E).
Qed.

(** The outcomes of the mount effect. *)
Lemma mountEffect_inv (q : option string) (now : Z) (ls : Storage)
  (st : PageState) :
  match mountEffect q now ls st with
  | RedirectHome st' =>
      isLoading st' = isLoading st /\ playerData st' = playerData st
      /\ calculatedStartTime st' = calculatedStartTime st
      /\ currentTime st' = currentTime st
      /\ (q = None \/ q = Some "" \/
          exists id, q = Some id /\ id <> "" /\ currentVideoId st' = Some id
                     /\ truthy_prop (getVideoData id ls) "originalUrl" = false)
  | Loaded st' =>
      exists (id : string) (start : JSPrimitive),
        q = Some id /\ id <> ""
        /\ truthy_prop (getVideoData id ls) "originalUrl" = true
        /\ st' = {| currentVideoId := Some id;
                    playerData := Some (getVideoData id ls);
                    calculatedStartTime := start;
                    isLoading := false;
                    currentTime := currentTime st |}
  | Thrown e =>
      e = TypeError
      /\ exists id,
           q = Some id /\ id <> ""
           /\ truthy_prop (getVideoData id ls) "originalUrl" = true
           /\ (ToPrimitive (get_prop (getVideoData id ls) "lastKnownSystemTime")
               = Throw TypeError
               \/ ToPrimitive (get_prop (getVideoData id ls) "lastKnownVideoTime")
                  = Throw TypeError)
  end.
Proof.
  unfold mountEffect. destruct q as [id|]; [|repeat split; now left].
  unfold falsy_string. destruct (String.eqb_spec id "") as [->|Hid];
    [repeat split; right; now left|].
  destruct (truthy_prop (getVideoData id ls) "originalUrl") eqn:Et; cbn [negb].
  - destruct (ToPrimitive (get_prop (getVideoData id ls) "lastKnownSystemTime"))
      as [pS|eS] eqn:ES.
    + destruct (ToPrimitive (get_prop (getVideoData id ls) "lastKnownVideoTime"))
        as [pT|eT] eqn:ET.
      * eexists id, _. now repeat split.
      * assert (eT = TypeError) as -> by exact (ToPrimitive_error _ _ ET).
        split; [reflexivity|]. exists id. repeat split; try assumption.
        now right.
    + assert (eS = TypeError) as -> by exact (ToPrimitive_error _ _ ES).
      split; [reflexivity|]. exists id. repeat split; try assumption.
      now left.
  - cbn. repeat split. right. right. exists id. now repeat split.
Qed.

End PageFacts.

(** X8. What the playback page shows. Starting from the initial state, on a
    storage whose texts the model reads, after the mount effect the page
    shows either the text [Loading video...] (when the effect redirects to
    the home page) or the player, with the identifier of the query and the
    start time the effect computed; and the events of the player change
    neither: the text [No video data found] is never shown, and the start
    time passed to the player stays the one computed at the mount. The one
    other outcome is that the effect throws: a [TypeError], when a time of
    the stored value cannot be converted to a primitive value. *)
Theorem page_shows_player_or_loading (q : option string) (now : Z)
  (ls : Storage) :
  readable ls ->
  match mountEffect q now ls initialState with
  | RedirectHome st' =>
      forall (es : list Event) (ls' : Storage),
        render (fst (run es (st', ls'))) = LoadingVideo
  | Loaded st' =>
      exists id : string,
        q = Some id /\ id <> ""
        /\ forall (es : list Event) (ls' : Storage),
             render (fst (run es (st', ls')))
             = Player id (calculatedStartTime st')
  | Thrown e =>
      e = TypeError
      /\ exists id : string,
           q = Some id
           /\ (ToPrimitive (get_prop (getVideoData id ls) "lastKnownSystemTime")
               = Throw TypeError
               \/ ToPrimitive (get_prop (getVideoData id ls) "lastKnownVideoTime")
                  = Throw TypeError)
  end.
Proof.
  intros _.
  assert (H := mountEffect_inv q now ls initialState).
  destruct (mountEffect q now ls initialState) as [st'|st'|e].
  - destruct H as (Hl & _). intros es ls'.
    destruct (run_keeps es st' ls') as (_ & _ & R3 & _).
    unfold render. now rewrite R3, Hl.
  - destruct H as (id & start & -> & Hid & Ht & ->).
    exists id. repeat split; [exact Hid|]. intros es ls'.
    match goal with |- render (fst (run es (?s, ls'))) = _ => set (st := s) end.
    destruct (run_keeps es st ls') as (R1 & R2 & R3 & _ & R5).
    assert (Hl : loaded st <> None).
    { unfold loaded, st. cbn [playerData currentVideoId].
      rewrite (truthy_prop_object _ _ Ht), (falsy_string_false _ Hid).
      discriminate. }
    destruct (R5 Hl) as (pd & Hp & Htr).
    unfold render. rewrite R3, R1, R2, Hp, Htr.
    cbn [isLoading currentVideoId st negb orb].
    now rewrite (falsy_string_false _ Hid).
  - destruct H as (-> & id & -> & _ & _ & H). split; [reflexivity|].
    now exists id.
Qed.

(** The sample storage is read, and the page shows the player of its record,
    started at 46 seconds. *)
Lemma page_shows_player_or_loading_witness :
  match mountEffect (Some "dQw4w9WgXcQ") 2000 sample_storage initialState with
  | RedirectHome st' =>
      forall (es : list Event) (ls' : Storage),
        render (fst (run es (st', ls'))) = LoadingVideo
  | Loaded st' =>
      exists id : string,
        Some "dQw4w9WgXcQ" = Some id /\ id <> ""
        /\ forall (es : list Event) (ls' : Storage),
             render (fst (run es (st', ls')))
             = Player id (calculatedStartTime st')
  | Thrown e =>
      e = TypeError
      /\ exists id : string,
           Some "dQw4w9WgXcQ" = Some id
           /\ (ToPrimitive
                 (get_prop (getVideoData id sample_storage) "lastKnownSystemTime")
               = Throw TypeError
               \/ ToPrimitive
                    (get_prop (getVideoData id sample_storage) "lastKnownVideoTime")
                  = Throw TypeError)
  end.
Proof.
  apply (page_shows_player_or_loading (Some "dQw4w9WgXcQ") 2000 sample_storage).
  intros k text H. unfold sample_storage in H. cbn [items] in H.
  apply lookup_singleton_Some in H as [_ <-]. vm_compute. discriminate.
Defined.

(** X9. A periodic report is overwritten by the save of the effect cleanup.
    On a page that shows a record, with the storage available: when the time
    remembered from the previous report is strictly positive, after a report
    of the time [t] the record read back from the storage has the time of
    the previous report, with the system time of the cleanup, while the
    state of the page has [t]; when no positive time is remembered, the
    record read back has [t]. *)
Theorem periodic_save_overwritten (id : string) (d : VideoData)
  (st : PageState) (ls : Storage) (t : number) (now flush : Z) :
  mounted st id d ->
  canonical t -> canonical (currentTime st) ->
  accepts ls id (JSON.stringify (VideoData_obj (with_times t now d))) ->
  accepts (stored id (JSON.stringify (VideoData_obj (with_times t now d))) ls)
    id (JSON.stringify (VideoData_obj (with_times (currentTime st) flush d))) ->
  playerData (fst (step (TimeUpdate t now flush) (st, ls)))
  = Some (VideoData_obj (with_times t now d))
  /\ ((0 < num_Q (currentTime st))%Q ->
      getVideoData id (snd (step (TimeUpdate t now flush) (st, ls)))
      = VideoData_obj (with_times (currentTime st) flush d))
  /\ ((num_Q (currentTime st) <= 0)%Q ->
      getVideoData id (snd (step (TimeUpdate t now flush) (st, ls)))
      = VideoData_obj (with_times t now d)).
Proof.
  intros Hm Ht Hc Ha1 Ha2. assert (Hid : id <> "") by apply Hm.
  cbn [step]. unfold handleTimeUpdate.
  rewrite (loaded_mounted _ _ _ Hm), spread_with_times. cbn [fst snd].
  rewrite (handleBeforeUnload_mounted _ _ _ _ _ Hm).
  rewrite (saveVideoData_accepts _ _ _ Hid Ha1).
  split; [reflexivity|]. split.
  - intros Hpos. change 0%Q with (num_Q num_zero) in Hpos.
    apply num_ltb_Q in Hpos. rewrite Hpos.
    rewrite (saveVideoData_accepts _ _ _ Hid Ha2).
    apply getVideoData_stored; [exact Hid | apply Ha2 | now split].
  - intros Hneg. change 0%Q with (num_Q num_zero) in Hneg.
    apply num_ltb_Q_false in Hneg. rewrite Hneg.
    apply getVideoData_stored; [exact Hid | apply Ha1 | now split].
Qed.

Lemma periodic_save_overwritten_witness :
  getVideoData "dQw4w9WgXcQ"
    (snd (step (TimeUpdate (Num 46 0) 6000 6001)
            ({| currentVideoId := Some "dQw4w9WgXcQ";
                playerData :=
                  Some (VideoData_obj
                          (new_record "https://youtu.be/dQw4w9WgXcQ" 1000));
                calculatedStartTime := num_zero;
                isLoading := false;
                currentTime := Num 45 0 |},
             {| items := ∅; enabled := true; quota := 5000 |})))
  = VideoData_obj
      (with_times (Num 45 0) 6001
         (new_record "https://youtu.be/dQw4w9WgXcQ" 1000)).
Proof.
  refine (proj1 (proj2
            (periodic_save_overwritten "dQw4w9WgXcQ"
               (new_record "https://youtu.be/dQw4w9WgXcQ" 1000)
               {| currentVideoId := Some "dQw4w9WgXcQ";
                  playerData :=
                    Some (VideoData_obj
                            (new_record "https://youtu.be/dQw4w9WgXcQ" 1000));
                  calculatedStartTime := num_zero;
                  isLoading := false;
                  currentTime := Num 45 0 |}
               {| items := ∅; enabled := true; quota := 5000 |}
               (Num 46 0) 6000 6001 _ _ _ _ _)) _).
  - repeat split. discriminate.
  - reflexivity.
  - reflexivity.
  - split; [reflexivity|]. vm_compute. lia.
  - split; [reflexivity|]. vm_compute. lia.
  - reflexivity.
Defined.

(** X10. The playback page writes under its own identifier only: whatever
    the events of the player and however the page is left, every entry of
    the storage under another identifier, and what [getVideoData] returns
    for it, is as before; a page that has no identifier writes nothing. *)
Theorem page_writes_own_entry (es : list Event) (st : PageState)
  (ls : Storage) (now : Z) :
  (forall id k : string,
     currentVideoId st = Some id -> k <> id ->
     items (unmount now (run es (st, ls))) !! k = items ls !! k
     /\ getVideoData k (unmount now (run es (st, ls))) = getVideoData k ls
     /\ getVideoData k (snd (run es (st, ls))) = getVideoData k ls)
  /\ (currentVideoId st = None -> unmount now (run es (st, ls)) = ls).
Proof.
  split.
  - intros id k Hid Hk.
    assert (H1 := run_only_entry es id st ls Hid).
    assert (K := proj1 (run_keeps es st ls)).
    assert (H2 : only_entry id ls (unmount now (run es (st, ls)))).
    { eapply only_entry_trans; [exact H1|]. unfold unmount.
      apply handleBeforeUnload_only_entry. congruence. }
    split; [now apply H2|]. split.
    + now apply (only_entry_getVideoData id).
    + now apply (only_entry_getVideoData id).
  - intros Hid. revert st ls Hid.
    induction es as [|e es IH]; intros st ls Hid.
    + now apply handleBeforeUnload_no_id.
    + rewrite run_cons.
      assert (H1 := proj2 (step_only_entry e st ls) Hid).
      assert (K := proj1 (step_keeps e st ls)).
      destruct (step e (st, ls)) as [st1 ls1]. cbn [fst snd] in *. subst ls1.
      apply IH. congruence.
Qed.

Lemma page_writes_own_entry_witness :
  items (unmount 7000
           (run [TimeUpdate (Num 45 0) 5000 5001]
              ({| currentVideoId := Some "dQw4w9WgXcQ";
                  playerData :=
                    Some (VideoData_obj
                            (new_record "https://youtu.be/dQw4w9WgXcQ" 1000));
                  calculatedStartTime := num_zero;
                  isLoading := false;
                  currentTime := num_zero |},
               {| items := {[ "9bZkp7q19f0" := "kept" ]};
                  enabled := true; quota := 5000 |})))
    !! "9bZkp7q19f0"
  = Some "kept".
Proof.
  refine (proj1 (proj1
            (page_writes_own_entry [TimeUpdate (Num 45 0) 5000 5001]
               {| currentVideoId := Some "dQw4w9WgXcQ";
                  playerData :=
                    Some (VideoData_obj
                            (new_record "https://youtu.be/dQw4w9WgXcQ" 1000));
                  calculatedStartTime := num_zero;
                  isLoading := false;
                  currentTime := num_zero |}
               {| items := {[ "9bZkp7q19f0" := "kept" ]};
                  enabled := true; quota := 5000 |} 7000)
            "dQw4w9WgXcQ" "9bZkp7q19f0" _ _)).
  - reflexivity.
  - discriminate.
Defined.
(** ** Round trips between the pages *)

Section RoundTrips.




(** A string without a percent sign is decoded as itself. *)
Lemma plain_cons (a : ascii) (s : string) :
  plain (String a s) -> (code a =? 37)%N = false /\ plain s.
Proof.
  unfold plain. cbn [list_ascii_of_string forallb]. intros H.
  apply Bool.andb_true_iff in H as [Ha Hp].
  split; [now apply Bool.negb_true_iff | exact Hp].
Qed.

Lemma decode_plain (s : string) :
  forall fuel : nat,
    String.length s <= fuel -> plain s -> decode fuel s = Normal s.
Proof.
  induction s as [|a s IH]; intros fuel Hf Hp.
  - now destruct fuel.
  - destruct fuel as [|fuel]; [cbn in Hf; lia|].
    apply plain_cons in Hp as [Ha Hp].
    cbn [decode]. rewrite Ha. cbn [negb].
    rewrite IH; [reflexivity | cbn in Hf; lia | exact Hp].
Qed.

Lemma decodeURIComponent_plain (s : string) :
  plain s -> decodeURIComponent s = Normal s.
Proof. intros H. now apply decode_plain. Qed.

(** Decoding goes through a prefix without a percent sign. *)
Lemma decode_prefix (pre s : string) :
  forall fuel : nat,
    plain pre ->
    decode (String.length pre + fuel) (String.append pre s)
    = match decode fuel s with
      | Normal r => Normal (String.append pre r)
      | Throw e => Throw e
      end.
Proof.
  induction pre as [|a pre IH]; intros fuel Hp.
  - cbn [String.length Nat.add String.append]. now destruct (decode fuel s).
  - apply plain_cons in Hp as [Ha Hp].
    cbn [String.length Nat.add String.append decode]. rewrite Ha. cbn [negb].
    rewrite (IH fuel Hp). now destruct (decode fuel s).
Qed.


Lemma decode_escape (f : nat) (s r : string) (b : N) :
  read_escape (String "%" s) = Some (b, r) -> (b < 128)%N ->
  decode (S f) (String "%" s) = put (ascii_of_N b) (decode f r).
Proof.
  intros Hr Hb. apply N.ltb_lt in Hb. cbn [decode].
  change (code "%" =? 37)%N with true. cbn [negb]. now rewrite Hr, Hb.
Qed.

Lemma decode_no_escape (f : nat) (s : string) :
  read_escape (String "%" s) = None ->
  decode (S f) (String "%" s) = Throw URIError.
Proof.
  intros Hr. cbn [decode].
  change (code "%" =? 37)%N with true. cbn [negb]. now rewrite Hr.
Qed.

End RoundTrips.

(** X7. The home page decodes the URL of the query a second time. The query
    value that [searchParams.get] returns is decoded already; the effect
    that fills the form in applies [decodeURIComponent] to it. With no URL
    in the query, or an empty one, the text of the form stays as it is; a URL
    without a percent sign is filled in as it is; in a URL whose first
    percent sign starts the escape of an ASCII character, and which has no
    other, the escape is replaced by the character; and on a URL whose
    first percent sign is not followed by two hexadecimal digits the effect
    throws a [URIError]. *)
Theorem prefill_decodes_again (q : option string) (initialUrl : string) :
  (q = None \/ q = Some "" -> prefillEffect q initialUrl = Normal initialUrl)
  /\ (forall u : string,
        q = Some u -> u <> "" -> plain u ->
        prefillEffect q initialUrl = Normal u)
  /\ (forall (pre post : string) (h1 h2 : ascii) (b : N),
        q = Some (String.append pre (String "%" (String h1 (String h2 post)))) ->
        plain pre -> plain post ->
        read_escape (String "%" (String h1 (String h2 post))) = Some (b, post) ->
        (b < 128)%N ->
        prefillEffect q initialUrl
        = Normal (String.append pre (String (ascii_of_N b) post)))
  /\ (forall pre s : string,
        q = Some (String.append pre (String "%" s)) ->
        plain pre -> read_escape (String "%" s) = None ->
        prefillEffect q initialUrl = Throw URIError).
Proof.
  assert (Hne : forall pre s : string,
             falsy_string (String.append pre (String "%" s)) = false).
  { intros pre s. now destruct pre. }
  split; [|split; [|split]].
  - intros [->| ->]; reflexivity.
  - intros u -> Hu Hp. unfold prefillEffect.
    rewrite (falsy_string_false _ Hu). now apply decodeURIComponent_plain.
  - intros pre post h1 h2 b -> Hpre Hpost Hr Hb. unfold prefillEffect.
    rewrite Hne. unfold decodeURIComponent.
    rewrite length_append, (decode_prefix pre _ _ Hpre).
    cbn [String.length]. rewrite (decode_escape _ _ _ _ Hr Hb).
    rewrite decode_plain; [reflexivity | lia | exact Hpost].
  - intros pre s -> Hpre Hr. unfold prefillEffect.
    rewrite Hne. unfold decodeURIComponent.
    rewrite length_append, (decode_prefix pre _ _ Hpre).
    cbn [String.length]. now rewrite (decode_no_escape _ _ Hr).
Qed.








(** A URL with a percent sign is not the URL that the form is filled in
    with: the second decoding turns [%41] into [A], and throws on [%zz]. *)
Example prefill_of_percent_signs :
  prefillEffect (Some "https://youtu.be/dQw4w9WgX%41Q") ""
  = Normal "https://youtu.be/dQw4w9WgXAQ"
  /\ prefillEffect (Some "https://youtu.be/dQw4w9WgXcQ?t=%zz") ""
     = Throw URIError.
Proof. split; reflexivity. Qed.

(** ** Numbers in the storage, and what the application writes *)

Section Written.

Lemma normalize_canonical (k : nat) : forall m : Z, canonical (normalize m k).
Proof.
  induction k as [|k IH]; intros m; [reflexivity|].
  cbn [normalize]. destruct (m mod 10 =? 0)%Z eqn:E; [apply IH|].
  unfold canonical. cbn [mant scale normalize]. now rewrite E.
Qed.

Lemma num_Q_normalize (k : nat) :
  forall m : Z, (num_Q (normalize m k) == num_Q (Num m k))%Q.
Proof.
  induction k as [|k IH]; intros m; [reflexivity|].
  cbn [normalize]. destruct (m mod 10 =? 0)%Z eqn:E; [|reflexivity].
  rewrite IH. unfold num_Q, Qeq. cbn [mant scale Qnum Qden].
  rewrite !den_pow10. apply Z.eqb_eq in E.
  assert (Hp : pow10 (S k) = (10 * pow10 k)%Z).
  { change (S k) with (1 + k)%nat. now rewrite pow10_add. }
  rewrite Hp. assert (Hm := Z.div_mod m 10 ltac:(lia)). nia.
Qed.

Lemma num_to_string_normalize (x : number) :
  JSON.num_to_string (normalize (mant x) (scale x)) = JSON.num_to_string x.
Proof.
  assert (H := normalize_canonical (scale x) (mant x)).
  unfold canonical in H. unfold JSON.num_to_string. now rewrite H.
Qed.

Lemma stringify_norm_record (d : VideoData) :
  JSON.stringify (VideoData_obj (norm_record d))
  = JSON.stringify (VideoData_obj d).
Proof.
  rewrite <- (append_nil_r (JSON.stringify (VideoData_obj d))).
  rewrite <- (append_nil_r (JSON.stringify (VideoData_obj (norm_record d)))).
  rewrite !stringify_record. cbn [norm_record originalUrl lastKnownVideoTime
                                    lastKnownSystemTime].
  now rewrite !num_to_string_normalize.
Qed.

Lemma valid_norm_record (d : VideoData) : valid_record (norm_record d).
Proof. split; apply normalize_canonical. Qed.

Lemma getVideoData_stored_any (videoId : string) (d : VideoData) (ls : Storage) :
  videoId <> "" -> enabled ls = true ->
  getVideoData videoId (stored videoId (JSON.stringify (VideoData_obj d)) ls)
  = VideoData_obj (norm_record d).
Proof.
  intros Hid He. rewrite <- stringify_norm_record.
  apply getVideoData_stored; [exact Hid | exact He | apply valid_norm_record].
Qed.

Lemma app_record_nonempty (k : string) (d : VideoData) :
  app_record k d -> k = "" \/ (k <> "" /\ originalUrl d <> "").
Proof.
  intros [Hu He]. destruct (String.eqb_spec k ""); [now left | now right].
Qed.


(** The same, with what the storage holds. *)
Lemma app_written_read (k : string) (ls : Storage) :
  app_written ls -> k <> "" ->
  ((items ls !! k = None \/ enabled ls = false) /\ getVideoData k ls = JNull)
  \/ exists (d : VideoData) (text : string),
       enabled ls = true /\ items ls !! k = Some text
       /\ app_record k d /\ valid_record d
       /\ getVideoData k ls = VideoData_obj d.
Proof.
  intros Hw Hk.
  destruct (enabled ls) eqn:He.
  - destruct (items ls !! k) as [text|] eqn:E.
    + right. destruct (Hw k text E) as (d & -> & Hr).
      exists (norm_record d), (JSON.stringify (VideoData_obj d)).
      split; [reflexivity|]. split; [reflexivity|]. split; [exact Hr|].
      split; [apply valid_norm_record|].
      rewrite (getVideoData_text _ _ _ Hk He E).
      rewrite <- stringify_norm_record.
      now rewrite (parse_stringify_record (norm_record d))
        by apply valid_norm_record.
    + left. split; [now left|]. unfold getVideoData.
      rewrite getVideoData_c_none; [reflexivity | now right].
  - left. split; [now right|]. unfold getVideoData.
    rewrite getVideoData_c_none; [reflexivity | now left].
Qed.










End Written.

(** X15. Every record of the model comes back from the storage with its
    values: for any two numbers, in canonical writing or not, what
    [getVideoData] returns after a successful [saveVideoData] is the record
    with the same URL and with numbers of the same values, written
    canonically. *)
Theorem load_after_save_values (videoId : string) (d : VideoData)
  (ls : Storage) :
  videoId <> "" ->
  accepts ls videoId (JSON.stringify (VideoData_obj d)) ->
  getVideoData videoId (saveVideoData videoId (VideoData_obj d) ls)
  = VideoData_obj (norm_record d)
  /\ originalUrl (norm_record d) = originalUrl d
  /\ (num_Q (lastKnownVideoTime (norm_record d))
      == num_Q (lastKnownVideoTime d))%Q
  /\ (num_Q (lastKnownSystemTime (norm_record d))
      == num_Q (lastKnownSystemTime d))%Q
  /\ valid_record (norm_record d).
Proof.
  intros Hid Ha. rewrite (saveVideoData_accepts _ _ _ Hid Ha).
  split; [apply getVideoData_stored_any; [exact Hid | apply Ha]|].
  split; [reflexivity|].
  destruct d as [u [mT kT] [mS kS]].
  cbn [norm_record lastKnownVideoTime lastKnownSystemTime mant scale].
  split; [apply num_Q_normalize|]. split; [apply num_Q_normalize|].
  apply (valid_norm_record (Build_VideoData u (Num mT kT) (Num mS kS))).
Qed.

Lemma load_after_save_values_witness :
  getVideoData "dQw4w9WgXcQ"
    (saveVideoData "dQw4w9WgXcQ"
       (VideoData_obj {| originalUrl := "https://youtu.be/dQw4w9WgXcQ";
                         lastKnownVideoTime := Num 45500 3;
                         lastKnownSystemTime := Num 17000 1 |})
       {| items := ∅; enabled := true; quota := 5000 |})
  = VideoData_obj {| originalUrl := "https://youtu.be/dQw4w9WgXcQ";
                     lastKnownVideoTime := Num 455 1;
                     lastKnownSystemTime := Num 1700 0 |}.
Proof.
  refine (proj1 (load_after_save_values "dQw4w9WgXcQ"
                   {| originalUrl := "https://youtu.be/dQw4w9WgXcQ";
                      lastKnownVideoTime := Num 45500 3;
                      lastKnownSystemTime := Num 17000 1 |}
                   {| items := ∅; enabled := true; quota := 5000 |} _ _)).
  - discriminate.
  - split; [reflexivity|]. vm_compute. lia.
Defined.



(** X17. On a storage written by the application the playback page never
    meets a value that is not a record, and its effect does not throw: the
    mount effect either redirects to the home page, leaving the record of
    the state as it was, when the query has no identifier, or nothing is
    stored under the identifier, or the storage cannot be read; or it loads
    the record stored under the identifier, whose URL is not empty and gives
    the identifier of the query, with numbers in canonical writing, and
    computes the start time from its two times. *)
Theorem mountEffect_on_app_written (q : option string) (now : Z)
  (ls : Storage) (st : PageState) :
  app_written ls ->
  match mountEffect q now ls st with
  | RedirectHome st' =>
      playerData st' = playerData st
      /\ (q = None \/ q = Some ""
          \/ exists id, q = Some id
                        /\ (items ls !! id = None \/ enabled ls = false))
  | Loaded st' =>
      exists (id : string) (d : VideoData),
        q = Some id /\ id <> "" /\ app_record id d /\ valid_record d
        /\ enabled ls = true
        /\ (exists text : string, items ls !! id = Some text)
        /\ getVideoData id ls = VideoData_obj d
        /\ playerData st' = Some (VideoData_obj d)
        /\ page_ok st'
        /\ calculatedStartTime st'
           = PNumber (resumeTime (to_double (lastKnownVideoTime d))
                        (to_double (lastKnownSystemTime d)) now)
  | Thrown _ => False
  end.
Proof.
  intros Hw. destruct q as [id|]; [|split; tauto].
  destruct (String.eqb_spec id "") as [->|Hid]; [split; tauto|].
  destruct (app_written_read id ls Hw Hid)
    as [[Hn E]|(d & text & He & Hi & Hr & Hv & E)].
  - unfold mountEffect. rewrite (falsy_string_false _ Hid), E. cbn.
    split; [reflexivity|]. right. right. now exists id.
  - assert (Hu : originalUrl d <> "") by apply Hr.
    rewrite (mountEffect_found id d now ls st Hid Hu E).
    exists id, d. split; [reflexivity|]. split; [exact Hid|].
    split; [exact Hr|]. split; [exact Hv|]. split; [exact He|].
    split; [now exists text|]. split; [exact E|]. split; [reflexivity|].
    split; [|reflexivity].
    intros pd [= <-]. exists id, d. now repeat split; try apply Hr.
Qed.

(** The sample storage is written by the application, and the page loads
    its record. *)
Lemma mountEffect_on_app_written_witness :
  match mountEffect (Some "dQw4w9WgXcQ") 2000 sample_storage initialState with
  | RedirectHome st' =>
      playerData st' = playerData initialState
      /\ (Some "dQw4w9WgXcQ" = None \/ Some "dQw4w9WgXcQ" = Some ""
          \/ exists id,
               Some "dQw4w9WgXcQ" = Some id
               /\ (items sample_storage !! id = None
                   \/ enabled sample_storage = false))
  | Loaded st' =>
      exists (id : string) (d : VideoData),
        Some "dQw4w9WgXcQ" = Some id /\ id <> "" /\ app_record id d
        /\ valid_record d
        /\ enabled sample_storage = true
        /\ (exists text : string, items sample_storage !! id = Some text)
        /\ getVideoData id sample_storage = VideoData_obj d
        /\ playerData st' = Some (VideoData_obj d)
        /\ page_ok st'
        /\ calculatedStartTime st'
           = PNumber (resumeTime (to_double (lastKnownVideoTime d))
                        (to_double (lastKnownSystemTime d)) 2000)
  | Thrown _ => False
  end.
Proof.
  apply (mountEffect_on_app_written (Some "dQw4w9WgXcQ") 2000 sample_storage
           initialState).
  intros k text H. unfold sample_storage in H. cbn [items] in H.
  apply lookup_singleton_Some in H as [<- <-].
  exists sample_record. split; [reflexivity|]. split; [discriminate|].
  reflexivity.
Defined.

(** ** The player component *)

Section PlayerFacts.

Import YouTubePlayer.

Lemma tidy_clear (c : Comp) :
  tidy c ->
  tidy (clearTimeUpdateInterval c) /\ intervals (clearTimeUpdateInterval c) = []
  /\ timeUpdateIntervalRef (clearTimeUpdateInterval c) = None.
Proof.
  unfold tidy, clearTimeUpdateInterval. intros H.
  destruct (timeUpdateIntervalRef c) as [id|] eqn:E.
  - cbn [intervals timeUpdateIntervalRef]. rewrite H. cbn [List.filter].
    rewrite Pos.eqb_refl. cbn. now repeat split.
  - rewrite E. now repeat split.
Qed.

Lemma tidy_setup (c : Comp) :
  tidy c ->
  tidy (setupTimeUpdateInterval c)
  /\ intervals (setupTimeUpdateInterval c) = [next_interval c].
Proof.
  intros H. destruct (tidy_clear c H) as (_ & Hi & _).
  unfold tidy, setupTimeUpdateInterval. cbn [intervals timeUpdateIntervalRef].
  rewrite Hi.
  assert (Hn : next_interval (clearTimeUpdateInterval c) = next_interval c).
  { unfold clearTimeUpdateInterval. now destruct (timeUpdateIntervalRef c). }
  now rewrite Hn.
Qed.

Lemma initializePlayer_intervals (p : Props) (c : Comp) :
  intervals (fst (initializePlayer p c)) = intervals c
  /\ timeUpdateIntervalRef (fst (initializePlayer p c)) = timeUpdateIntervalRef c
  /\ isApiReady (fst (initializePlayer p c)) = isApiReady c.
Proof.
  unfold initializePlayer.
  now destruct (negb (isApiReady c) || falsy_string (videoId p)
                || negb (playerDivContainerRef c)
                || match playerInstanceRef c with
                   | Some _ => true
                   | None => false
                   end).
Qed.

Lemma effect_intervals (p : Props) (c : Comp) :
  intervals (fst (effect p c)) = intervals c
  /\ timeUpdateIntervalRef (fst (effect p c)) = timeUpdateIntervalRef c
  /\ isApiReady (fst (effect p c)) = isApiReady c.
Proof.
  unfold effect. assert (H := initializePlayer_intervals p c).
  now destruct (initializePlayer p c).
Qed.

Lemma cleanup_intervals (hasDestroy : bool) (c : Comp) :
  tidy c ->
  intervals (cleanup hasDestroy c) = []
  /\ timeUpdateIntervalRef (cleanup hasDestroy c) = None
  /\ isApiReady (cleanup hasDestroy c) = isApiReady c.
Proof.
  intros H. destruct (tidy_clear c H) as (_ & Hi & Hr).
  assert (Ha : isApiReady (clearTimeUpdateInterval c) = isApiReady c).
  { unfold clearTimeUpdateInterval. now destruct (timeUpdateIntervalRef c). }
  unfold cleanup.
  destruct (playerInstanceRef (clearTimeUpdateInterval c)); [|now repeat split].
  now destruct hasDestroy.
Qed.

Lemma tidy_none (c : Comp) :
  intervals c = [] -> timeUpdateIntervalRef c = None -> tidy c.
Proof. unfold tidy. now intros -> ->. Qed.

(** What each event does to the intervals. *)
Lemma step_intervals (p : Props) (e : Event) (c : Comp) :
  tidy c ->
  tidy (fst (step p e c))
  /\ match e with
     | StateChange data _ =>
         if (data =? 1)%Z then intervals (fst (step p e c)) = [next_interval c]
         else if (data =? 2)%Z || (data =? 0)%Z
              then intervals (fst (step p e c)) = []
              else intervals (fst (step p e c)) = intervals c
     | Rerun _ | Unmount _ => intervals (fst (step p e c)) = []
     | ApiReady _ =>
         intervals (fst (step p e c))
         = if isApiReady c then intervals c else []
     | Ready | Tick _ _ => intervals (fst (step p e c)) = intervals c
     end.
Proof.
  intros H. destruct e as [hd|hd| |data time|id time|hd]; cbn [step fst].
  - destruct (cleanup_intervals hd c H) as (Hi & Hr & _).
    destruct (effect_intervals p (cleanup hd c)) as (Ei & Er & _).
    split; [|congruence]. apply tidy_none; congruence.
  - destruct (isApiReady c) eqn:Ea; [now split|].
    assert (Hs : tidy (set_isApiReady c)) by exact H.
    destruct (cleanup_intervals hd _ Hs) as (Hi & Hr & _).
    destruct (effect_intervals p (cleanup hd (set_isApiReady c))) as (Ei & Er & _).
    split; [|congruence]. apply tidy_none; congruence.
  - now split.
  - unfold onStateChange. change (value PLAYING) with 1%Z.
    change (value PAUSED) with 2%Z. change (value ENDED) with 0%Z.
    destruct (data =? 1)%Z; cbn [fst]; [apply (tidy_setup c H)|].
    destruct ((data =? 2)%Z || (data =? 0)%Z); cbn [fst]; [|now split].
    destruct (tidy_clear c H) as (Ht & Hi & _). now split.
  - now split.
  - destruct (cleanup_intervals hd c H) as (Hi & Hr & _).
    assert (Ht : tidy (cleanup hd c)) by now apply tidy_none.
    destruct (tidy_clear _ Ht) as (Ht' & Hi' & _). now split.
Qed.

Lemma run_cons_player (p : Props) (e : Event) (es : list Event)
  (w : Comp * list Action) :
  run p (e :: es) w
  = run p es (fst (step p e (fst w)), (snd w ++ snd (step p e (fst w)))%list).
Proof. cbn [run]. now destruct (step p e (fst w)). Qed.

Lemma run_app_player (p : Props) (es1 es2 : list Event) :
  forall w : Comp * list Action,
    run p (es1 ++ es2)%list w = run p es2 (run p es1 w).
Proof.
  induction es1 as [|e es1 IH]; intros w; [reflexivity|].
  change ((e :: es1) ++ es2)%list with (e :: (es1 ++ es2))%list.
  now rewrite !run_cons_player, IH.
Qed.

Lemma tidy_mount (p : Props) : tidy (fst (mount p)).
Proof.
  unfold mount. destruct (effect_intervals p (rendered p)) as (Ei & Er & _).
  apply tidy_none; [now rewrite Ei | now rewrite Er].
Qed.

Lemma tidy_run (p : Props) (es : list Event) :
  forall w : Comp * list Action, tidy (fst w) -> tidy (fst (run p es w)).
Proof.
  induction es as [|e es IH]; intros w H; [exact H|].
  rewrite run_cons_player. apply IH. cbn [fst].
  now apply step_intervals.
Qed.

(** The players constructed: what the state counts is what was called. *)
Lemma initializePlayer_players (p : Props) (c : Comp) :
  (snd (initializePlayer p c) = []
   /\ fst (initializePlayer p c) = c)
  \/ (snd (initializePlayer p c)
      = [new_Player (videoId p) (Math_floor (startTimeSeconds p))]
      /\ isApiReady c = true /\ videoId p <> ""
      /\ playerInstanceRef c = None
      /\ playerInstanceRef (fst (initializePlayer p c)) = Some (players c)
      /\ players (fst (initializePlayer p c)) = S (players c)
      /\ isApiReady (fst (initializePlayer p c)) = true).
Proof.
  unfold initializePlayer. destruct (isApiReady c); cbn [negb orb]; [|now left].
  unfold falsy_string. destruct (String.eqb_spec (videoId p) ""); cbn [orb];
    [now left|].
  destruct (playerDivContainerRef c); cbn [negb orb]; [|now left].
  destruct (playerInstanceRef c); [now left|]. right. now repeat split.
Qed.

Lemma clear_players (c : Comp) :
  players (clearTimeUpdateInterval c) = players c
  /\ playerInstanceRef (clearTimeUpdateInterval c) = playerInstanceRef c
  /\ isApiReady (clearTimeUpdateInterval c) = isApiReady c.
Proof.
  unfold clearTimeUpdateInterval. now destruct (timeUpdateIntervalRef c).
Qed.

Lemma cleanup_players (hd : bool) (c : Comp) :
  players (cleanup hd c) = players c
  /\ isApiReady (cleanup hd c) = isApiReady c
  /\ playerInstanceRef (cleanup hd c)
     = if hd then None else playerInstanceRef c.
Proof.
  destruct (clear_players c) as (P & R & A). unfold cleanup. rewrite R.
  destruct (playerInstanceRef c) as [n|] eqn:E.
  - destruct hd; cbn [players isApiReady playerInstanceRef]; [now repeat split|].
    now repeat split.
  - rewrite R. now destruct hd.
Qed.

Lemma player_inv_cleanup (hd : bool) (c : Comp) (n : nat) :
  player_inv c n -> player_inv (cleanup hd c) (if hd then S n else n).
Proof.
  intros (Ha & Hn & Hs). destruct (cleanup_players hd c) as (P & A & R).
  unfold player_inv. rewrite P, A, R. destruct hd.
  - split; [reflexivity|]. split; [intros _; exact Hs | lia].
  - now repeat split.
Qed.

Lemma player_out_nil (p : Props) (c c' : Comp) :
  players c' = players c -> isApiReady c' = isApiReady c ->
  player_out p c [] c'.
Proof.
  intros P A. unfold player_out. cbn [List.filter List.length].
  rewrite Nat.add_0_r. split; [exact P|]. split; [congruence|]. intros a [].
Qed.

Lemma effect_players (p : Props) (c : Comp) (m : nat) :
  player_inv c m ->
  player_inv (fst (effect p c)) m
  /\ player_out p c (snd (effect p c)) (fst (effect p c)).
Proof.
  intros (Ha & Hn & Hs). unfold effect.
  destruct (initializePlayer_players p c)
    as [[E1 E2]|(E1 & A & V & R & R' & P & A')];
    destruct (initializePlayer p c) as [c1 out]; cbn [fst snd] in *; subst out.
  - subst c1. split; [now repeat split|].
    unfold player_out. cbn [List.filter is_new_Player List.length].
    rewrite Nat.add_0_r. split; [reflexivity|]. split; [tauto|].
    intros a [<-|[]]. discriminate.
  - split.
    + unfold player_inv. rewrite R', P, A'. specialize (Hn R).
      split; [discriminate|]. split; [discriminate | lia].
    + unfold player_out. cbn [List.filter is_new_Player List.length].
      rewrite P. split; [lia|]. split; [now intros _|].
      intros a [<-|[<-|[]]]; [discriminate|]. now intros _.
Qed.

Lemma player_out_weaken (p : Props) (c0 c : Comp) (out : list Action) (c' : Comp) :
  players c = players c0 -> (isApiReady c0 = true -> isApiReady c = true) ->
  player_out p c out c' -> player_out p c0 out c'.
Proof.
  intros P A (H1 & H2 & H3). unfold player_out. rewrite <- P.
  split; [exact H1|]. split; [tauto | exact H3].
Qed.

(** Each event keeps the invariant of the construction of players. *)
Lemma step_players (p : Props) (e : Event) (c : Comp) (n : nat) :
  player_inv c n ->
  player_inv (fst (step p e c)) (if releases e then S n else n)
  /\ player_out p c (snd (step p e c)) (fst (step p e c)).
Proof.
  intros Hinv.
  destruct e as [hd|hd| |data time|id time|hd]; cbn [step releases].
  - destruct (cleanup_players hd c) as (P & A & R).
    assert (H := player_inv_cleanup hd c n Hinv).
    destruct (effect_players p _ _ H) as [H1 H2].
    split; [now destruct hd|].
    apply (player_out_weaken p c (cleanup hd c)); [exact P | congruence | exact H2].
  - destruct (isApiReady c) eqn:Ea.
    + cbn [fst snd]. split; [exact Hinv | now apply player_out_nil].
    + assert (Hr : playerInstanceRef c = None) by now apply Hinv.
      assert (Hs : player_inv (set_isApiReady c) n).
      { destruct Hinv as (Ha & Hn & Hs). unfold player_inv.
        cbn [set_isApiReady isApiReady playerInstanceRef players].
        now repeat split. }
      destruct (cleanup_players hd (set_isApiReady c)) as (P & A & R).
      cbn [set_isApiReady isApiReady playerInstanceRef players] in P, A, R.
      assert (H : player_inv (cleanup hd (set_isApiReady c)) n).
      { destruct Hs as (Ha' & Hn' & Hs'). unfold player_inv.
        rewrite P, A, R. cbn [set_isApiReady isApiReady playerInstanceRef players] in *.
        specialize (Hn' Hr). rewrite Hr.
        destruct hd; (split; [discriminate|]); (split; [now intros _ | exact Hs']). }
      destruct (effect_players p _ _ H) as [H1 H2].
      split; [exact H1|].
      apply (player_out_weaken p c (cleanup hd (set_isApiReady c)));
        [exact P | congruence | exact H2].
  - cbn [fst snd]. split; [exact Hinv|].
    unfold player_out, onReady. cbn [List.filter is_new_Player List.length].
    rewrite Nat.add_0_r. split; [reflexivity|]. split; [tauto|].
    intros a [<-|[<-|[<-|[]]]]; discriminate.
  - unfold onStateChange.
    assert (Hset : players (setupTimeUpdateInterval c) = players c
                   /\ playerInstanceRef (setupTimeUpdateInterval c)
                      = playerInstanceRef c
                   /\ isApiReady (setupTimeUpdateInterval c) = isApiReady c).
    { unfold setupTimeUpdateInterval.
      cbn [players playerInstanceRef isApiReady]. apply clear_players. }
    destruct (clear_players c) as (P & R & A).
    destruct Hset as (P' & R' & A').
    assert (Hone : forall (c' : Comp) (a : Action),
               players c' = players c -> playerInstanceRef c' = playerInstanceRef c ->
               isApiReady c' = isApiReady c -> is_new_Player a = false ->
               player_inv c' n /\ player_out p c [a] c').
    { intros c' a Pc Rc Ac Hna. split.
      - unfold player_inv. now rewrite Pc, Rc, Ac.
      - unfold player_out. cbn [List.filter List.length]. rewrite Hna.
        cbn [List.length]. rewrite Nat.add_0_r.
        split; [exact Pc|]. split; [congruence|].
        intros a' [<-|[]] Hn'. congruence. }
    destruct (data =? value PLAYING)%Z; cbn [fst snd]; [now apply Hone|].
    destruct ((data =? value PAUSED)%Z || (data =? value ENDED)%Z);
      cbn [fst snd]; [now apply Hone|].
    split; [exact Hinv | now apply player_out_nil].
  - cbn [fst snd]. split; [exact Hinv|].
    unfold tick. destruct (existsb (Pos.eqb id) (intervals c));
      [|now apply player_out_nil].
    destruct (playerInstanceRef c); [|now apply player_out_nil].
    destruct time as [t|]; [|now apply player_out_nil].
    unfold player_out. cbn [List.filter is_new_Player List.length].
    rewrite Nat.add_0_r. split; [reflexivity|]. split; [tauto|].
    intros a [<-|[]]. discriminate.
  - cbn [fst snd].
    destruct (cleanup_players hd c) as (P & A & R).
    destruct (clear_players (cleanup hd c)) as (P' & R' & A').
    assert (H := player_inv_cleanup hd c n Hinv).
    split.
    + unfold player_inv in *. rewrite P', R', A'. now destruct hd.
    + apply player_out_nil; congruence.
Qed.

End PlayerFacts.

Section PlayerRuns.

Import YouTubePlayer.

Lemma run_snoc_player (p : Props) (es : list Event) (e : Event)
  (w : Comp * list Action) :
  run p (es ++ [e])%list w
  = (fst (step p e (fst (run p es w))),
     (snd (run p es w) ++ snd (step p e (fst (run p es w))))%list).
Proof. now rewrite run_app_player, run_cons_player. Qed.

Lemma step_isApiReady (p : Props) (e : Event) (c : Comp) :
  isApiReady (fst (step p e c)) = true ->
  isApiReady c = true \/ exists hd, e = ApiReady hd.
Proof.
  destruct e as [hd|hd| |data time|id time|hd]; cbn [step fst];
    try (now left); try (right; now exists hd).
  - destruct (effect_intervals p (cleanup hd c)) as (_ & _ & ->).
    destruct (cleanup_players hd c) as (_ & -> & _). now left.
  - unfold onStateChange.
    assert (Hset : isApiReady (setupTimeUpdateInterval c) = isApiReady c).
    { unfold setupTimeUpdateInterval. cbn [isApiReady]. apply clear_players. }
    destruct (clear_players c) as (_ & _ & A).
    destruct (data =? value PLAYING)%Z; cbn [fst]; [rewrite Hset; now left|].
    destruct (_ || _); cbn [fst]; [rewrite A|]; now left.
  - destruct (clear_players (cleanup hd c)) as (_ & _ & ->).
    destruct (cleanup_players hd c) as (_ & -> & _). now left.
Qed.

Lemma count_releases_snoc (es : list Event) (e : Event) :
  List.length (List.filter releases (es ++ [e]))
  = if releases e then S (List.length (List.filter releases es))
    else List.length (List.filter releases es).
Proof.
  rewrite List.filter_app, List.length_app. cbn [List.filter].
  destruct (releases e); cbn [List.length]; lia.
Qed.

(** The invariant of the construction of players along a run. *)
Lemma run_players (p : Props) (es : list Event) :
  player_inv (fst (run p es (mount p))) (List.length (List.filter releases es))
  /\ players (fst (run p es (mount p)))
     = List.length (List.filter is_new_Player (snd (run p es (mount p))))
  /\ (isApiReady (fst (run p es (mount p))) = true ->
      exists hd, In (ApiReady hd) es)
  /\ (forall a,
        In a (snd (run p es (mount p))) -> is_new_Player a = true ->
        a = new_Player (videoId p) (Math_floor (startTimeSeconds p))
        /\ videoId p <> ""
        /\ isApiReady (fst (run p es (mount p))) = true).
Proof.
  induction es as [|e es IH] using rev_ind.
  - cbn [run List.filter List.length]. unfold mount, effect, initializePlayer.
    cbn [rendered isApiReady negb orb fst snd List.filter is_new_Player
           List.length players playerInstanceRef].
    unfold player_inv, rendered. cbn [isApiReady playerInstanceRef players].
    split; [split; [reflexivity | split; [now intros _ | lia]]|].
    split; [reflexivity|]. split; [discriminate|].
    intros a [<-|[]]; discriminate.
  - destruct IH as (Hinv & Hc & Hapi & Hnew).
    rewrite run_snoc_player, count_releases_snoc. cbn [fst snd].
    set (c := fst (run p es (mount p))) in *.
    destruct (step_players p e c _ Hinv) as [H1 (O1 & O2 & O3)].
    split; [now destruct (releases e)|]. split; [|split].
    + rewrite List.filter_app, List.length_app, <- Hc. exact O1.
    + intros Ha. destruct (step_isApiReady p e c Ha) as [Hc'|[hd ->]].
      * destruct (Hapi Hc') as [hd Hin]. exists hd. apply in_or_app. now left.
      * exists hd. apply in_or_app. right. now left.
    + intros a Hin Hn. apply in_app_or in Hin as [Hin|Hin].
      * destruct (Hnew a Hin Hn) as (E & V & A). repeat split; try assumption.
        now apply O2.
      * now apply O3.
Qed.

Lemma js_lt_zero_sign (sg : bool) (m : positive) (e : Z) :
  js_lt (S754_finite sg m e) (double_of_Z 0) = sg.
Proof. now destruct sg. Qed.

(** [floor] of a finite double: the integer below its value. *)
Lemma floor_spec (x : double) (v : number) :
  double_number x = Some v ->
  exists s : Z,
    (inject_Z s <= num_Q v)%Q /\ (num_Q v < inject_Z s + 1)%Q
    /\ (js_lt x (double_of_Z 0) = false -> (0 <= s)%Z)
    /\ (floor x = double_of_Z s \/ (floor x = x /\ v = num_of_Z s)).
Proof.
  destruct x as [sg|sg| |sg m e]; cbn [double_number]; try discriminate.
  - intros [= <-]. exists 0%Z. split; [discriminate|].
    split; [reflexivity|]. split; [lia|]. right. now split.
  - set (z := if sg then Z.neg m else Z.pos m).
    destruct (Z.leb_spec 0 e) as [He|He]; intros [= <-].
    + exists (z * 2 ^ e)%Z.
      split; [|split; [|split]].
      * unfold num_Q, Qle. cbn [mant scale Qnum Qden inject_Z].
        rewrite den_pow10. change (pow10 0) with 1%Z. lia.
      * unfold num_Q, Qlt, Qplus. cbn [mant scale Qnum Qden inject_Z].
        rewrite den_pow10. change (pow10 0) with 1%Z. lia.
      * rewrite js_lt_zero_sign. intros ->. unfold z.
        assert (0 < 2 ^ e)%Z by now apply Z.pow_pos_nonneg.
        nia.
      * right. split; [|reflexivity]. unfold floor.
        destruct (Z.leb_spec 0 e); [reflexivity | lia].
    + set (k := (- e)%Z). assert (Hk : (0 < k)%Z) by (unfold k; lia).
      assert (H2 : (0 < 2 ^ k)%Z) by (apply Z.pow_pos_nonneg; lia).
      assert (H5 : (0 < 5 ^ k)%Z) by (apply Z.pow_pos_nonneg; lia).
      assert (H10 : pow10 (Z.to_nat k) = (2 ^ k * 5 ^ k)%Z).
      { unfold pow10. rewrite Z2Nat.id by lia.
        now rewrite <- Z.pow_mul_l. }
      assert (Hd := Z.div_mod z (2 ^ k) ltac:(lia)).
      assert (Hm := Z.mod_pos_bound z (2 ^ k) H2).
      exists (z / 2 ^ k)%Z.
      split; [|split; [|split]].
      * unfold num_Q, Qle. cbn [mant scale Qnum Qden inject_Z].
        rewrite den_pow10, H10. nia.
      * unfold num_Q, Qlt, Qplus. cbn [mant scale Qnum Qden inject_Z].
        rewrite den_pow10, H10. nia.
      * rewrite js_lt_zero_sign. intros ->. unfold z.
        apply Z.div_pos; lia.
      * left. unfold floor.
        destruct (Z.leb_spec 0 e); [lia|]. fold k. fold z.
        destruct (Z.eqb_spec (z / 2 ^ k) 0) as [E|E]; [|reflexivity].
        rewrite E. destruct sg; [|reflexivity].
        unfold z in *. nia.
Qed.

(** The start time of the page is not below zero. *)
Lemma resumeTime_not_below_zero (T S : double) (N : Z) :
  js_lt (resumeTime T S N) (double_of_Z 0) = false.
Proof.
  unfold resumeTime.
  set (x := js_add T _).
  destruct (js_lt x (double_of_Z 0)) eqn:E; [reflexivity | exact E].
Qed.

End PlayerRuns.

(** X18. The component keeps at most one interval. After the mount and any
    events, the intervals that are set are the one the ref holds, or none
    when the ref is empty; and after the unmount none is set and the ref is
    empty. *)
Theorem intervals_one_or_none (p : YouTubePlayer.Props)
  (es : list YouTubePlayer.Event) (hasDestroy : bool) :
  tidy (fst (YouTubePlayer.run p es (YouTubePlayer.mount p)))
  /\ List.length
       (YouTubePlayer.intervals
          (fst (YouTubePlayer.run p es (YouTubePlayer.mount p)))) <= 1
  /\ YouTubePlayer.intervals
       (fst (YouTubePlayer.run p (es ++ [YouTubePlayer.Unmount hasDestroy])
               (YouTubePlayer.mount p))) = []
  /\ YouTubePlayer.timeUpdateIntervalRef
       (fst (YouTubePlayer.run p (es ++ [YouTubePlayer.Unmount hasDestroy])
               (YouTubePlayer.mount p))) = None.
Proof.
  assert (Ht := tidy_run p es _ (tidy_mount p)).
  split; [exact Ht|]. split.
  - unfold tidy in Ht. rewrite Ht.
    destruct (YouTubePlayer.timeUpdateIntervalRef _); cbn; lia.
  - rewrite run_snoc_player. cbn [fst].
    destruct (step_intervals p (YouTubePlayer.Unmount hasDestroy) _ Ht)
      as [Ht' Hi].
    split; [exact Hi|]. unfold tidy in Ht'. rewrite Hi in Ht'.
    now destruct (YouTubePlayer.timeUpdateIntervalRef _).
Qed.

(** X19. When the interval of the periodic reports is set. On a mounted
    component, after any events: a change of state to [PLAYING] (1) leaves
    exactly one interval, a new one; a change to [PAUSED] (2) or [ENDED] (0)
    leaves none; any other change of state ([UNSTARTED], [BUFFERING],
    [CUED]), the [onReady] event and the callback of the interval leave the
    intervals as they are; and a new run of the effect, as when the parent
    passes new callbacks, leaves none, like the first resolution of the
    promise of the API. *)
Theorem intervals_follow_events (p : YouTubePlayer.Props)
  (es : list YouTubePlayer.Event) (e : YouTubePlayer.Event) :
  match e with
  | YouTubePlayer.StateChange data _ =>
      if (data =? 1)%Z then
        YouTubePlayer.intervals
          (fst (YouTubePlayer.run p (es ++ [e]) (YouTubePlayer.mount p)))
        = [YouTubePlayer.next_interval
             (fst (YouTubePlayer.run p es (YouTubePlayer.mount p)))]
      else if (data =? 2)%Z || (data =? 0)%Z then
        YouTubePlayer.intervals
          (fst (YouTubePlayer.run p (es ++ [e]) (YouTubePlayer.mount p))) = []
      else
        YouTubePlayer.intervals
          (fst (YouTubePlayer.run p (es ++ [e]) (YouTubePlayer.mount p)))
        = YouTubePlayer.intervals
            (fst (YouTubePlayer.run p es (YouTubePlayer.mount p)))
  | YouTubePlayer.Rerun _ | YouTubePlayer.Unmount _ =>
      YouTubePlayer.intervals
        (fst (YouTubePlayer.run p (es ++ [e]) (YouTubePlayer.mount p))) = []
  | YouTubePlayer.ApiReady _ =>
      YouTubePlayer.intervals
        (fst (YouTubePlayer.run p (es ++ [e]) (YouTubePlayer.mount p)))
      = if YouTubePlayer.isApiReady
             (fst (YouTubePlayer.run p es (YouTubePlayer.mount p)))
        then YouTubePlayer.intervals
               (fst (YouTubePlayer.run p es (YouTubePlayer.mount p)))
        else []
  | YouTubePlayer.Ready | YouTubePlayer.Tick _ _ =>
      YouTubePlayer.intervals
        (fst (YouTubePlayer.run p (es ++ [e]) (YouTubePlayer.mount p)))
      = YouTubePlayer.intervals
          (fst (YouTubePlayer.run p es (YouTubePlayer.mount p)))
  end.
Proof.
  assert (Ht := tidy_run p es _ (tidy_mount p)).
  rewrite run_snoc_player. cbn [fst].
  exact (proj2 (step_intervals p e _ Ht)).
Qed.

(** X20. The players the component constructs. After the mount and any
    events, every player was constructed with the identifier of the props,
    which is not empty, and with the floor of the start time of the props as
    its [start] parameter, and after the promise of the API had resolved;
    and the component has constructed at most one player more than the
    number of cleanups that have emptied the ref of the player. *)
Theorem players_constructed (p : YouTubePlayer.Props)
  (es : list YouTubePlayer.Event) :
  (forall a : YouTubePlayer.Action,
     In a (snd (YouTubePlayer.run p es (YouTubePlayer.mount p))) ->
     is_new_Player a = true ->
     a = YouTubePlayer.new_Player (YouTubePlayer.videoId p)
           (Math_floor (YouTubePlayer.startTimeSeconds p))
     /\ YouTubePlayer.videoId p <> ""
     /\ exists hd, In (YouTubePlayer.ApiReady hd) es)
  /\ List.length
       (List.filter is_new_Player
          (snd (YouTubePlayer.run p es (YouTubePlayer.mount p))))
     <= 1 + List.length (List.filter releases es).
Proof.
  destruct (run_players p es) as ((_ & _ & Hs) & Hc & Hapi & Hnew). split.
  - intros a Hin Hn. destruct (Hnew a Hin Hn) as (E & V & A).
    split; [exact E|]. split; [exact V | now apply Hapi].
  - rewrite <- Hc. cbn [Nat.add]. exact Hs.
Qed.

(** X21. The start of the player on a page load. With the start time that
    the playback page computes from two times as the prop, once the promise
    of the API has resolved and the player is ready, the component has
    constructed one player, with the floor of the start time as its [start]
    parameter, and has then paused, sought to the start time itself and
    played. When the start time is finite, the parameter is an integer that
    is not negative, at most the start time and less than one second below
    it; when it is not, an infinity or [NaN], the parameter is the start
    time itself. *)
Theorem start_parameter (id : string) (T S : double) (N : Z)
  (hasDestroy : bool) :
  id <> "" ->
  snd (YouTubePlayer.run
         {| YouTubePlayer.videoId := id;
            YouTubePlayer.startTimeSeconds := PNumber (resumeTime T S N) |}
         [YouTubePlayer.ApiReady hasDestroy; YouTubePlayer.Ready]
         (YouTubePlayer.mount
            {| YouTubePlayer.videoId := id;
               YouTubePlayer.startTimeSeconds := PNumber (resumeTime T S N) |}))
  = [YouTubePlayer.ensureApi; YouTubePlayer.ensureApi;
     YouTubePlayer.new_Player id (floor (resumeTime T S N));
     YouTubePlayer.pauseVideo;
     YouTubePlayer.seekTo (PNumber (resumeTime T S N)) true;
     YouTubePlayer.playVideo]
  /\ (forall v : number,
        double_number (resumeTime T S N) = Some v ->
        exists s : Z,
          (0 <= s)%Z
          /\ (inject_Z s <= num_Q v)%Q /\ (num_Q v < inject_Z s + 1)%Q
          /\ (floor (resumeTime T S N) = double_of_Z s
              \/ (floor (resumeTime T S N) = resumeTime T S N
                  /\ v = num_of_Z s)))
  /\ (double_number (resumeTime T S N) = None ->
      floor (resumeTime T S N) = resumeTime T S N).
Proof.
  intros Hid. split; [|split].
  - unfold YouTubePlayer.mount, YouTubePlayer.effect,
      YouTubePlayer.initializePlayer, YouTubePlayer.rendered.
    cbn [YouTubePlayer.isApiReady negb orb YouTubePlayer.run fst snd
           YouTubePlayer.step].
    unfold YouTubePlayer.cleanup, YouTubePlayer.clearTimeUpdateInterval,
      YouTubePlayer.set_isApiReady.
    cbn [YouTubePlayer.timeUpdateIntervalRef YouTubePlayer.playerInstanceRef].
    unfold YouTubePlayer.effect, YouTubePlayer.initializePlayer.
    cbn [YouTubePlayer.isApiReady YouTubePlayer.videoId
           YouTubePlayer.playerDivContainerRef YouTubePlayer.playerInstanceRef
           YouTubePlayer.startTimeSeconds].
    rewrite (falsy_string_false _ Hid). destruct hasDestroy; reflexivity.
  - intros v Hv. destruct (floor_spec _ v Hv) as (s & H1 & H2 & H3 & H4).
    exists s. split; [apply H3, resumeTime_not_below_zero|].
    split; [exact H1|]. split; [exact H2 | exact H4].
  - destruct (resumeTime T S N); try discriminate; reflexivity.
Qed.

(** The record (45.25, 1000) at the clock 2500: the start time is 46.75, and
    the player is constructed with the parameter 46. *)
Lemma start_parameter_witness :
  snd (YouTubePlayer.run
         {| YouTubePlayer.videoId := "dQw4w9WgXcQ";
            YouTubePlayer.startTimeSeconds :=
              PNumber (resumeTime (to_double (Num 4525 2))
                         (to_double (Num 1000 0)) 2500) |}
         [YouTubePlayer.ApiReady true; YouTubePlayer.Ready]
         (YouTubePlayer.mount
            {| YouTubePlayer.videoId := "dQw4w9WgXcQ";
               YouTubePlayer.startTimeSeconds :=
                 PNumber (resumeTime (to_double (Num 4525 2))
                            (to_double (Num 1000 0)) 2500) |}))
  = [YouTubePlayer.ensureApi; YouTubePlayer.ensureApi;
     YouTubePlayer.new_Player "dQw4w9WgXcQ" (double_of_Z 46);
     YouTubePlayer.pauseVideo;
     YouTubePlayer.seekTo (PNumber (to_double (Num 4675 2))) true;
     YouTubePlayer.playVideo].
Proof.
  refine (eq_trans
            (proj1 (start_parameter "dQw4w9WgXcQ" (to_double (Num 4525 2))
                      (to_double (Num 1000 0)) 2500 true _)) _).
  - discriminate.
  - vm_compute. reflexivity.
Defined.

(** X22. The two copies of the extractor agree: [getYouTubeId] of the
    component file returns, for every string, what [getYouTubeIdFromUrl] of
    the store returns, and like it never throws. *)
Theorem getYouTubeId_agrees (url : string) :
  YouTubePlayer.getYouTubeId_c url = Normal (getYouTubeIdFromUrl url).
Proof.
  change (YouTubePlayer.getYouTubeId_c url) with (getYouTubeIdFromUrl_c url).
  now rewrite getYouTubeIdFromUrl_c_eq, getYouTubeIdFromUrl_eq.
Qed.

(** ** The loader of the API *)

Section ApiFacts.

Import YouTubePlayer.

Lemma api_ok_init (yt : bool) (k n : nat) : api_ok k n (api_init yt k n).
Proof.
  unfold api_ok, api_init. cbn.
  repeat split; try discriminate; try lia.
Qed.

Ltac api_cases s := destruct s as [[] [[]|] [] [] [|?] [|?] []].

Lemma api_ok_step (k n : nat) (e : ApiEvent) (s : Api) :
  api_ok k n s -> api_ok k n (api_step e s).
Proof.
  unfold api_ok. intros (H1 & H2 & H3 & H4 & H5 & H6).
  destruct e as [[]| |]; api_cases s;
    cbn in *;
    repeat match goal with
           | H : ?x = ?x -> _ |- _ => specialize (H eq_refl)
           | H : _ /\ _ |- _ => destruct H
           end;
    try discriminate;
    repeat split; try discriminate; try reflexivity; try assumption; try lia.
Qed.

Lemma api_run_cons (e : ApiEvent) (es : list ApiEvent) (s : Api) :
  api_run (e :: es) s = api_run es (api_step e s).
Proof. reflexivity. Qed.

Lemma api_run_app (es1 es2 : list ApiEvent) (s : Api) :
  api_run (es1 ++ es2) s = api_run es2 (api_run es1 s).
Proof. unfold api_run. apply fold_left_app. Qed.

Lemma api_ok_run (k n : nat) (es : list ApiEvent) :
  forall s : Api, api_ok k n s -> api_ok k n (api_run es s).
Proof.
  induction es as [|e es IH]; intros s H; [exact H|].
  rewrite api_run_cons. apply IH. now apply api_ok_step.
Qed.

(** A promise is created once and settled once. *)
Lemma api_step_settled (e : ApiEvent) (s : Api) (pr : Promise) :
  apiPromise s = Some pr ->
  exists pr', apiPromise (api_step e s) = Some pr'
              /\ (pr = Fulfilled -> pr' = Fulfilled)
              /\ (pr = Rejected -> pr' = Rejected).
Proof.
  intros H. destruct e as [[]| |]; api_cases s; cbn in *;
    try discriminate H;
    injection H as <-; eexists; (split; [reflexivity|]);
    split; intros; congruence.
Qed.

Lemma api_run_settled (es : list ApiEvent) :
  forall (s : Api) (pr : Promise),
    apiPromise s = Some pr ->
    exists pr', apiPromise (api_run es s) = Some pr'
                /\ (pr = Fulfilled -> pr' = Fulfilled)
                /\ (pr = Rejected -> pr' = Rejected).
Proof.
  induction es as [|e es IH]; intros s pr H.
  - exists pr. now repeat split.
  - rewrite api_run_cons.
    destruct (api_step_settled e s pr H) as (pr1 & E1 & F1 & R1).
    destruct (IH _ _ E1) as (pr2 & E2 & F2 & R2).
    exists pr2. repeat split; auto.
Qed.

(** Without the API, a rejected promise stays what the calls return. *)
Lemma api_step_rejected (e : ApiEvent) (s : Api) :
  apiPromise s = Some Rejected -> YT_Player s = false ->
  is_IframeApiReady e = false ->
  apiPromise (api_step e s) = Some Rejected
  /\ YT_Player (api_step e s) = false
  /\ api_scripts (api_step e s) = api_scripts s.
Proof.
  intros H Hy He. destruct e as [[]| |]; try discriminate He;
    api_cases s; cbn in *; try discriminate; repeat split.
Qed.

Lemma api_run_rejected (es : list ApiEvent) :
  forall s : Api,
    apiPromise s = Some Rejected -> YT_Player s = false ->
    forallb (fun e => negb (is_IframeApiReady e)) es = true ->
    apiPromise (api_run es s) = Some Rejected
    /\ YT_Player (api_run es s) = false
    /\ api_scripts (api_run es s) = api_scripts s.
Proof.
  induction es as [|e es IH]; intros s H Hy He; [now repeat split|].
  cbn [forallb] in He. apply andb_true_iff in He as [He1 He2].
  apply negb_true_iff in He1.
  destruct (api_step_rejected e s H Hy He1) as (H' & Hy' & Ha).
  rewrite api_run_cons. destruct (IH _ H' Hy' He2) as (R1 & R2 & R3).
  repeat split; congruence.
Qed.

(** Without an error of the script, and with a script element in the
    document, no promise is rejected. *)
Lemma api_step_not_rejected (k n : nat) (e : ApiEvent) (s : Api) :
  api_ok k n s -> 1 <= n \/ 1 <= k ->
  apiPromise s <> Some Rejected -> is_ScriptError e = false ->
  apiPromise (api_step e s) <> Some Rejected
  /\ (apiPromise s <> None -> apiPromise (api_step e s) <> None).
Proof.
  unfold api_ok. intros (H1 & H2 & H3 & H4 & H5 & H6) Hn Hr He.
  destruct e as [[]| |]; try discriminate He; api_cases s; cbn in *;
    repeat match goal with
           | H : ?x = ?x -> _ |- _ => specialize (H eq_refl)
           | H : _ /\ _ |- _ => destruct H
           end;
    try discriminate; try congruence; try lia;
    split; try discriminate; try congruence.
Qed.

Lemma api_run_not_rejected (k n : nat) (es : list ApiEvent) :
  forall s : Api,
    api_ok k n s -> 1 <= n \/ 1 <= k ->
    apiPromise s <> Some Rejected ->
    forallb (fun e => negb (is_ScriptError e)) es = true ->
    apiPromise (api_run es s) <> Some Rejected
    /\ (apiPromise s <> None -> apiPromise (api_run es s) <> None).
Proof.
  induction es as [|e es IH]; intros s Hok Hn Hr He; [now split|].
  cbn [forallb] in He. apply andb_true_iff in He as [He1 He2].
  apply negb_true_iff in He1.
  destruct (api_step_not_rejected k n e s Hok Hn Hr He1) as [H1 H2].
  rewrite api_run_cons.
  destruct (IH _ (api_ok_step k n e s Hok) Hn H1 He2) as [H3 H4].
  split; [exact H3|]. intros Hs. apply H4, H2, Hs.
Qed.

Lemma api_call_sets_promise (k n : nat) (s : Api) :
  api_ok k n s -> apiPromise (api_step (Call true) s) <> None.
Proof.
  unfold api_ok. intros (H1 & H2 & H3 & H4 & H5 & H6).
  api_cases s; cbn in *;
    repeat match goal with
           | H : ?x = ?x -> _ |- _ => specialize (H eq_refl)
           | H : _ /\ _ |- _ => destruct H
           end;
    try discriminate.
Qed.

Lemma api_ready_fulfils (k n : nat) (s : Api) :
  api_ok k n s -> apiPromise s <> None -> apiPromise s <> Some Rejected ->
  apiPromise (api_step IframeApiReady s) = Some Fulfilled.
Proof.
  unfold api_ok. intros (H1 & H2 & H3 & H4 & H5 & H6) Hs Hr.
  api_cases s; cbn in *;
    repeat match goal with
           | H : ?x = ?x -> _ |- _ => specialize (H eq_refl)
           | H : _ /\ _ |- _ => destruct H
           end;
    try discriminate; try congruence.
Qed.

End ApiFacts.

(** X23. The script of the API is inserted at most once. Whatever the calls
    of [ensureYouTubeApiLoaded] and whatever happens between them, the
    document has at most one element of the API script when it had none at
    the start, and as many as it had otherwise: the module inserts one
    element at most, and none when one is there. *)
Theorem api_script_inserted_once (yt : bool) (k n : nat)
  (es : list YouTubePlayer.ApiEvent) :
  k <= YouTubePlayer.api_scripts
         (YouTubePlayer.api_run es (YouTubePlayer.api_init yt k n))
  /\ YouTubePlayer.api_scripts
       (YouTubePlayer.api_run es (YouTubePlayer.api_init yt k n))
     <= Nat.max 1 k
  /\ YouTubePlayer.scripts
       (YouTubePlayer.api_run es (YouTubePlayer.api_init yt k n)) + k
     = n + YouTubePlayer.api_scripts
             (YouTubePlayer.api_run es (YouTubePlayer.api_init yt k n)).
Proof.
  destruct (api_ok_run k n es _ (api_ok_init yt k n)) as (_ & _ & _ & _ & H & H').
  repeat split; [apply H | apply H | exact H'].
Qed.

(** X24. One promise, settled once, and no second attempt. Once
    [apiPromise] holds a promise it holds one for ever, a fulfilled promise
    stays fulfilled and a rejected one stays rejected. When the promise is
    rejected and the API is not there, then, as long as the script of the
    API does not run, every call in the browser returns that rejected
    promise, and no script element is inserted again. *)
Theorem api_promise_settled_once (s : YouTubePlayer.Api)
  (pr : YouTubePlayer.Promise) (es : list YouTubePlayer.ApiEvent) :
  YouTubePlayer.apiPromise s = Some pr ->
  (exists pr',
     YouTubePlayer.apiPromise (YouTubePlayer.api_run es s) = Some pr'
     /\ (pr = YouTubePlayer.Fulfilled -> pr' = YouTubePlayer.Fulfilled)
     /\ (pr = YouTubePlayer.Rejected -> pr' = YouTubePlayer.Rejected))
  /\ (pr = YouTubePlayer.Rejected -> YouTubePlayer.YT_Player s = false ->
      forallb (fun e => negb (is_IframeApiReady e)) es = true ->
      YouTubePlayer.ensureYouTubeApiLoaded true (YouTubePlayer.api_run es s)
      = (YouTubePlayer.api_run es s, YouTubePlayer.The_apiPromise)
      /\ YouTubePlayer.apiPromise (YouTubePlayer.api_run es s)
         = Some YouTubePlayer.Rejected
      /\ YouTubePlayer.api_scripts (YouTubePlayer.api_run es s)
         = YouTubePlayer.api_scripts s).
Proof.
  intros H. split; [now apply api_run_settled|].
  intros -> Hy He. destruct (api_run_rejected es s H Hy He) as (R1 & R2 & R3).
  split; [|now split].
  unfold YouTubePlayer.ensureYouTubeApiLoaded. cbn [negb].
  rewrite R1, R2, Bool.andb_false_r. reflexivity.
Qed.

Lemma api_promise_settled_once_witness :
  YouTubePlayer.ensureYouTubeApiLoaded true
    (YouTubePlayer.api_run [YouTubePlayer.Call true; YouTubePlayer.Call true]
       (YouTubePlayer.api_run [YouTubePlayer.Call true; YouTubePlayer.ScriptError]
          (YouTubePlayer.api_init false 0 1)))
  = (YouTubePlayer.api_run [YouTubePlayer.Call true; YouTubePlayer.Call true]
       (YouTubePlayer.api_run [YouTubePlayer.Call true; YouTubePlayer.ScriptError]
          (YouTubePlayer.api_init false 0 1)),
     YouTubePlayer.The_apiPromise)
  /\ YouTubePlayer.apiPromise
       (YouTubePlayer.api_run [YouTubePlayer.Call true; YouTubePlayer.Call true]
          (YouTubePlayer.api_run
             [YouTubePlayer.Call true; YouTubePlayer.ScriptError]
             (YouTubePlayer.api_init false 0 1)))
     = Some YouTubePlayer.Rejected
  /\ YouTubePlayer.api_scripts
       (YouTubePlayer.api_run [YouTubePlayer.Call true; YouTubePlayer.Call true]
          (YouTubePlayer.api_run
             [YouTubePlayer.Call true; YouTubePlayer.ScriptError]
             (YouTubePlayer.api_init false 0 1)))
     = YouTubePlayer.api_scripts
         (YouTubePlayer.api_run
            [YouTubePlayer.Call true; YouTubePlayer.ScriptError]
            (YouTubePlayer.api_init false 0 1)).
Proof.
  refine (proj2 (api_promise_settled_once
                   (YouTubePlayer.api_run
                      [YouTubePlayer.Call true; YouTubePlayer.ScriptError]
                      (YouTubePlayer.api_init false 0 1))
                   YouTubePlayer.Rejected
                   [YouTubePlayer.Call true; YouTubePlayer.Call true] _) _ _ _);
    reflexivity.
Defined.

(** X25. When the promise of the loader is fulfilled, the API is there; and
    the loader gets there: in a document that has a script element, when no
    script fails to load, a call in the browser followed, after anything
    else, by the run of the script of the API leaves the promise fulfilled,
    and the next call returns a resolved promise at once. *)
Theorem api_loaded_in_the_end (yt : bool) (k n : nat)
  (es1 es2 : list YouTubePlayer.ApiEvent) :
  (YouTubePlayer.apiPromise
     (YouTubePlayer.api_run es1 (YouTubePlayer.api_init yt k n))
   = Some YouTubePlayer.Fulfilled ->
   YouTubePlayer.YT_Player
     (YouTubePlayer.api_run es1 (YouTubePlayer.api_init yt k n)) = true)
  /\ (1 <= n \/ 1 <= k ->
      forallb (fun e => negb (is_ScriptError e)) (es1 ++ es2) = true ->
      YouTubePlayer.apiPromise
        (YouTubePlayer.api_run
           (es1 ++ YouTubePlayer.Call true :: es2 ++ [YouTubePlayer.IframeApiReady])
           (YouTubePlayer.api_init yt k n))
      = Some YouTubePlayer.Fulfilled
      /\ snd (YouTubePlayer.ensureYouTubeApiLoaded true
                (YouTubePlayer.api_run
                   (es1 ++ YouTubePlayer.Call true
                        :: es2 ++ [YouTubePlayer.IframeApiReady])
                   (YouTubePlayer.api_init yt k n)))
         = YouTubePlayer.Promise_resolve).
Proof.
  split.
  - intros H.
    destruct (api_ok_run k n es1 _ (api_ok_init yt k n)) as (H1 & H2 & _).
    auto.
  - intros Hn He. rewrite forallb_app in He.
    apply andb_true_iff in He as [He1 He2].
    assert (Hok0 := api_ok_init yt k n).
    assert (Hok1 := api_ok_run k n es1 _ Hok0).
    destruct (api_run_not_rejected k n es1 _ Hok0 Hn) as [Hr1 _];
      [discriminate | exact He1 |].
    set (s1 := YouTubePlayer.api_run es1 (YouTubePlayer.api_init yt k n)) in *.
    destruct (api_step_not_rejected k n (YouTubePlayer.Call true) s1 Hok1 Hn Hr1)
      as [Hr2 _]; [reflexivity|].
    assert (Hs2 := api_call_sets_promise k n s1 Hok1).
    assert (Hok2 := api_ok_step k n (YouTubePlayer.Call true) s1 Hok1).
    set (s2 := YouTubePlayer.api_step (YouTubePlayer.Call true) s1) in *.
    destruct (api_run_not_rejected k n es2 s2 Hok2 Hn Hr2 He2) as [Hr3 Hs3].
    specialize (Hs3 Hs2).
    assert (Hok3 := api_ok_run k n es2 s2 Hok2).
    set (s3 := YouTubePlayer.api_run es2 s2) in *.
    assert (Hf := api_ready_fulfils k n s3 Hok3 Hs3 Hr3).
    assert (Hok4 := api_ok_step k n YouTubePlayer.IframeApiReady s3 Hok3).
    assert (E : YouTubePlayer.api_run
                  (es1 ++ YouTubePlayer.Call true
                       :: es2 ++ [YouTubePlayer.IframeApiReady])
                  (YouTubePlayer.api_init yt k n)
                = YouTubePlayer.api_step YouTubePlayer.IframeApiReady s3).
    { rewrite api_run_app. fold s1. rewrite api_run_cons. fold s2.
      rewrite api_run_app. fold s3. reflexivity. }
    rewrite E. split; [exact Hf|].
    destruct Hok4 as (H1 & H2 & _).
    specialize (H2 Hf). specialize (H1 H2).
    unfold YouTubePlayer.ensureYouTubeApiLoaded. cbn [negb].
    now rewrite H1, H2.
Qed.

Lemma api_loaded_in_the_end_witness :
  YouTubePlayer.apiPromise
    (YouTubePlayer.api_run
       ([YouTubePlayer.Call false]
        ++ YouTubePlayer.Call true
           :: [YouTubePlayer.Call true] ++ [YouTubePlayer.IframeApiReady])
       (YouTubePlayer.api_init false 0 1))
  = Some YouTubePlayer.Fulfilled
  /\ snd (YouTubePlayer.ensureYouTubeApiLoaded true
            (YouTubePlayer.api_run
               ([YouTubePlayer.Call false]
                ++ YouTubePlayer.Call true
                   :: [YouTubePlayer.Call true] ++ [YouTubePlayer.IframeApiReady])
               (YouTubePlayer.api_init false 0 1)))
     = YouTubePlayer.Promise_resolve.
Proof.
  refine (proj2 (api_loaded_in_the_end false 0 1 [YouTubePlayer.Call false]
                   [YouTubePlayer.Call true]) _ _).
  - left. lia.
  - reflexivity.
Defined.

(** ** The state of the form *)

Section FormFacts.

Import YouTubeForm.

Lemma form_run_app (es1 es2 : list FormEvent) (s : FormState) :
  run (es1 ++ es2) s = run es2 (run es1 s).
Proof. unfold run. apply fold_left_app. Qed.

Lemma form_error_kept (es : list FormEvent) :
  forall s : FormState,
    forallb (fun e => negb (is_Submit e)) es = true ->
    error (run es s) = error s.
Proof.
  induction es as [|e es IH]; intros s H; [reflexivity|].
  cbn [forallb] in H. apply andb_true_iff in H as [H1 H2].
  change (run (e :: es) s) with (run es (fst (step e s))).
  rewrite (IH _ H2). now destruct e.
Qed.

End FormFacts.

(** X26. The message of the form is that of the last submission. Typing in
    the field and a new initial URL never change the message: after a
    submission and any such events, the message is the one that submission
    has set. The submission sets the empty message exactly when it calls
    [onSave], which it does with the text of the field as it is, and with a
    text that [YOUTUBE_URL_REGEX] accepts; otherwise it sets one of the two
    error messages and calls nothing. *)
Theorem form_error_of_last_submit (initialUrl : string)
  (es1 es2 : list YouTubeForm.FormEvent) :
  forallb (fun e => negb (is_Submit e)) es2 = true ->
  YouTubeForm.error
    (YouTubeForm.run (es1 ++ YouTubeForm.Submit :: es2)
       (YouTubeForm.initial initialUrl))
  = YouTubeForm.error
      (fst (YouTubeForm.step YouTubeForm.Submit
              (YouTubeForm.run es1 (YouTubeForm.initial initialUrl))))
  /\ (forall s : YouTubeForm.FormState,
        (YouTubeForm.error (fst (YouTubeForm.step YouTubeForm.Submit s)) = ""
         <-> snd (YouTubeForm.step YouTubeForm.Submit s)
             = Some (YouTubeForm.videoUrl s))
        /\ (snd (YouTubeForm.step YouTubeForm.Submit s) = None
            \/ (snd (YouTubeForm.step YouTubeForm.Submit s)
                = Some (YouTubeForm.videoUrl s)
                /\ test YOUTUBE_URL_REGEX (YouTubeForm.videoUrl s) = true))
        /\ YouTubeForm.videoUrl (fst (YouTubeForm.step YouTubeForm.Submit s))
           = YouTubeForm.videoUrl s).
Proof.
  intros H. split.
  - rewrite form_run_app.
    change (YouTubeForm.run (YouTubeForm.Submit :: es2) ?s)
      with (YouTubeForm.run es2 (fst (YouTubeForm.step YouTubeForm.Submit s))).
    now apply form_error_kept.
  - intros s. cbn [YouTubeForm.step]. unfold handleSubmit.
    destruct (blank (YouTubeForm.videoUrl s)); cbn.
    + repeat split; try discriminate. now left.
    + destruct (test YOUTUBE_URL_REGEX (YouTubeForm.videoUrl s)); cbn.
      * repeat split. now right.
      * repeat split; try discriminate. now left.
Qed.

Lemma form_error_of_last_submit_witness :
  YouTubeForm.error
    (YouTubeForm.run
       ([YouTubeForm.Change "not a url"]
        ++ YouTubeForm.Submit
           :: [YouTubeForm.Change "https://youtu.be/dQw4w9WgXcQ"])
       (YouTubeForm.initial ""))
  = YouTubeForm.error
      (fst (YouTubeForm.step YouTubeForm.Submit
              (YouTubeForm.run [YouTubeForm.Change "not a url"]
                 (YouTubeForm.initial "")))).
Proof.
  refine (proj1 (form_error_of_last_submit ""
                   [YouTubeForm.Change "not a url"]
                   [YouTubeForm.Change "https://youtu.be/dQw4w9WgXcQ"] _)).
  reflexivity.
Defined.
